(** * DT Clock: the widget state and interaction engine of [floating_clock.py]

    A shallow embedding of the parts of [src/floating_clock.py] that carry
    the widget's state machine: the input normalisers ([_valid_mode],
    [_valid_layer], [_valid_theme], [_valid_size],
    [_normalize_readout_font]), the persisted record ([load_saved_state],
    [save_state], the start-up sequence of [main]), the methods of
    [FloatingAnalogClock] that mutate the widget (mutators, stopwatch,
    pointer events, positioning) and the elapsed-time formatter.

    Modelling conventions.
    - Python values that reach the normalisers (command-line values, JSON
      values of the state file) are the type [pyval].
    - Python [int] is [Z]; [//] and [%] are [Z.div] and [Z.modulo] (both
      floor); [int(x)] on a float truncates towards zero ([Z.quot]).
    - A finite float is the rational it denotes ([Q]).  Where the program
      computes with floats, in the elapsed time of the stopwatch, each
      operation is followed by the rounding of binary64 (to nearest, ties
      to even, 53 bits: [fsub], [fmul]).  The exponent range is left out:
      readings of [time.perf_counter()] are far from overflow and from
      the subnormal numbers.
    - A [str] is kept as the bytes of its UTF-8 encoding ([string]).
      Whitespace ([str.strip], [str.isspace]) and decimal digits ([int])
      are those of Unicode 14 as CPython 3.11 has them ([WHITESPACE],
      [DECIMAL_ZEROS]); [int] skips the blanks it skips, takes an
      underscore between digits and refuses a literal of more than 4300
      digits.
    - Qt coordinates are [Z].  Qt keeps them in C [int], and [QWidget.move]
      raises [OverflowError] when it is handed a Python integer outside
      that range; [move] has no such case.  What is said of a position
      taken from the command line or from the state file is therefore
      said for coordinates in the range ([fits_c_int]); the positions the
      widget computes itself come from Qt and are in it.
    - A method of the widget is a computation in the monad [Py], which
      reads the environment of the call (clock, screens, cursor, window
      handle), threads the widget and may raise a Python exception.
    - Requests to repaint ([update], [repaint]) change nothing the methods
      read and are left out; so is the painter.
    - Of the desktop integration the file holds what the program itself
      decides: the escaping and the launch command of the launchers, the
      rule list and the calls of the KWin helpers, the font choices.  What
      the tools and the font database answer is an input ([KTools], the
      arguments of [get_readout_font_choices]). *)

From Stdlib Require Import ZArith QArith Qround List String Ascii Bool Lia.
From Stdlib Require Import DecimalString DecimalN DecimalPos.
From Stdlib Require DecimalFacts.
From Stdlib Require Import Qabs Qpower Lqa.
Import ListNotations.

Set Warnings "-register-all".

Local Open Scope string_scope.
Local Open Scope Z_scope.

(** ** Python values and exceptions *)

Inductive exn : Type :=
| TypeError
| ValueError
| KeyError
| OverflowError.

(** Result of evaluating a Python expression that may raise. *)
Inductive res (A : Type) : Type :=
| Val (a : A)
| Err (e : exn).
Arguments Val {A} a.
Arguments Err {A} e.

Inductive pyfloat : Type :=
| FFinite (q : Q)
| FInf (negative : bool)
| FNaN.

Inductive pyval : Type :=
| PyNone
| PyBool (b : bool)
| PyInt (z : Z)
| PyFloat (f : pyfloat)
| PyStr (s : string)
| PyList (items : list pyval)
| PyDict (entries : list (string * pyval)).

(** A Python [dict] with string keys, as [json.loads] builds it. *)
Definition pydict : Type := list (string * pyval).

(** [d.get(key)]: the value, or [None]. *)
Fixpoint dict_get (d : pydict) (key : string) : pyval :=
  match d with
  | [] => PyNone
  | (k, v) :: rest => if String.eqb k key then v else dict_get rest key
  end.

(** [d[key]]: the value, or [KeyError]. *)
Fixpoint dict_item (d : pydict) (key : string) : res pyval :=
  match d with
  | [] => Err KeyError
  | (k, v) :: rest => if String.eqb k key then Val v else dict_item rest key
  end.

(** [x == s] for a string constant [s]: only a [str] compares equal. *)
Definition py_eq_str (x : pyval) (s : string) : bool :=
  match x with
  | PyStr t => String.eqb t s
  | _ => false
  end.

(** [hash(x)] raises [TypeError] on lists and dicts. *)
Definition hashable (x : pyval) : bool :=
  match x with
  | PyList _ | PyDict _ => false
  | _ => true
  end.

(** Truth value of an optional command-line string ([None] and [""] are
    false). *)
Definition truthy (o : option string) : bool :=
  match o with
  | Some s => negb (String.eqb s "")
  | None => false
  end.

(** ** Text: [str.strip], [str.isspace] and [int]

    A [str] is kept as the bytes of its UTF-8 encoding (a [string]), so
    that equality, concatenation and the search of an ASCII character are
    those of the bytes.  The whitespace of [str.strip] and [str.isspace]
    is matched on the encoded characters; [int] reads the code points. *)

(** The code points [str.isspace] holds of (Unicode 14, CPython 3.11). *)
Definition WHITESPACE : list N :=
  [ 9; 10; 11; 12; 13; 28; 29; 30; 31; 32;
    133; 160; 5760; 8192; 8193; 8194; 8195; 8196; 8197; 8198;
    8199; 8200; 8201; 8202; 8232; 8233; 8239; 8287; 12288 ]%N.

(** The decimal digits zero of Unicode 14: each is followed by the digits
    one to nine of its script. *)
Definition DECIMAL_ZEROS : list N :=
  [ 48; 1632; 1776; 1984; 2406; 2534; 2662; 2790; 2918; 3046;
    3174; 3302; 3430; 3558; 3664; 3792; 3872; 4160; 4240; 6112;
    6160; 6470; 6608; 6784; 6800; 6992; 7088; 7232; 7248; 42528;
    43216; 43264; 43472; 43504; 43600; 44016; 65296; 66720; 68912; 69734;
    69872; 69942; 70096; 70384; 70736; 70864; 71248; 71360; 71472; 71904;
    72016; 72784; 73040; 73120; 92768; 92864; 93008; 120782; 120792; 120802;
    120812; 120822; 123200; 123632; 125264; 130032 ]%N.

(** The UTF-8 encoding of a code point. *)
Definition utf8 (c : N) : list ascii :=
  (if c <? 128 then [ascii_of_N c]
   else if c <? 2048 then
     [ascii_of_N (192 + c / 64); ascii_of_N (128 + c mod 64)]
   else if c <? 65536 then
     [ascii_of_N (224 + c / 4096); ascii_of_N (128 + (c / 64) mod 64);
      ascii_of_N (128 + c mod 64)]
   else
     [ascii_of_N (240 + c / 262144); ascii_of_N (128 + (c / 4096) mod 64);
      ascii_of_N (128 + (c / 64) mod 64); ascii_of_N (128 + c mod 64)])%N.

Fixpoint starts_with (p l : list ascii) : bool :=
  match p, l with
  | [], _ => true
  | a :: p', b :: l' => Ascii.eqb a b && starts_with p' l'
  | _ :: _, [] => false
  end.

(** The encodings of the whitespace characters, and the same read from
    the end of a string. *)
Definition SPACES : list (list ascii) := map utf8 WHITESPACE.
Definition SPACES_REVERSED : list (list ascii) := map (@rev ascii) SPACES.

(** How many bytes the character at the head of [l] takes when it is one
    of [patterns]; 0 when it is none. *)
Definition head_len (patterns : list (list ascii)) (l : list ascii) : nat :=
  match find (fun p => starts_with p l) patterns with
  | Some p => List.length p
  | None => O
  end.

(** Drops the characters of [patterns] at the head of [l]; [skip] counts
    the bytes of the current character still to drop. *)
Fixpoint drop_heads (patterns : list (list ascii)) (skip : nat)
    (l : list ascii) : list ascii :=
  match l with
  | [] => []
  | _ :: rest =>
      match skip with
      | S k => drop_heads patterns k rest
      | O =>
          match head_len patterns l with
          | O => l
          | S k => drop_heads patterns k rest
          end
      end
  end.

Definition lstrip (l : list ascii) : list ascii := drop_heads SPACES 0 l.

Definition strip_chars (l : list ascii) : list ascii :=
  rev (drop_heads SPACES_REVERSED 0 (rev (lstrip l))).

Definition py_strip (s : string) : string :=
  string_of_list_ascii (strip_chars (list_ascii_of_string s)).

(** [any(ch.isspace() for ch in value)]. *)
Fixpoint has_space (l : list ascii) : bool :=
  match l with
  | [] => false
  | _ :: rest => negb (Nat.eqb (head_len SPACES l) 0) || has_space rest
  end.

(** What stands for a byte sequence that encodes no code point. *)
Definition INVALID : N := 1114112%N.

(** The code points of a UTF-8 text; [pending] and [need] hold the
    character under way. *)
Fixpoint code_points (pending : N) (need : nat) (l : list ascii) : list N :=
  match l with
  | [] => match need with O => [] | S _ => [INVALID] end
  | b :: rest =>
      let n := N_of_ascii b in
      match need with
      | O =>
          (if n <? 128 then n :: code_points 0 0 rest
           else if (192 <=? n) && (n <? 224) then code_points (n - 192) 1 rest
           else if (224 <=? n) && (n <? 240) then code_points (n - 224) 2 rest
           else if (240 <=? n) && (n <? 248) then code_points (n - 240) 3 rest
           else INVALID :: code_points 0 0 rest)%N
      | S k =>
          (if (128 <=? n) && (n <? 192) then
             let c := pending * 64 + (n - 128) in
             match k with
             | O => c :: code_points 0 0 rest
             | S _ => code_points c k rest
             end
           else INVALID :: code_points 0 0 rest)%N
      end
  end.

Definition is_space (c : N) : bool := existsb (N.eqb c) WHITESPACE.

(** The blanks [int] skips around a literal: the whitespace of C for
    ASCII, that of Unicode beyond. *)
Definition int_blank (c : N) : bool :=
  (if c <? 128 then (9 <=? c) && (c <=? 13) || (c =? 32) else is_space c)%N.

Definition digit_value (c : N) : option Z :=
  match find (fun z => (z <=? c) && (c <? z + 10))%N DECIMAL_ZEROS with
  | Some z => Some (Z.of_N (c - z))
  | None => None
  end.

Definition UNDERSCORE : N := 95%N.
Definition PLUS : N := 43%N.
Definition MINUS : N := 45%N.

(** The limit on the digits of a literal ([sys.get_int_max_str_digits()]). *)
Definition MAX_STR_DIGITS : Z := 4300.

(** Decimal digits with single underscores between digits, as [int]
    accepts them; [digits] counts the digits read and [after_digit] tells
    whether the previous character was one. *)
Fixpoint parse_digits (acc digits : Z) (after_digit : bool) (l : list N)
  : option Z :=
  match l with
  | [] => if after_digit && (digits <=? MAX_STR_DIGITS) then Some acc else None
  | c :: rest =>
      match digit_value c with
      | Some d => parse_digits (acc * 10 + d) (digits + 1) true rest
      | None =>
          if N.eqb c UNDERSCORE && after_digit
          then parse_digits acc digits false rest
          else None
      end
  end.

Fixpoint skip_blanks (l : list N) : list N :=
  match l with
  | c :: rest => if int_blank c then skip_blanks rest else l
  | [] => []
  end.

(** [int(s)] for a string: blanks around, an optional sign, then digits;
    [None] stands for [ValueError]. *)
Definition int_of_str (s : string) : option Z :=
  let text := code_points 0 0 (list_ascii_of_string s) in
  match rev (skip_blanks (rev (skip_blanks text))) with
  | c :: rest =>
      if N.eqb c PLUS then parse_digits 0 0 false rest
      else if N.eqb c MINUS then option_map Z.opp (parse_digits 0 0 false rest)
      else parse_digits 0 0 false (c :: rest)
  | [] => None
  end.

(** [int(x)] on a float truncates towards zero. *)
Definition trunc_Q (q : Q) : Z := Z.quot (Qnum q) (Zpos (Qden q)).

(** [int(x)] for any value. *)
Definition py_int (x : pyval) : res Z :=
  match x with
  | PyNone => Err TypeError
  | PyBool b => Val (if b then 1 else 0)
  | PyInt z => Val z
  | PyFloat (FFinite q) => Val (trunc_Q q)
  | PyFloat (FInf _) => Err OverflowError
  | PyFloat FNaN => Err ValueError
  | PyStr s =>
      match int_of_str s with
      | Some z => Val z
      | None => Err ValueError
      end
  | PyList _ => Err TypeError
  | PyDict _ => Err TypeError
  end.

(** ** Binary floating point

    [time.perf_counter()] returns a binary64 number, and the subtraction
    and the product of [_current_stopwatch_ms] give binary64 numbers: the
    exact result rounded to 53 significant bits, a tie going to the even
    neighbour.  Numbers stay rationals and the rounding is written out. *)

(** The nearest integer, ties going to the even one. *)
Definition round_half_even (q : Q) : Z :=
  let n := Qfloor q in
  match ((2 # 1) * (q - inject_Z n) ?= 1)%Q with
  | Lt => n
  | Gt => n + 1
  | Eq => if Z.even n then n else n + 1
  end.

Definition pow2 (k : Z) : Q := ((2 # 1) ^ k)%Q.

(** [floor(log2(q))] for a positive [q]: the difference of the bit lengths
    of numerator and denominator, or one less. *)
Definition binade (q : Q) : Z :=
  let k := Z.log2 (Qnum q) - Z.log2 (Zpos (Qden q)) in
  if Qle_bool (pow2 k) q then k else k - 1.

(** A positive [q] rounded to 53 significant bits. *)
Definition round53 (q : Q) : Q :=
  let e := binade q - 52 in
  (inject_Z (round_half_even (q * pow2 (- e))) * pow2 e)%Q.

(** The binary64 number nearest to [q]. *)
Definition round64 (q : Q) : Q :=
  match (q ?= 0)%Q with
  | Eq => 0%Q
  | Gt => round53 q
  | Lt => (- round53 (- q))%Q
  end.

(** [a - b] and [a * b] on floats. *)
Definition fsub (a b : Q) : Q := round64 (a - b).
Definition fmul (a b : Q) : Q := round64 (a * b).

(** ** Module constants *)

Definition MODE_CLOCK : string := "clock".
Definition MODE_STOPWATCH : string := "stopwatch".
Definition DEFAULT_MODE : string := MODE_CLOCK.

Definition LAYER_TOP : string := "top".
Definition LAYER_NORMAL : string := "normal".
Definition LAYER_BOTTOM : string := "bottom".
Definition DEFAULT_LAYER : string := LAYER_TOP.

Definition MIN_CLOCK_SIZE : Z := 120.
Definition MAX_CLOCK_SIZE : Z := 640.
Definition DEFAULT_CLOCK_SIZE : Z := 220.

(** The keys of [THEME_PRESETS] with their labels; the colour tuples of
    each preset play no part in the state machine. *)
Definition THEME_PRESETS : list (string * string) :=
  [ ("midnight", "Midnight");
    ("daylight", "Daylight");
    ("high_contrast", "High Contrast");
    ("ocean", "Ocean") ].
Definition DEFAULT_THEME : string := "midnight".

Definition DEFAULT_READOUT_FONT : string := "Monospace".

(** ** Normalisers *)

Definition _valid_mode (mode : pyval) : string :=
  match mode with
  | PyStr s =>
      if String.eqb s MODE_CLOCK || String.eqb s MODE_STOPWATCH
      then s else DEFAULT_MODE
  | _ => DEFAULT_MODE
  end.

Definition _valid_layer (layer : pyval) : string :=
  match layer with
  | PyStr s =>
      if String.eqb s LAYER_TOP || String.eqb s LAYER_NORMAL
         || String.eqb s LAYER_BOTTOM
      then s else DEFAULT_LAYER
  | _ => DEFAULT_LAYER
  end.

(** [theme_name in THEME_PRESETS] hashes its left operand. *)
Definition _valid_theme (theme_name : pyval) : res string :=
  if hashable theme_name then
    match theme_name with
    | PyStr s =>
        if existsb (fun kv => String.eqb (fst kv) s) THEME_PRESETS
        then Val s else Val DEFAULT_THEME
    | _ => Val DEFAULT_THEME
    end
  else Err TypeError.

(** The [try] catches [TypeError] and [ValueError] only. *)
Definition _valid_size (size : pyval) : res Z :=
  match
    match py_int size with
    | Val parsed => Val parsed
    | Err TypeError | Err ValueError => Val DEFAULT_CLOCK_SIZE
    | Err e => Err e
    end
  with
  | Val parsed => Val (Z.max MIN_CLOCK_SIZE (Z.min MAX_CLOCK_SIZE parsed))
  | Err e => Err e
  end.

Definition _normalize_readout_font (font_name : pyval) : string :=
  match font_name with
  | PyStr s =>
      let normalized := py_strip s in
      if String.eqb normalized "" then DEFAULT_READOUT_FONT else normalized
  | _ => DEFAULT_READOUT_FONT
  end.


(** ** Qt geometry

    [QPoint] and [QRect] as Qt defines them: a rectangle keeps its corners,
    [center] divides in C (truncation), [contains] includes the edges. *)

Record QPoint : Type := mkPoint { px : Z; py : Z }.

Definition point_sub (a b : QPoint) : QPoint :=
  mkPoint (px a - px b) (py a - py b).

Definition manhattanLength (p : QPoint) : Z := Z.abs (px p) + Z.abs (py p).

Record QRect : Type := mkRect { x1 : Z; y1 : Z; x2 : Z; y2 : Z }.

(** [QRect(left, top, width, height)]. *)
Definition rect_xywh (l t w h : Z) : QRect :=
  mkRect l t (l + w - 1) (t + h - 1).

Definition rect_left (r : QRect) : Z := x1 r.
Definition rect_top (r : QRect) : Z := y1 r.
Definition rect_width (r : QRect) : Z := x2 r - x1 r + 1.
Definition rect_height (r : QRect) : Z := y2 r - y1 r + 1.

Definition rect_center (r : QRect) : QPoint :=
  mkPoint (Z.quot (x1 r + x2 r) 2) (Z.quot (y1 r + y2 r) 2).

Definition rect_contains (r : QRect) (p : QPoint) : bool :=
  let '(l, rt) := if x2 r <? x1 r - 1 then (x2 r, x1 r) else (x1 r, x2 r) in
  let '(t, b) := if y2 r <? y1 r - 1 then (y2 r, y1 r) else (y1 r, y2 r) in
  negb ((px p <? l) || (rt <? px p)) && negb ((py p <? t) || (b <? py p)).

(** ** Environment of a call

    What a method reads from outside the widget: the monotonic clock, the
    screens Qt knows (the primary screen first), the cursor and the native
    window handle. *)

Record WindowHandle : Type := mkHandle {
  handle_screen : option QRect;
  (** [None]: the handle has no [startSystemMove]; [Some b]: it returns [b]. *)
  startSystemMove : option bool
}.

Record Env : Type := mkEnv {
  perf_counter : Q;
  screens : list QRect;
  cursor_pos : QPoint;
  windowHandle : option WindowHandle
}.

(** [QApplication.screenAt]: the first screen whose geometry has the point. *)
Definition screenAt (e : Env) (p : QPoint) : option QRect :=
  find (fun g => rect_contains g p) (screens e).

Definition primaryScreen (e : Env) : option QRect := hd_error (screens e).

(** ** The widget *)

(** The record [save_state] writes to the state file. *)
Record Payload : Type := mkPayload {
  p_x : Z;
  p_y : Z;
  p_size : Z;
  p_mode : string;
  p_layer : string;
  p_theme : string;
  p_readout_font : string
}.

Record Widget : Type := mkWidget {
  clock_size : Z;
  readout_height : Z;
  layer : string;
  mode : string;
  color_theme : string;
  readout_font_family : string;
  stopwatch_running : bool;
  stopwatch_elapsed_ms : Z;
  stopwatch_start_time : Q;
  drag_offset : option QPoint;
  press_global_pos : option QPoint;
  drag_started : bool;
  click_threshold_px : Z;
  (* state kept by Qt for the window *)
  pos : QPoint;
  width : Z;
  height : Z;
  visible : bool;
  stays_on_top : bool;
  stays_on_bottom : bool;
  timer_interval : Z;
  (* the writes of the state file so far, newest first *)
  saved : list Payload
}.

Definition frameGeometry (w : Widget) : QRect :=
  rect_xywh (px (pos w)) (py (pos w)) (width w) (height w).

(** ** The monad of widget methods *)

Inductive outcome (A : Type) : Type :=
| Done (a : A) (w : Widget)
| Raised (e : exn) (w : Widget).
Arguments Done {A} a w.
Arguments Raised {A} e w.

Definition Py (A : Type) : Type := Env -> Widget -> outcome A.

Definition ret {A} (a : A) : Py A := fun _ w => Done a w.

Definition bind {A B} (m : Py A) (k : A -> Py B) : Py B :=
  fun e w =>
    match m e w with
    | Done a w' => k a e w'
    | Raised x w' => Raised x w'
    end.

Declare Scope py_scope.
Delimit Scope py_scope with py.
Notation "x <- m ;; k" := (bind m (fun x => k))
  (at level 100, m at next level, right associativity) : py_scope.
Notation "m ;; k" := (bind m (fun _ => k))
  (at level 100, right associativity) : py_scope.
Local Open Scope py_scope.

Definition get {A} (f : Widget -> A) : Py A := fun _ w => Done (f w) w.
Definition ask {A} (f : Env -> A) : Py A := fun e w => Done (f e) w.
Definition modify (f : Widget -> Widget) : Py unit := fun _ w => Done tt (f w).
Definition eval {A} (r : res A) : Py A :=
  fun _ w => match r with Val a => Done a w | Err x => Raised x w end.
Definition when (b : bool) (m : Py unit) : Py unit :=
  if b then m else ret tt.

(** The widget a call leaves behind, whether it returned or raised. *)
Definition final {A} (o : outcome A) : Widget :=
  match o with Done _ w => w | Raised _ w => w end.

Definition returned {A} (o : outcome A) : bool :=
  match o with Done _ _ => true | Raised _ _ => false end.

(** Assignment to one attribute of the widget. *)
Definition upd_clock_size (v : Z) (w : Widget) : Widget :=
  mkWidget v (readout_height w) (layer w) (mode w) (color_theme w)
    (readout_font_family w) (stopwatch_running w) (stopwatch_elapsed_ms w)
    (stopwatch_start_time w) (drag_offset w) (press_global_pos w)
    (drag_started w) (click_threshold_px w) (pos w) (width w) (height w)
    (visible w) (stays_on_top w) (stays_on_bottom w) (timer_interval w)
    (saved w).
Definition upd_readout_height (v : Z) (w : Widget) : Widget :=
  mkWidget (clock_size w) v (layer w) (mode w) (color_theme w)
    (readout_font_family w) (stopwatch_running w) (stopwatch_elapsed_ms w)
    (stopwatch_start_time w) (drag_offset w) (press_global_pos w)
    (drag_started w) (click_threshold_px w) (pos w) (width w) (height w)
    (visible w) (stays_on_top w) (stays_on_bottom w) (timer_interval w)
    (saved w).
Definition upd_layer (v : string) (w : Widget) : Widget :=
  mkWidget (clock_size w) (readout_height w) v (mode w) (color_theme w)
    (readout_font_family w) (stopwatch_running w) (stopwatch_elapsed_ms w)
    (stopwatch_start_time w) (drag_offset w) (press_global_pos w)
    (drag_started w) (click_threshold_px w) (pos w) (width w) (height w)
    (visible w) (stays_on_top w) (stays_on_bottom w) (timer_interval w)
    (saved w).
Definition upd_mode (v : string) (w : Widget) : Widget :=
  mkWidget (clock_size w) (readout_height w) (layer w) v (color_theme w)
    (readout_font_family w) (stopwatch_running w) (stopwatch_elapsed_ms w)
    (stopwatch_start_time w) (drag_offset w) (press_global_pos w)
    (drag_started w) (click_threshold_px w) (pos w) (width w) (height w)
    (visible w) (stays_on_top w) (stays_on_bottom w) (timer_interval w)
    (saved w).
Definition upd_color_theme (v : string) (w : Widget) : Widget :=
  mkWidget (clock_size w) (readout_height w) (layer w) (mode w) v
    (readout_font_family w) (stopwatch_running w) (stopwatch_elapsed_ms w)
    (stopwatch_start_time w) (drag_offset w) (press_global_pos w)
    (drag_started w) (click_threshold_px w) (pos w) (width w) (height w)
    (visible w) (stays_on_top w) (stays_on_bottom w) (timer_interval w)
    (saved w).
Definition upd_readout_font_family (v : string) (w : Widget) : Widget :=
  mkWidget (clock_size w) (readout_height w) (layer w) (mode w)
    (color_theme w) v (stopwatch_running w) (stopwatch_elapsed_ms w)
    (stopwatch_start_time w) (drag_offset w) (press_global_pos w)
    (drag_started w) (click_threshold_px w) (pos w) (width w) (height w)
    (visible w) (stays_on_top w) (stays_on_bottom w) (timer_interval w)
    (saved w).
Definition upd_stopwatch_running (v : bool) (w : Widget) : Widget :=
  mkWidget (clock_size w) (readout_height w) (layer w) (mode w)
    (color_theme w) (readout_font_family w) v (stopwatch_elapsed_ms w)
    (stopwatch_start_time w) (drag_offset w) (press_global_pos w)
    (drag_started w) (click_threshold_px w) (pos w) (width w) (height w)
    (visible w) (stays_on_top w) (stays_on_bottom w) (timer_interval w)
    (saved w).
Definition upd_stopwatch_elapsed_ms (v : Z) (w : Widget) : Widget :=
  mkWidget (clock_size w) (readout_height w) (layer w) (mode w)
    (color_theme w) (readout_font_family w) (stopwatch_running w) v
    (stopwatch_start_time w) (drag_offset w) (press_global_pos w)
    (drag_started w) (click_threshold_px w) (pos w) (width w) (height w)
    (visible w) (stays_on_top w) (stays_on_bottom w) (timer_interval w)
    (saved w).
Definition upd_stopwatch_start_time (v : Q) (w : Widget) : Widget :=
  mkWidget (clock_size w) (readout_height w) (layer w) (mode w)
    (color_theme w) (readout_font_family w) (stopwatch_running w)
    (stopwatch_elapsed_ms w) v (drag_offset w) (press_global_pos w)
    (drag_started w) (click_threshold_px w) (pos w) (width w) (height w)
    (visible w) (stays_on_top w) (stays_on_bottom w) (timer_interval w)
    (saved w).
Definition upd_drag_offset (v : option QPoint) (w : Widget) : Widget :=
  mkWidget (clock_size w) (readout_height w) (layer w) (mode w)
    (color_theme w) (readout_font_family w) (stopwatch_running w)
    (stopwatch_elapsed_ms w) (stopwatch_start_time w) v (press_global_pos w)
    (drag_started w) (click_threshold_px w) (pos w) (width w) (height w)
    (visible w) (stays_on_top w) (stays_on_bottom w) (timer_interval w)
    (saved w).
Definition upd_press_global_pos (v : option QPoint) (w : Widget) : Widget :=
  mkWidget (clock_size w) (readout_height w) (layer w) (mode w)
    (color_theme w) (readout_font_family w) (stopwatch_running w)
    (stopwatch_elapsed_ms w) (stopwatch_start_time w) (drag_offset w) v
    (drag_started w) (click_threshold_px w) (pos w) (width w) (height w)
    (visible w) (stays_on_top w) (stays_on_bottom w) (timer_interval w)
    (saved w).
Definition upd_drag_started (v : bool) (w : Widget) : Widget :=
  mkWidget (clock_size w) (readout_height w) (layer w) (mode w)
    (color_theme w) (readout_font_family w) (stopwatch_running w)
    (stopwatch_elapsed_ms w) (stopwatch_start_time w) (drag_offset w)
    (press_global_pos w) v (click_threshold_px w) (pos w) (width w)
    (height w) (visible w) (stays_on_top w) (stays_on_bottom w)
    (timer_interval w) (saved w).
Definition upd_click_threshold_px (v : Z) (w : Widget) : Widget :=
  mkWidget (clock_size w) (readout_height w) (layer w) (mode w)
    (color_theme w) (readout_font_family w) (stopwatch_running w)
    (stopwatch_elapsed_ms w) (stopwatch_start_time w) (drag_offset w)
    (press_global_pos w) (drag_started w) v (pos w) (width w) (height w)
    (visible w) (stays_on_top w) (stays_on_bottom w) (timer_interval w)
    (saved w).
Definition upd_pos (v : QPoint) (w : Widget) : Widget :=
  mkWidget (clock_size w) (readout_height w) (layer w) (mode w)
    (color_theme w) (readout_font_family w) (stopwatch_running w)
    (stopwatch_elapsed_ms w) (stopwatch_start_time w) (drag_offset w)
    (press_global_pos w) (drag_started w) (click_threshold_px w) v (width w)
    (height w) (visible w) (stays_on_top w) (stays_on_bottom w)
    (timer_interval w) (saved w).
Definition upd_width (v : Z) (w : Widget) : Widget :=
  mkWidget (clock_size w) (readout_height w) (layer w) (mode w)
    (color_theme w) (readout_font_family w) (stopwatch_running w)
    (stopwatch_elapsed_ms w) (stopwatch_start_time w) (drag_offset w)
    (press_global_pos w) (drag_started w) (click_threshold_px w) (pos w) v
    (height w) (visible w) (stays_on_top w) (stays_on_bottom w)
    (timer_interval w) (saved w).
Definition upd_height (v : Z) (w : Widget) : Widget :=
  mkWidget (clock_size w) (readout_height w) (layer w) (mode w)
    (color_theme w) (readout_font_family w) (stopwatch_running w)
    (stopwatch_elapsed_ms w) (stopwatch_start_time w) (drag_offset w)
    (press_global_pos w) (drag_started w) (click_threshold_px w) (pos w)
    (width w) v (visible w) (stays_on_top w) (stays_on_bottom w)
    (timer_interval w) (saved w).
Definition upd_visible (v : bool) (w : Widget) : Widget :=
  mkWidget (clock_size w) (readout_height w) (layer w) (mode w)
    (color_theme w) (readout_font_family w) (stopwatch_running w)
    (stopwatch_elapsed_ms w) (stopwatch_start_time w) (drag_offset w)
    (press_global_pos w) (drag_started w) (click_threshold_px w) (pos w)
    (width w) (height w) v (stays_on_top w) (stays_on_bottom w)
    (timer_interval w) (saved w).
Definition upd_stays_on_top (v : bool) (w : Widget) : Widget :=
  mkWidget (clock_size w) (readout_height w) (layer w) (mode w)
    (color_theme w) (readout_font_family w) (stopwatch_running w)
    (stopwatch_elapsed_ms w) (stopwatch_start_time w) (drag_offset w)
    (press_global_pos w) (drag_started w) (click_threshold_px w) (pos w)
    (width w) (height w) (visible w) v (stays_on_bottom w)
    (timer_interval w) (saved w).
Definition upd_stays_on_bottom (v : bool) (w : Widget) : Widget :=
  mkWidget (clock_size w) (readout_height w) (layer w) (mode w)
    (color_theme w) (readout_font_family w) (stopwatch_running w)
    (stopwatch_elapsed_ms w) (stopwatch_start_time w) (drag_offset w)
    (press_global_pos w) (drag_started w) (click_threshold_px w) (pos w)
    (width w) (height w) (visible w) (stays_on_top w) v (timer_interval w)
    (saved w).
Definition upd_timer_interval (v : Z) (w : Widget) : Widget :=
  mkWidget (clock_size w) (readout_height w) (layer w) (mode w)
    (color_theme w) (readout_font_family w) (stopwatch_running w)
    (stopwatch_elapsed_ms w) (stopwatch_start_time w) (drag_offset w)
    (press_global_pos w) (drag_started w) (click_threshold_px w) (pos w)
    (width w) (height w) (visible w) (stays_on_top w) (stays_on_bottom w) v
    (saved w).
Definition upd_saved (v : list Payload) (w : Widget) : Widget :=
  mkWidget (clock_size w) (readout_height w) (layer w) (mode w)
    (color_theme w) (readout_font_family w) (stopwatch_running w)
    (stopwatch_elapsed_ms w) (stopwatch_start_time w) (drag_offset w)
    (press_global_pos w) (drag_started w) (click_threshold_px w) (pos w)
    (width w) (height w) (visible w) (stays_on_top w) (stays_on_bottom w)
    (timer_interval w) v.

(** ** Window plumbing *)

Definition move (x y : Z) : Py unit := modify (upd_pos (mkPoint x y)).

Definition setFixedSize (w h : Z) : Py unit :=
  modify (upd_width w);; modify (upd_height h).

Definition _set_window_flags (layer : string) : Py unit :=
  modify (upd_stays_on_top (String.eqb layer LAYER_TOP));;
  modify (upd_stays_on_bottom (String.eqb layer LAYER_BOTTOM)).

Definition _apply_window_size : Py unit :=
  m <- get mode;;
  rh <- get readout_height;;
  cs <- get clock_size;;
  let extra_height := if String.eqb m MODE_STOPWATCH then rh else 0 in
  setFixedSize cs (cs + extra_height).

Definition _update_refresh_timer : Py unit :=
  m <- get mode;;
  running <- get stopwatch_running;;
  let interval_ms :=
    if String.eqb m MODE_STOPWATCH
    then (if running then 10 else 33)
    else 1000 in
  modify (upd_timer_interval interval_ms).

(** [screen = ... if screen is None]: keep a screen already found. *)
Definition if_none (screen : option QRect) (m : Py (option QRect))
  : Py (option QRect) :=
  match screen with
  | Some s => ret (Some s)
  | None => m
  end.

Definition _current_screen : Py (option QRect) :=
  handle <- ask windowHandle;;
  let screen :=
    match handle with
    | Some h => handle_screen h
    | None => None
    end in
  fg <- get frameGeometry;;
  screen <- if_none screen (ask (fun e => screenAt e (rect_center fg)));;
  screen <- if_none screen (ask (fun e => screenAt e (cursor_pos e)));;
  if_none screen (ask primaryScreen).

(** Writing the file is best effort ([OSError] is swallowed), so the call
    never raises; [saved] records the payload of each call. *)
Definition save_state : Py unit :=
  w <- get (fun w => w);;
  let payload :=
    mkPayload (px (pos w)) (py (pos w)) (clock_size w) (mode w) (layer w)
      (color_theme w) (readout_font_family w) in
  modify (upd_saved (payload :: saved w)).

Definition center_on_screen : Py unit :=
  screen <- _current_screen;;
  match screen with
  | None => ret tt
  | Some geometry =>
      w <- get width;;
      h <- get height;;
      move (rect_left geometry + (rect_width geometry - w) / 2)
           (rect_top geometry + (rect_height geometry - h) / 2);;
      save_state
  end.

Definition _is_on_any_screen : Py bool :=
  rect <- get frameGeometry;;
  let center := rect_center rect in
  ask (fun e => existsb (fun g => rect_contains g center) (screens e)).

Definition res_bind {A B} (r : res A) (k : A -> res B) : res B :=
  match r with
  | Val a => k a
  | Err e => Err e
  end.

Definition restore_position (cli_x cli_y : option Z) (state : pydict)
  : Py unit :=
  match cli_x, cli_y with
  | Some x, Some y => move x y
  | _, _ =>
      let coords :=
        res_bind (res_bind (dict_item state "x") py_int) (fun x =>
        res_bind (res_bind (dict_item state "y") py_int) (fun y =>
        Val (x, y))) in
      match coords with
      | Val (x, y) =>
          move x y;;
          on_screen <- _is_on_any_screen;;
          when (negb on_screen) center_on_screen
      | Err TypeError | Err ValueError | Err KeyError => center_on_screen
      | Err e => eval (Err e)
      end
  end.

(** ** Stopwatch *)

Definition _current_stopwatch_ms : Py Z :=
  running <- get stopwatch_running;;
  elapsed <- get stopwatch_elapsed_ms;;
  if negb running then ret elapsed
  else
    now <- ask perf_counter;;
    start <- get stopwatch_start_time;;
    let running_ms := trunc_Q (fmul (fsub now start) 1000) in
    ret (elapsed + Z.max 0 running_ms).

Definition toggle_stopwatch_running : Py unit :=
  m <- get mode;;
  if negb (String.eqb m MODE_STOPWATCH) then ret tt
  else
    running <- get stopwatch_running;;
    (if running then
       ms <- _current_stopwatch_ms;;
       modify (upd_stopwatch_elapsed_ms ms);;
       modify (upd_stopwatch_running false)
     else
       now <- ask perf_counter;;
       modify (upd_stopwatch_start_time now);;
       modify (upd_stopwatch_running true));;
    _update_refresh_timer.

Definition reset_stopwatch : Py unit :=
  modify (upd_stopwatch_elapsed_ms 0);;
  running <- get stopwatch_running;;
  when running (now <- ask perf_counter;; modify (upd_stopwatch_start_time now)).

(** ** Mutators *)

Definition set_mode (mode_arg : pyval) (persist : bool) : Py unit :=
  let normalized_mode := _valid_mode mode_arg in
  current <- get mode;;
  if String.eqb normalized_mode current then ret tt
  else
    running <- get stopwatch_running;;
    when (negb (String.eqb normalized_mode MODE_STOPWATCH) && running)
      (ms <- _current_stopwatch_ms;;
       modify (upd_stopwatch_elapsed_ms ms);;
       modify (upd_stopwatch_running false));;
    modify (upd_mode normalized_mode);;
    _apply_window_size;;
    _update_refresh_timer;;
    when persist save_state.

Definition set_layer (layer_arg : pyval) (persist force : bool) : Py unit :=
  let normalized_layer := _valid_layer layer_arg in
  current <- get layer;;
  if String.eqb normalized_layer current && negb force then ret tt
  else
    old_pos <- get pos;;
    old_width <- get width;;
    old_height <- get height;;
    was_visible <- get visible;;
    modify (upd_layer normalized_layer);;
    when was_visible (modify (upd_visible false));;
    _set_window_flags normalized_layer;;
    (* setGeometry(old_geometry) *)
    modify (upd_pos old_pos);;
    modify (upd_width old_width);;
    modify (upd_height old_height);;
    when was_visible (modify (upd_visible true));;
    when persist save_state.

Definition set_clock_size (size : pyval) (persist : bool) : Py unit :=
  normalized_size <- eval (_valid_size size);;
  current <- get clock_size;;
  if normalized_size =? current then ret tt
  else
    old_center <- get (fun w => rect_center (frameGeometry w));;
    modify (upd_clock_size normalized_size);;
    modify (upd_readout_height (Z.max 52 (normalized_size / 4)));;
    _apply_window_size;;
    w <- get width;;
    h <- get height;;
    move (px old_center - w / 2) (py old_center - h / 2);;
    on_screen <- _is_on_any_screen;;
    when (negb on_screen) center_on_screen;;
    when persist save_state.

Definition set_color_theme (theme_name : pyval) (persist : bool) : Py unit :=
  normalized_theme <- eval (_valid_theme theme_name);;
  current <- get color_theme;;
  if String.eqb normalized_theme current then ret tt
  else
    modify (upd_color_theme normalized_theme);;
    when persist save_state.

Definition set_readout_font (font_family : pyval) (persist : bool)
  : Py unit :=
  let normalized := _normalize_readout_font font_family in
  current <- get readout_font_family;;
  if String.eqb normalized current then ret tt
  else
    modify (upd_readout_font_family normalized);;
    when persist save_state.

(** ** Pointer events *)

Record MouseEvent : Type := mkMouse {
  button_is_left : bool;   (* event.button() == Qt.LeftButton *)
  buttons_has_left : bool; (* event.buttons() & Qt.LeftButton *)
  globalPos : QPoint
}.

Definition mousePressEvent (event : MouseEvent) : Py unit :=
  if negb (button_is_left event) then ret tt
  else
    top_left <- get pos;;
    modify (upd_drag_offset (Some (point_sub (globalPos event) top_left)));;
    modify (upd_press_global_pos (Some (globalPos event)));;
    modify (upd_drag_started false);;
    m <- get mode;;
    if String.eqb m MODE_CLOCK then
      window_handle <- ask windowHandle;;
      match window_handle with
      | Some h =>
          match startSystemMove h with
          | Some true =>
              modify (upd_drag_started true);;
              modify (upd_drag_offset None)
          | _ => ret tt
          end
      | None => ret tt
      end
    else ret tt.

Definition mouseMoveEvent (event : MouseEvent) : Py unit :=
  offset <- get drag_offset;;
  match offset with
  | None => ret tt
  | Some off =>
      if negb (buttons_has_left event) then ret tt
      else
        started <- get drag_started;;
        press <- get press_global_pos;;
        threshold <- get click_threshold_px;;
        match press with
        | Some p =>
            when (negb started)
              (let drag_distance :=
                 manhattanLength (point_sub (globalPos event) p) in
               when (threshold <? drag_distance)
                 (modify (upd_drag_started true)))
        | None => ret tt
        end;;
        started <- get drag_started;;
        when started
          (let target := point_sub (globalPos event) off in
           move (px target) (py target))
  end.

(** [was_click] as [mouseReleaseEvent] computes it. *)
Definition was_click (event : MouseEvent) (w : Widget) : bool :=
  match press_global_pos w with
  | Some p =>
      let distance := manhattanLength (point_sub (globalPos event) p) in
      (distance <=? click_threshold_px w) && negb (drag_started w)
  | None => false
  end.

Definition mouseReleaseEvent (event : MouseEvent) : Py unit :=
  if negb (button_is_left event) then ret tt
  else
    click <- get (was_click event);;
    m <- get mode;;
    when (String.eqb m MODE_STOPWATCH && click) toggle_stopwatch_running;;
    started <- get drag_started;;
    when started save_state;;
    modify (upd_drag_offset None);;
    modify (upd_press_global_pos None);;
    modify (upd_drag_started false).

(** ** Construction, the state file and start-up *)

(** A fresh [QWidget]: at the origin, hidden, with Qt's default size. *)
Definition QWidget_new : Widget :=
  mkWidget 0 0 "" "" "" "" false 0 0%Q None None false 0
    (mkPoint 0 0) 640 480 false false false 0 [].

(** [FloatingAnalogClock.__init__]; [face_alpha], [show_seconds] and the
    list of font choices only feed the painter and the menu and are left
    out. *)
Definition __init__ (size layer_arg mode_arg color_theme_arg readout_font
                     : pyval) : Py unit :=
  cs <- eval (_valid_size size);;
  modify (upd_clock_size cs);;
  modify (upd_readout_height (Z.max 52 (cs / 4)));;
  modify (upd_layer (_valid_layer layer_arg));;
  modify (upd_mode (_valid_mode mode_arg));;
  theme <- eval (_valid_theme color_theme_arg);;
  modify (upd_color_theme theme);;
  modify (upd_readout_font_family (_normalize_readout_font readout_font));;
  modify (upd_stopwatch_running false);;
  modify (upd_stopwatch_elapsed_ms 0);;
  modify (upd_stopwatch_start_time 0%Q);;
  modify (upd_drag_offset None);;
  modify (upd_press_global_pos None);;
  modify (upd_drag_started false);;
  modify (upd_click_threshold_px 6);;
  l <- get layer;;
  _set_window_flags l;;
  _apply_window_size;;
  _update_refresh_timer.

Definition FloatingAnalogClock (size layer_arg mode_arg color_theme_arg
                                readout_font : pyval) (e : Env)
  : outcome unit :=
  __init__ size layer_arg mode_arg color_theme_arg readout_font e QWidget_new.

(** What reading and parsing the state file gives: [read_text] failing
    ([OSError]), [json.loads] (or the decoding) failing ([ValueError]), or
    a JSON value.  Failures of the interpreter itself while parsing (such
    as exhausting the recursion limit) are not modelled. *)
Inductive read_outcome : Type :=
| ReadOSError
| ReadValueError
| ReadJSON (payload : pyval).

Definition load_saved_state (file : read_outcome) : pydict :=
  match file with
  | ReadJSON (PyDict d) => d
  | ReadJSON _ => []
  | ReadOSError | ReadValueError => []
  end.

(** The command-line values [main] reads. *)
Record Args : Type := mkArgs {
  a_size : option Z;
  a_mode : option string;
  a_layer : option string;
  a_theme : option string;
  a_readout_font : option string;
  a_x : option Z;
  a_y : option Z
}.

(** [arg if arg else fallback]. *)
Definition arg_or (arg : option string) (fallback : pyval) : pyval :=
  match arg with
  | Some s => if truthy arg then PyStr s else fallback
  | None => fallback
  end.

(** [main] up to the event loop, with no install flag given: load the
    state, normalise every setting, build the widget, place and show it. *)
Definition main (args : Args) (file : read_outcome) : Py unit :=
  let saved_state := load_saved_state file in
  launch_size <-
    eval (_valid_size (match a_size args with
                       | Some n => PyInt n
                       | None => dict_get saved_state "size"
                       end));;
  let launch_mode :=
    _valid_mode (arg_or (a_mode args) (dict_get saved_state "mode")) in
  let launch_layer :=
    _valid_layer (arg_or (a_layer args) (dict_get saved_state "layer")) in
  launch_theme <-
    eval (_valid_theme (arg_or (a_theme args) (dict_get saved_state "theme")));;
  let launch_font :=
    _normalize_readout_font
      (arg_or (a_readout_font args) (dict_get saved_state "readout_font")) in
  __init__ (PyInt launch_size) (PyStr launch_layer) (PyStr launch_mode)
    (PyStr launch_theme) (PyStr launch_font);;
  restore_position (a_x args) (a_y args) saved_state;;
  modify (upd_visible true);;
  set_layer (PyStr launch_layer) false true.

(** Running [main] in a new process: the widget is built from scratch. *)
Definition start (args : Args) (file : read_outcome) (e : Env)
  : outcome unit :=
  main args file e QWidget_new.

(** ** Events of a session

    The calls the running widget receives from the menu and the pointer,
    each in the environment of its moment. *)

Inductive Event : Type :=
| CallSetMode (v : pyval) (persist : bool)
| CallSetLayer (v : pyval) (persist force : bool)
| CallSetClockSize (v : pyval) (persist : bool)
| CallSetColorTheme (v : pyval) (persist : bool)
| CallSetReadoutFont (v : pyval) (persist : bool)
| CallToggle
| CallReset
| CallCenter
| Press (m : MouseEvent)
| Move (m : MouseEvent)
| Release (m : MouseEvent).

Definition dispatch (ev : Event) : Py unit :=
  match ev with
  | CallSetMode v p => set_mode v p
  | CallSetLayer v p f => set_layer v p f
  | CallSetClockSize v p => set_clock_size v p
  | CallSetColorTheme v p => set_color_theme v p
  | CallSetReadoutFont v p => set_readout_font v p
  | CallToggle => toggle_stopwatch_running
  | CallReset => reset_stopwatch
  | CallCenter => center_on_screen
  | Press m => mousePressEvent m
  | Move m => mouseMoveEvent m
  | Release m => mouseReleaseEvent m
  end.

(** Running a sequence of events, each with its environment. *)
Fixpoint run (trace : list (Env * Event)) (w : Widget) : Widget :=
  match trace with
  | [] => w
  | (e, ev) :: rest => run rest (final (dispatch ev e w))
  end.

(** The clock never goes back along a trace that starts at time [t]. *)
Fixpoint monotonic (t : Q) (trace : list (Env * Event)) : Prop :=
  match trace with
  | [] => True
  | (e, _) :: rest => (t <= perf_counter e)%Q /\ monotonic (perf_counter e) rest
  end.

(** ** Elapsed-time formatting *)

Fixpoint zeros (n : nat) : string :=
  match n with
  | O => ""
  | S k => String "0" (zeros k)
  end.

(** [str(n)] for [n >= 0]. *)
Definition decimal (n : Z) : string :=
  NilZero.string_of_uint (N.to_uint (Z.to_N n)).

(** [format(n, "0<width>")]: sign first, then zeros up to [width]. *)
Definition format_zero_padded (width : nat) (n : Z) : string :=
  let digits := decimal (Z.abs n) in
  let sign := if n <? 0 then "-" else "" in
  (sign ++ zeros (width - String.length sign - String.length digits)
        ++ digits)%string.

Definition _format_stopwatch_elapsed (elapsed_ms : Z) : string :=
  let hours := elapsed_ms / 3600000 in
  let minutes := (elapsed_ms / 60000) mod 60 in
  let seconds := (elapsed_ms / 1000) mod 60 in
  let millis := elapsed_ms mod 1000 in
  if 0 <? hours then
    (format_zero_padded 2 hours ++ ":" ++ format_zero_padded 2 minutes ++ ":"
       ++ format_zero_padded 2 seconds ++ "." ++ format_zero_padded 3 millis)%string
  else
    (format_zero_padded 2 minutes ++ ":" ++ format_zero_padded 2 seconds
       ++ "." ++ format_zero_padded 3 millis)%string.

(** ** States the widget can be in

    What holds of every widget built by the constructor and driven by
    events while the clock does not go back. *)

Definition size_in_range (w : Widget) : Prop :=
  MIN_CLOCK_SIZE <= clock_size w <= MAX_CLOCK_SIZE.

(** At time [t]: the accumulator is not negative, and a running stopwatch
    is in Stopwatch mode and was started no later than [t]. *)
Definition stopwatch_sound (t : Q) (w : Widget) : Prop :=
  0 <= stopwatch_elapsed_ms w
  /\ (stopwatch_running w = true ->
      mode w = MODE_STOPWATCH /\ (stopwatch_start_time w <= t)%Q).

Definition consistent (t : Q) (w : Widget) : Prop :=
  size_in_range w /\ stopwatch_sound t w /\ click_threshold_px w = 6.

(** The clock reading at the end of a trace that starts at [t]. *)
Fixpoint end_time (t : Q) (trace : list (Env * Event)) : Q :=
  match trace with
  | [] => t
  | (e, _) :: rest => end_time (perf_counter e) rest
  end.

(** The one kind of value [int] rejects with [OverflowError]. *)
Definition is_infinite (v : pyval) : bool :=
  match v with
  | PyFloat (FInf _) => true
  | _ => false
  end.

(** The characters an integer literal can be made of. *)
Definition int_char (c : N) : bool :=
  match digit_value c with
  | Some _ => true
  | None =>
      int_blank c || N.eqb c UNDERSCORE || N.eqb c PLUS || N.eqb c MINUS
  end.

(** The code points of a string. *)
Definition text_of (s : string) : list N :=
  code_points 0 0 (list_ascii_of_string s).

(** How many decimal digits a text holds. *)
Definition count_digits (l : list N) : Z :=
  Z.of_nat (List.length (filter (fun c => match digit_value c with
                                          | Some _ => true
                                          | None => false
                                          end) l)).

(** Equality of two byte sequences. *)
Definition list_ascii_eqb (a b : list ascii) : bool :=
  starts_with a b && starts_with b a.

(** A text made of whitespace characters only. *)
Definition blank_text (l : list ascii) : Prop :=
  exists cs : list N,
    Forall (fun c => In c WHITESPACE) cs /\ l = flat_map utf8 cs.

(** Reading back a field of the readout: the number a non-empty string of
    decimal digits denotes ([None] when it is not one). *)
Definition read_decimal (s : string) : option Z :=
  option_map Z.of_uint (NilZero.uint_of_string s).

(** ** Pointer gestures *)

(** The window handle offers [startSystemMove] and the call succeeds. *)
Definition native_move_accepted (e : Env) : bool :=
  match windowHandle e with
  | Some h =>
      match startSystemMove h with
      | Some true => true
      | _ => false
      end
  | None => false
  end.

(** A press followed by pointer moves, each in its environment. *)
Definition gesture (e : Env) (press : MouseEvent)
    (moves : list (Env * MouseEvent)) : list (Env * Event) :=
  (e, Press press) :: map (fun em => (fst em, Move (snd em))) moves.

(** The distance of an event from the point of the press. *)
Definition displacement (press event : MouseEvent) : Z :=
  manhattanLength (point_sub (globalPos event) (globalPos press)).

(** A pointer move with the left button held, more than [limit] pixels
    from the press: the moves on which [mouseMoveEvent] starts a drag. *)
Definition held_beyond (limit : Z) (press event : MouseEvent) : bool :=
  buttons_has_left event && (limit <? displacement press event).

(** The parts of the widget a pointer move has no business with. *)
Definition same_stopwatch (w w' : Widget) : Prop :=
  mode w' = mode w
  /\ stopwatch_running w' = stopwatch_running w
  /\ stopwatch_elapsed_ms w' = stopwatch_elapsed_ms w
  /\ stopwatch_start_time w' = stopwatch_start_time w
  /\ click_threshold_px w' = click_threshold_px w.

(** ** Persistence writes *)


(** ** Sample sessions *)

Definition one_screen : QRect := rect_xywh 0 0 1920 1080.

(** One display, the cursor in its middle, no native window yet. *)
Definition desk (t : Q) : Env :=
  mkEnv t [one_screen] (mkPoint 960 540) None.


Definition no_args : Args := mkArgs None None None None None None None.

(** Started with [--x 5000 --y 5000]. *)
Definition far_args : Args :=
  mkArgs None None None None None (Some 5000) (Some 5000).

(** The widget right after a first start (no state file). *)
Definition fresh_clock : Widget := final (start no_args ReadOSError (desk 0)).

(** The same, started in Stopwatch mode. *)
Definition fresh_stopwatch : Widget :=
  final (start (mkArgs None (Some MODE_STOPWATCH) None None None None None)
               ReadOSError (desk 0)).

(** Started at a position no display covers. *)
Definition far_clock : Widget := final (start far_args ReadOSError (desk 0)).

(** ** Placement *)


(** The top-left corner that centres a [w] by [h] window on a screen. *)
Definition centred_on (g : QRect) (w h : Z) : QPoint :=
  mkPoint (rect_left g + (rect_width g - w) / 2)
          (rect_top g + (rect_height g - h) / 2).


(** ** Damaged state files *)

(** A state file whose theme is a list. *)
Definition theme_list_file : read_outcome :=
  ReadJSON (PyDict [("x", PyInt 40); ("y", PyInt 60); ("size", PyInt 300);
                    ("mode", PyStr "stopwatch"); ("layer", PyStr "normal");
                    ("theme", PyList []); ("readout_font", PyStr "Fira Code")]).

(** A state file whose size is [1e999], which [json.loads] reads as
    infinity. *)
Definition size_inf_file : read_outcome :=
  ReadJSON (PyDict [("x", PyInt 40); ("y", PyInt 60);
                    ("size", PyFloat (FInf false));
                    ("mode", PyStr "stopwatch"); ("layer", PyStr "normal");
                    ("theme", PyStr "ocean");
                    ("readout_font", PyStr "Fira Code")]).

(** The same file with a mode that is no mode at all. *)
Definition mode_number_file : read_outcome :=
  ReadJSON (PyDict [("x", PyInt 40); ("y", PyInt 60); ("size", PyInt 300);
                    ("mode", PyInt 7); ("layer", PyStr "normal");
                    ("theme", PyStr "ocean");
                    ("readout_font", PyStr "Fira Code")]).

(** The position part of a state file can be read: [int] does not
    overflow on it. *)
Definition position_readable (d : pydict) : Prop :=
  res_bind (res_bind (dict_item d "x") py_int) (fun x =>
  res_bind (res_bind (dict_item d "y") py_int) (fun y => Val (x, y)))
  <> Err OverflowError.

(** A state file whose [x] is infinite. *)
Definition x_inf_file : read_outcome :=
  ReadJSON (PyDict [("x", PyFloat (FInf false)); ("y", PyInt 60);
                    ("size", PyInt 300)]).

(** The stopwatch started one second into the session. *)
Definition running_stopwatch : Widget :=
  final (toggle_stopwatch_running (desk 1) fresh_stopwatch).

(** A short gesture around the point (900, 500). *)
Definition press_at : MouseEvent := mkMouse true true (mkPoint 900 500).
Definition small_move : MouseEvent := mkMouse false true (mkPoint 902 501).
Definition release_near : MouseEvent := mkMouse true false (mkPoint 903 500).
Definition release_far : MouseEvent := mkMouse true false (mkPoint 950 500).

(** ** Settings and window state kept in step *)

(** A theme name that is a key of [THEME_PRESETS]. *)
Definition known_theme (t : string) : Prop :=
  existsb (fun kv => String.eqb (fst kv) t) THEME_PRESETS = true.

(** The five settings are values their normalisers return. *)
Definition settings_valid (w : Widget) : Prop :=
  size_in_range w
  /\ (mode w = MODE_CLOCK \/ mode w = MODE_STOPWATCH)
  /\ (layer w = LAYER_TOP \/ layer w = LAYER_NORMAL \/ layer w = LAYER_BOTTOM)
  /\ known_theme (color_theme w)
  /\ _normalize_readout_font (PyStr (readout_font_family w))
     = readout_font_family w.

(** The same of a record written to the state file. *)
Definition payload_valid (p : Payload) : Prop :=
  MIN_CLOCK_SIZE <= p_size p <= MAX_CLOCK_SIZE
  /\ (p_mode p = MODE_CLOCK \/ p_mode p = MODE_STOPWATCH)
  /\ (p_layer p = LAYER_TOP \/ p_layer p = LAYER_NORMAL
      \/ p_layer p = LAYER_BOTTOM)
  /\ known_theme (p_theme p)
  /\ _normalize_readout_font (PyStr (p_readout_font p)) = p_readout_font p.

(** The window is as large as the settings say: the face, plus the readout
    band in Stopwatch mode. *)
Definition footprint_ok (w : Widget) : Prop :=
  readout_height w = Z.max 52 (clock_size w / 4)
  /\ width w = clock_size w
  /\ height w
     = clock_size w
       + (if String.eqb (mode w) MODE_STOPWATCH then readout_height w else 0).

(** The stacking hints follow the layer. *)
Definition flags_ok (w : Widget) : Prop :=
  stays_on_top w = String.eqb (layer w) LAYER_TOP
  /\ stays_on_bottom w = String.eqb (layer w) LAYER_BOTTOM.

(** The refresh timer follows the mode and the stopwatch. *)
Definition timer_ok (w : Widget) : Prop :=
  timer_interval w
  = if String.eqb (mode w) MODE_STOPWATCH
    then (if stopwatch_running w then 10 else 33)
    else 1000.

(** The stopwatch and the pointer controller as the constructor leaves
    them. *)
Definition at_rest (w : Widget) : Prop :=
  stopwatch_running w = false /\ stopwatch_elapsed_ms w = 0
  /\ click_threshold_px w = 6
  /\ drag_offset w = None /\ press_global_pos w = None
  /\ drag_started w = false.

(** Everything the event loop keeps in step. *)
Definition settled (w : Widget) : Prop :=
  settings_valid w /\ footprint_ok w /\ flags_ok w /\ timer_ok w
  /\ Forall payload_valid (saved w).

(** A short session: to Stopwatch mode, a click to start, a resize, a
    layer change and a theme change. *)
Definition sample_session : list (Env * Event) :=
  [ (desk 1, CallSetMode (PyStr "stopwatch") true);
    (desk 2, Press press_at);
    (desk 3, Release release_near);
    (desk 4, CallSetClockSize (PyInt 300) true);
    (desk 5, CallSetLayer (PyStr "bottom") true false);
    (desk 6, CallSetColorTheme (PyStr "ocean") true) ].

(** ** The state file read back *)

(** What [json.loads] gives for the text [json.dumps] made of the record
    of [save_state]: the same keys with the same integers and strings. *)
Definition payload_json (p : Payload) : pydict :=
  [ ("x", PyInt (p_x p)); ("y", PyInt (p_y p)); ("size", PyInt (p_size p));
    ("mode", PyStr (p_mode p)); ("layer", PyStr (p_layer p));
    ("theme", PyStr (p_theme p));
    ("readout_font", PyStr (p_readout_font p)) ].

(** The record [save_state] writes for a widget. *)
Definition payload_of (w : Widget) : Payload :=
  mkPayload (px (pos w)) (py (pos w)) (clock_size w) (mode w) (layer w)
    (color_theme w) (readout_font_family w).

(** A pointer move far from the press point, the button held. *)
Definition far_move : MouseEvent := mkMouse false true (mkPoint 1000 560).

(** A window handle on the one screen whose native move succeeds. *)
Definition native_desk (t : Q) : Env :=
  mkEnv t [one_screen] (mkPoint 960 540)
    (Some (mkHandle (Some one_screen) (Some true))).

(** ** Resizing in place *)

(** The frame [set_clock_size] first gives the window: the new size around
    the old centre. *)
Definition resized_frame (n : Z) (w : Widget) : QRect :=
  let c := rect_center (frameGeometry w) in
  let h := n + (if String.eqb (mode w) MODE_STOPWATCH
                then Z.max 52 (n / 4) else 0) in
  rect_xywh (px c - n / 2) (py c - h / 2) n h.

(** The validity check of [_is_on_any_screen] on a frame. *)
Definition frame_on_screen (e : Env) (r : QRect) : bool :=
  existsb (fun g => rect_contains g (rect_center r)) (screens e).

(** [int(state[key])] in [restore_position]. *)
Definition saved_coordinate (state : pydict) (key : string) : res Z :=
  res_bind (dict_item state key) py_int.

(** Qt keeps a coordinate in a C [int].  [QWidget.move] called with a
    Python integer outside that range raises [OverflowError] in the
    binding; [move] above has no such case, so what is said about a
    coordinate that comes from the command line or from the state file
    is said for coordinates in this range. *)
Definition C_INT_MIN : Z := -2147483648.
Definition C_INT_MAX : Z := 2147483647.
Definition fits_c_int (v : Z) : bool :=
  (C_INT_MIN <=? v) && (v <=? C_INT_MAX).

(** ** Opacity *)

(** [a < b] on floats; every comparison with a NaN is false. *)
Definition float_lt (a b : pyfloat) : bool :=
  match a, b with
  | FNaN, _ | _, FNaN => false
  | FFinite x, FFinite y => negb (Qle_bool y x)
  | FFinite _, FInf negative => negb negative
  | FInf negative, FFinite _ => negative
  | FInf na, FInf nb => na && negb nb
  end.

(** [min(a, b)] keeps [a] unless [b < a]; [max(a, b)] keeps [a] unless
    [b > a]. *)
Definition py_min (a b : pyfloat) : pyfloat := if float_lt b a then b else a.
Definition py_max (a b : pyfloat) : pyfloat := if float_lt a b then b else a.

Definition _clamp_opacity (value : pyfloat) : pyfloat :=
  py_max (FFinite (5 # 100)) (py_min value (FFinite (95 # 100))).

(** ** The size entries of the context menu *)

(** "Smaller" and "Larger": the call each makes and when it is enabled. *)
Definition size_down_action (persist : bool) : Py unit :=
  size <- get clock_size;; set_clock_size (PyInt (size - 20)) persist.
Definition size_up_action (persist : bool) : Py unit :=
  size <- get clock_size;; set_clock_size (PyInt (size + 20)) persist.
Definition size_down_enabled (w : Widget) : bool :=
  MIN_CLOCK_SIZE <? clock_size w.
Definition size_up_enabled (w : Widget) : bool :=
  clock_size w <? MAX_CLOCK_SIZE.

(** The preset sizes and the test that shows one as checked. *)
Definition size_presets : list Z := [160; 220; 300; 380].
Definition preset_checked (w : Widget) (size_value : Z) : bool :=
  Z.abs (clock_size w - size_value) <=? 8.

(** ** Desktop entries *)

(** The four characters a quoted argument escapes. *)
Definition QUOTE : ascii := "034"%char.
Definition BACKSLASH : ascii := "\"%char.
Definition DOLLAR : ascii := "$"%char.
Definition BACKTICK : ascii := "`"%char.

(** [s.replace(old, new)] for a one-character [old]. *)
Fixpoint replace_char (old : ascii) (new : string) (s : string) : string :=
  match s with
  | EmptyString => EmptyString
  | String c rest =>
      if Ascii.eqb c old
      then (new ++ replace_char old new rest)%string
      else String c (replace_char old new rest)
  end.

Definition is_special (c : ascii) : bool :=
  Ascii.eqb c QUOTE || Ascii.eqb c BACKSLASH || Ascii.eqb c DOLLAR
  || Ascii.eqb c BACKTICK.

Definition needs_quotes (value : string) : bool :=
  has_space (list_ascii_of_string value)
  || existsb is_special (list_ascii_of_string value).

(** The local [escaped] of [_desktop_escape]: four replacement passes. *)
Definition escaped (value : string) : string :=
  replace_char BACKTICK (String BACKSLASH (String BACKTICK ""))
    (replace_char DOLLAR (String BACKSLASH (String DOLLAR ""))
       (replace_char QUOTE (String BACKSLASH (String QUOTE ""))
          (replace_char BACKSLASH (String BACKSLASH (String BACKSLASH ""))
             value))).

Definition _desktop_escape (value : string) : string :=
  if needs_quotes value
  then String QUOTE (escaped value ++ String QUOTE "")
  else escaped value.

(** Reading the inside of a quoted argument: a backslash stands for the
    character after it. *)
Fixpoint drop_escapes (s : string) : string :=
  match s with
  | EmptyString => EmptyString
  | String c rest =>
      if Ascii.eqb c BACKSLASH
      then match rest with
           | EmptyString => String c EmptyString
           | String d rest' => String d (drop_escapes rest')
           end
      else String c (drop_escapes rest)
  end.

(** ** The KWin rule list *)

Definition APP_ID : string := "dt-clock".
Definition APP_NAME : string := "DT Clock".
Definition APP_COMMENT : string := "Floating translucent analog desktop clock".
Definition KWIN_RULE_GROUP : string := "DTClockKeepAbove".

(** [s.split(sep)] for a one-character separator. *)
Fixpoint split_on (sep : ascii) (s : string) : list string :=
  match s with
  | EmptyString => [EmptyString]
  | String c rest =>
      if Ascii.eqb c sep then EmptyString :: split_on sep rest
      else match split_on sep rest with
           | first :: others => String c first :: others
           | [] => [String c EmptyString]
           end
  end.

(** [sep.join(items)]. *)
Fixpoint join (sep : string) (items : list string) : string :=
  match items with
  | [] => EmptyString
  | item :: rest =>
      match rest with
      | [] => item
      | _ :: _ => (item ++ sep ++ join sep rest)%string
      end
  end.

(** A call of [kwriteconfig] on the rules file: [_kwrite_value] or
    [_kwrite_delete]. *)
Inductive KCall : Type :=
| WriteValue (group key value : string) (value_type : option string)
| DeleteKey (group key : string).

(** What the session answers to the KWin helpers: whether
    [_resolve_kwin_tools] finds the tools, the exit status of each
    [kwriteconfig] call, what [_kread_value] returns for the [rules] key of
    group [General], whether [reload_kwin_rules] succeeds, and the path of
    the rules file. *)
Record KTools : Type := {
  tools_found : bool;
  call_ok : KCall -> bool;
  rules_read : string;
  reload_ok : bool;
  KWIN_RULES_FILE : string
}.

Definition in_list (s : string) (l : list string) : bool :=
  existsb (String.eqb s) l.

Definition nonempty (s : string) : bool := negb (String.eqb s "").

(** The comprehension of [_get_kwin_rule_groups] over the value read. *)
Definition rule_groups_of (raw : string) : list string :=
  flat_map (fun item => if nonempty (py_strip item) then [py_strip item]
                        else [])
           (split_on "," raw).

Definition _get_kwin_rule_groups (k : KTools) : list string :=
  rule_groups_of (rules_read k).

(** The loop of [_set_kwin_rule_groups]; [deduped] is the list built so
    far. *)
Fixpoint dedupe (deduped groups : list string) : list string :=
  match groups with
  | [] => deduped
  | group :: rest =>
      if nonempty group && negb (in_list group deduped)
      then dedupe (deduped ++ [group])%list rest
      else dedupe deduped rest
  end.

(** The two values [_set_kwin_rule_groups] writes. *)
Definition rules_value (groups : list string) : string :=
  join "," (dedupe [] groups).
Definition count_value (groups : list string) : string :=
  decimal (Z.of_nat (List.length (dedupe [] groups))).

(** The result and the calls made, in order. *)
Definition _set_kwin_rule_groups (k : KTools) (groups : list string)
  : bool * list KCall :=
  let list_call := WriteValue "General" "rules" (rules_value groups) None in
  let count_call := WriteValue "General" "count" (count_value groups) None in
  (call_ok k list_call && call_ok k count_call, [list_call; count_call]).

Definition is_kwin_rule_enabled (k : KTools) : bool :=
  if tools_found k then in_list KWIN_RULE_GROUP (_get_kwin_rule_groups k)
  else false.

Definition rule_writes : list KCall :=
  [ WriteValue KWIN_RULE_GROUP "Description" "DT Clock Keep Above" None;
    WriteValue KWIN_RULE_GROUP "above" "true" (Some "bool");
    WriteValue KWIN_RULE_GROUP "aboverule" "2" None;
    WriteValue KWIN_RULE_GROUP "layer" "above" None;
    WriteValue KWIN_RULE_GROUP "layerrule" "2" None;
    WriteValue KWIN_RULE_GROUP "title" APP_NAME None;
    WriteValue KWIN_RULE_GROUP "titlematch" "1" None;
    WriteValue KWIN_RULE_GROUP "wmclass" APP_ID None;
    WriteValue KWIN_RULE_GROUP "wmclasscomplete" "false" (Some "bool");
    WriteValue KWIN_RULE_GROUP "wmclassmatch" "1" None ].

(** The list [install_kwin_keep_above_rule] hands to
    [_set_kwin_rule_groups]. *)
Definition groups_to_install (k : KTools) : list string :=
  let groups := _get_kwin_rule_groups k in
  if negb (in_list KWIN_RULE_GROUP groups)
  then (groups ++ [KWIN_RULE_GROUP])%list
  else groups.

Definition install_kwin_keep_above_rule (k : KTools)
  : (bool * string) * list KCall :=
  if negb (tools_found k) then
    ((false, "KWin helper tools (kreadconfig/kwriteconfig) were not found."),
     [])
  else
    let write_ops := map (call_ok k) rule_writes in
    if negb (forallb (fun ok => ok) write_ops) then
      ((false,
        "Failed writing KWin rule in " ++ KWIN_RULES_FILE k ++ "."),
       rule_writes)
    else
      let (ok, calls) := _set_kwin_rule_groups k (groups_to_install k) in
      if negb ok then
        ((false,
          "Failed updating KWin rule list in " ++ KWIN_RULES_FILE k ++ "."),
         (rule_writes ++ calls)%list)
      else if reload_ok k then
        ((true, "Installed KWin keep-above rule and reloaded KWin rules."),
         (rule_writes ++ calls)%list)
      else
        ((true,
          "Installed KWin keep-above rule. Log out/in if it does not apply immediately."),
         (rule_writes ++ calls)%list).

Definition groups_to_keep (k : KTools) : list string :=
  filter (fun group => negb (String.eqb group KWIN_RULE_GROUP))
         (_get_kwin_rule_groups k).

Definition delete_keys : list string :=
  [ "Description"; "above"; "aboverule"; "layer"; "layerrule"; "title";
    "titlematch"; "wmclass"; "wmclasscomplete"; "wmclassmatch" ].

Definition remove_kwin_keep_above_rule (k : KTools)
  : (bool * string) * list KCall :=
  if negb (tools_found k) then
    ((false, "KWin helper tools (kreadconfig/kwriteconfig) were not found."),
     [])
  else
    let (ok, calls) := _set_kwin_rule_groups k (groups_to_keep k) in
    if negb ok then
      ((false,
        "Failed updating KWin rule list in " ++ KWIN_RULES_FILE k ++ "."),
       calls)
    else
      let deletes := map (DeleteKey KWIN_RULE_GROUP) delete_keys in
      if reload_ok k then
        ((true, "Removed KWin keep-above rule and reloaded KWin rules."),
         (calls ++ deletes)%list)
      else
        ((true,
          "Removed KWin keep-above rule. Log out/in if it does not apply immediately."),
         (calls ++ deletes)%list).

(** The session after a call of [_set_kwin_rule_groups] that succeeded: the
    [rules] key reads as it was written. *)
Definition rules_written (k : KTools) (groups : list string) : KTools :=
  {| tools_found := tools_found k;
     call_ok := call_ok k;
     rules_read := rules_value groups;
     reload_ok := reload_ok k;
     KWIN_RULES_FILE := KWIN_RULES_FILE k |}.

(** A group name that survives the rule list: not empty, no surrounding
    whitespace, no comma. *)
Definition clean_group (group : string) : Prop :=
  nonempty group = true
  /\ py_strip group = group
  /\ ~ In ","%char (list_ascii_of_string group).

Definition kde_session (raw : string) : KTools :=
  {| tools_found := true;
     call_ok := fun _ => true;
     rules_read := raw;
     reload_ok := true;
     KWIN_RULES_FILE := "/home/user/.config/kwinrulesrc" |}.

Definition call_group (c : KCall) : string :=
  match c with
  | WriteValue group _ _ _ => group
  | DeleteKey group _ => group
  end.

Definition call_key (c : KCall) : string :=
  match c with
  | WriteValue _ key _ _ => key
  | DeleteKey _ key => key
  end.

Definition is_delete (c : KCall) : bool :=
  match c with
  | WriteValue _ _ _ _ => false
  | DeleteKey _ _ => true
  end.

(** A session in which the first write of the rule fails. *)
Definition read_only_session (raw : string) : KTools :=
  {| tools_found := true;
     call_ok := fun _ => false;
     rules_read := raw;
     reload_ok := true;
     KWIN_RULES_FILE := "/home/user/.config/kwinrulesrc" |}.

(** ** Readout fonts *)

Definition PREFERRED_READOUT_FONTS : list string :=
  [ "JetBrains Mono"; "Fira Code"; "Noto Sans Mono";
    "MesloLGS Nerd Font Mono"; "MesloLGSDZ Nerd Font Mono";
    "DejaVu Sans Mono"; "Adwaita Mono" ].

Fixpoint insert_sorted (x : string) (l : list string) : list string :=
  match l with
  | [] => [x]
  | y :: rest => if String.leb x y then x :: l else y :: insert_sorted x rest
  end.

(** [sorted(set(names))]. *)
Definition sorted_set (names : list string) : list string :=
  fold_right insert_sorted [] (nodup string_dec names).

(** The loop over the preferred fonts; [choices] is the list built so
    far. *)
Fixpoint add_preferred (families choices preferred_fonts : list string)
  : list string :=
  match preferred_fonts with
  | [] => choices
  | preferred :: rest =>
      if in_list preferred families && negb (in_list preferred choices)
      then add_preferred families (choices ++ [preferred])%list rest
      else add_preferred families choices rest
  end.

(** [gui_ready]: PyQt was imported and the application object exists;
    [db_families] and [isFixedPitch] are the answers of the font database;
    [max_dynamic_fonts] is not negative (the one call leaves it at 28). *)
Definition get_readout_font_choices (gui_ready : bool)
    (db_families : list string) (isFixedPitch : string -> bool)
    (max_dynamic_fonts : nat) : list string :=
  if negb gui_ready then [DEFAULT_READOUT_FONT]
  else
    let families := sorted_set db_families in
    let choices := add_preferred families [] PREFERRED_READOUT_FONTS in
    let dynamic_fixed :=
      filter (fun family => isFixedPitch family
                            && negb (in_list family choices))
             families in
    let choices := (choices ++ firstn max_dynamic_fonts dynamic_fixed)%list in
    if negb (in_list DEFAULT_READOUT_FONT choices)
    then (choices ++ [DEFAULT_READOUT_FONT])%list
    else choices.

(** The entries of the font menu of [contextMenuEvent], given the stored
    [available_readout_fonts]. *)
Definition font_choices (available_readout_fonts : list string) (w : Widget)
  : list string :=
  if negb (in_list (readout_font_family w) available_readout_fonts)
  then readout_font_family w :: available_readout_fonts
  else available_readout_fonts.

Definition font_checked (w : Widget) (family : string) : bool :=
  String.eqb (readout_font_family w) family.

(** ** The launch command *)

(** [f"{x:.2f}"]: the exact value rounded to hundredths; a negative zero is
    not modelled. *)
Definition format_2f (x : pyfloat) : string :=
  match x with
  | FNaN => "nan"
  | FInf negative => if negative then "-inf" else "inf"
  | FFinite q =>
      let hundredths := round_half_even (Qabs q * (100 # 1)) in
      ((if Qle_bool 0 q then "" else "-")
         ++ decimal (hundredths / 100) ++ "."
         ++ format_zero_padded 2 (hundredths mod 100))%string
  end.

(** [str(n)] for an integer. *)
Definition py_str (n : Z) : string :=
  if n <? 0 then ("-" ++ decimal (- n))%string else decimal n.

Definition layer_flag (normalized_layer : string) : string :=
  if String.eqb normalized_layer LAYER_BOTTOM then "--on-bottom"
  else if String.eqb normalized_layer LAYER_NORMAL then "--normal-layer"
  else "--on-top".

(** [executable] is the resolved [sys.executable] when that is set,
    [script] the resolved path of the program. *)
Definition build_launch_command (executable : option string)
    (script : string) (size : pyval) (opacity : pyfloat)
    (hide_seconds : bool) (layer mode theme readout_font : pyval)
  : res (list string) :=
  let python_path :=
    match executable with
    | Some path => path
    | None => "/usr/bin/python3"
    end in
  let normalized_layer := _valid_layer layer in
  match _valid_size size with
  | Err e => Err e
  | Val valid_size =>
      match _valid_theme theme with
      | Err e => Err e
      | Val valid_theme =>
          let command :=
            [ python_path; script;
              "--size"; py_str valid_size;
              "--opacity"; format_2f (_clamp_opacity opacity);
              "--mode"; _valid_mode mode;
              "--theme"; valid_theme;
              "--readout-font"; _normalize_readout_font readout_font;
              layer_flag normalized_layer ] in
          Val (if hide_seconds then (command ++ ["--hide-seconds"])%list
               else command)
      end
  end.

(** ** The desktop entry *)

Definition NEWLINE : ascii := "010"%char.

Definition exec_line (launch_command : list string) : string :=
  join " " (map _desktop_escape launch_command).

Definition entry_lines (launch_command : list string) (autostart : bool)
  : list string :=
  let lines :=
    [ "[Desktop Entry]";
      "Type=Application";
      "Version=1.0";
      "Name=" ++ APP_NAME;
      "Comment=" ++ APP_COMMENT;
      "Exec=" ++ exec_line launch_command;
      "Terminal=false";
      "Icon=clock";
      "Categories=Utility;";
      "StartupNotify=false" ] in
  if autostart
  then (lines ++ [ "Hidden=false"; "NoDisplay=false";
                   "X-GNOME-Autostart-enabled=true" ])%list
  else lines.

Definition build_desktop_entry (launch_command : list string)
    (autostart : bool) : string :=
  join (String NEWLINE "") (entry_lines launch_command autostart)
    ++ String NEWLINE "".

(** No character [c] in any of the strings. *)
Definition free_of (c : ascii) (parts : list string) : Prop :=
  Forall (fun part => ~ In c (list_ascii_of_string part)) parts.

(** ** Sample texts *)

(** The no-break space U+00A0, whitespace for [str.isspace],
    [str.strip] and [int]. *)
Definition no_break_space : string := string_of_list_ascii (utf8 160).

(** The separator U+001C: whitespace for [str.isspace] and [str.strip],
    no blank for [int]. *)
Definition file_separator : string := String (ascii_of_nat 28) "".

(** 300 written in fullwidth digits (U+FF13, U+FF10, U+FF10). *)
Definition fullwidth_300 : string :=
  string_of_list_ascii (utf8 65299 ++ utf8 65296 ++ utf8 65296).

(** The digit 1 written [n] times. *)
Definition ones (n : nat) : string :=
  string_of_list_ascii (repeat "1"%char n).

(** * Properties *)

(** ** Sample evaluations *)

Example int_of_str_plain : int_of_str " 300 " = Some 300.
Proof. reflexivity. Qed.
Example int_of_str_underscore : int_of_str "1_000" = Some 1000.
Proof. reflexivity. Qed.
Example int_of_str_bad : int_of_str "12px" = None.
Proof. reflexivity. Qed.
Example int_of_str_signed : int_of_str "-7" = Some (-7).
Proof. reflexivity. Qed.
Example int_of_str_no_break_space :
  int_of_str (no_break_space ++ "300") = Some 300.
Proof. vm_compute. reflexivity. Qed.
Example int_of_str_separator : int_of_str (file_separator ++ "300") = None.
Proof. vm_compute. reflexivity. Qed.
Example int_of_str_fullwidth : int_of_str fullwidth_300 = Some 300.
Proof. vm_compute. reflexivity. Qed.
Example int_of_str_too_long :
  int_of_str (ones 4301) = None /\ int_of_str (ones 4300) <> None.
Proof. vm_compute. split; [reflexivity|discriminate]. Qed.
Example strip_no_break_space :
  py_strip (no_break_space ++ "mono" ++ file_separator) = "mono".
Proof. vm_compute. reflexivity. Qed.
Example needs_quotes_no_break_space :
  needs_quotes ("Fira" ++ no_break_space ++ "Code") = true.
Proof. vm_compute. reflexivity. Qed.
Example stopwatch_product_rounds_up :
  trunc_Q (fmul (fsub (5188146770730811 # 576460752303423488) 0) 1000) = 9
  /\ trunc_Q ((5188146770730811 # 576460752303423488) * 1000) = 8.
Proof. vm_compute. split; reflexivity. Qed.
Example valid_size_big : _valid_size (PyInt 10000) = Val 640.
Proof. reflexivity. Qed.
Example valid_size_float : _valid_size (PyFloat (FFinite (4411 # 20))) = Val 220.
Proof. reflexivity. Qed.
Example format_short : _format_stopwatch_elapsed 61005 = "01:01.005".
Proof. reflexivity. Qed.
Example format_long : _format_stopwatch_elapsed 3723999 = "01:02:03.999".
Proof. reflexivity. Qed.
Example format_wide : _format_stopwatch_elapsed 360000000 = "100:00:00.000".
Proof. reflexivity. Qed.

(** ** Proof support *)

(** Unfolds the monad and the methods down to the record of the widget. *)
Ltac py_unfold :=
  cbv [set_mode set_layer set_clock_size set_color_theme set_readout_font
       toggle_stopwatch_running reset_stopwatch _current_stopwatch_ms
       mousePressEvent mouseMoveEvent mouseReleaseEvent was_click
       center_on_screen _current_screen _is_on_any_screen save_state
       restore_position __init__ FloatingAnalogClock QWidget_new dispatch
       _apply_window_size _update_refresh_timer _set_window_flags
       setFixedSize move if_none negb andb orb
       bind ret get ask modify eval when final returned frameGeometry
       clock_size readout_height layer mode color_theme readout_font_family
       stopwatch_running stopwatch_elapsed_ms stopwatch_start_time
       drag_offset press_global_pos drag_started click_threshold_px
       pos width height visible stays_on_top stays_on_bottom timer_interval
       saved
       upd_clock_size upd_readout_height upd_layer upd_mode upd_color_theme
       upd_readout_font_family upd_stopwatch_running upd_stopwatch_elapsed_ms
       upd_stopwatch_start_time upd_drag_offset upd_press_global_pos
       upd_drag_started upd_click_threshold_px upd_pos upd_width upd_height
       upd_visible upd_stays_on_top upd_stays_on_bottom upd_timer_interval
       upd_saved].

(** Decides a closed test by computation. *)
Ltac eval_test b :=
  let b' := eval vm_compute in b in
  match b' with
  | true => change b with true
  | false => change b with false
  end.

(** Succeeds when [b] mentions a variable of the context. *)
Ltac mentions_var b := match b with context [?x] => is_var x end.

(** Succeeds when [x] has no test of its own inside. *)
Ltac atomic x :=
  lazymatch x with
  | context [if _ then _ else _] => fail
  | context [match _ with Some _ => _ | None => _ end] => fail
  | context [match _ with Val _ => _ | Err _ => _ end] => fail
  | _ => idtac
  end.

(** Takes one test of a method: decided if closed, split otherwise. *)
Ltac step_test :=
  match goal with
  | |- context [if ?b then _ else _] =>
      atomic b;
      first [ mentions_var b; destruct b eqn:?
            | eval_test b
            | destruct b eqn:? ]
  | |- context [match ?x with Some _ => _ | None => _ end] =>
      atomic x; destruct x eqn:?
  | |- context [match ?x with Val _ => _ | Err _ => _ end] =>
      atomic x; destruct x eqn:?
  end.

(** Turns the string tests taken so far into equations. *)
Ltac string_facts :=
  repeat match goal with
         | H : String.eqb _ _ = true |- _ => apply String.eqb_eq in H
         | H : String.eqb _ _ = false |- _ => apply String.eqb_neq in H
         end.

(** Runs a method symbolically, one test after the other. *)
Ltac py_run := py_unfold; repeat (step_test; py_unfold).

(** ** Rounding to binary64 *)

Local Open Scope Q_scope.

Lemma pow2_pos (k : Z) : 0 < pow2 k.
Proof. apply Qpower_0_lt. reflexivity. Qed.

Lemma pow2_plus (a b : Z) : pow2 (a + b) == pow2 a * pow2 b.
Proof. apply Qpower_plus. discriminate. Qed.

Lemma pow2_le (a b : Z) : (a <= b)%Z -> pow2 a <= pow2 b.
Proof. intros H. apply Qpower_le_compat_l; [exact H|discriminate]. Qed.

Lemma pow2_lt_inv (a b : Z) : pow2 a < pow2 b -> (a < b)%Z.
Proof. intros H. apply (Qpower_lt_compat_l_inv (2 # 1)); [exact H|reflexivity]. Qed.

Lemma pow2_nat (k : Z) : (0 <= k)%Z -> inject_Z (2 ^ k) == pow2 k.
Proof. intros H. unfold pow2. now rewrite Zpower_Qpower. Qed.

Lemma Q_as_fraction (q : Q) :
  q * inject_Z (Zpos (Qden q)) == inject_Z (Qnum q).
Proof.
  destruct q as [n d]. unfold Qeq, Qmult, inject_Z. simpl.
  rewrite Pos.mul_1_r. ring.
Qed.

Lemma log2_bracket (n : Z) :
  (0 < n)%Z -> pow2 (Z.log2 n) <= inject_Z n /\ inject_Z n < pow2 (Z.log2 n + 1).
Proof.
  intros Hn. destruct (Z.log2_spec n Hn) as [Hlo Hhi].
  pose proof (Z.log2_nonneg n) as H0.
  rewrite <- !pow2_nat by lia. split.
  - now rewrite <- Zle_Qle.
  - rewrite <- Zlt_Qlt. now rewrite <- Z.add_1_r in Hhi.
Qed.

Lemma binade_spec (q : Q) :
  0 < q -> pow2 (binade q) <= q /\ q < pow2 (binade q + 1).
Proof.
  intros Hq. unfold binade.
  set (n := Qnum q). set (d := Zpos (Qden q)).
  assert (Hn : (0 < n)%Z) by (destruct q as [n' d']; unfold Qlt in Hq; simpl in *; subst n; simpl; lia).
  assert (Hd : (0 < d)%Z) by (subst d; lia).
  destruct (log2_bracket n Hn) as [Hn1 Hn2].
  destruct (log2_bracket d Hd) as [Hd1 Hd2].
  pose proof (Q_as_fraction q) as Hfrac. fold n d in Hfrac.
  set (ln := Z.log2 n) in *. set (ld := Z.log2 d) in *.
  assert (HD : 0 < inject_Z d) by (rewrite <- (Zlt_Qlt 0); exact Hd).
  assert (Hup : q < pow2 (ln - ld + 1)).
  { pose proof (pow2_plus (ln - ld + 1) ld) as Hs.
    replace (ln - ld + 1 + ld)%Z with (ln + 1)%Z in Hs by ring.
    pose proof (pow2_pos (ln - ld + 1)) as Hp. pose proof (pow2_pos ld) as Hp'.
    rewrite Hs in Hn2. nra. }
  assert (Hlow : pow2 (ln - ld - 1) <= q).
  { pose proof (pow2_plus (ln - ld - 1) (ld + 1)) as Hs.
    replace (ln - ld - 1 + (ld + 1))%Z with ln in Hs by ring.
    pose proof (pow2_pos (ln - ld - 1)) as Hp. pose proof (pow2_pos (ld + 1)) as Hp'.
    rewrite Hs in Hn1. nra. }
  destruct (Qle_bool (pow2 (ln - ld)) q) eqn:Htest.
  - apply Qle_bool_iff in Htest. split; assumption.
  - assert (Hlt : q < pow2 (ln - ld)).
    { apply Qnot_le_lt. intros H. apply Qle_bool_iff in H. congruence. }
    replace (ln - ld - 1 + 1)%Z with (ln - ld)%Z by ring. split; assumption.
Qed.

Lemma round_half_even_near (q : Q) :
  inject_Z (round_half_even q) - (1 # 2) <= q
  /\ q <= inject_Z (round_half_even q) + (1 # 2).
Proof.
  unfold round_half_even.
  pose proof (Qfloor_le q) as Hlo. pose proof (Qlt_floor q) as Hhi.
  rewrite inject_Z_plus in Hhi. change (inject_Z 1) with 1%Q in Hhi.
  destruct (((2 # 1) * (q - inject_Z (Qfloor q)) ?= 1)%Q) eqn:Hcmp.
  - apply Qeq_alt in Hcmp.
    destruct (Z.even (Qfloor q)); [lra|].
    rewrite inject_Z_plus. change (inject_Z 1) with 1%Q. lra.
  - apply Qlt_alt in Hcmp. lra.
  - apply Qgt_alt in Hcmp.
    rewrite inject_Z_plus. change (inject_Z 1) with 1%Q. lra.
Qed.

Lemma round_half_even_comp (x y : Q) :
  x == y -> round_half_even x = round_half_even y.
Proof.
  intros H. unfold round_half_even.
  rewrite (Qfloor_comp x y H).
  assert (Hc : ((2 # 1) * (x - inject_Z (Qfloor y)) ?= 1)
               = ((2 # 1) * (y - inject_Z (Qfloor y)) ?= 1))
    by (apply Qcompare_comp; [now rewrite H|reflexivity]).
  now rewrite Hc.
Qed.

Lemma round_half_even_le (x y : Q) :
  x <= y -> (round_half_even x <= round_half_even y)%Z.
Proof.
  intros H. destruct (Qeq_dec x y) as [Heq|Hne].
  - rewrite (round_half_even_comp x y Heq). lia.
  - assert (Hlt : x < y) by (apply Qle_lteq in H; tauto).
    destruct (round_half_even_near x) as [Hx _].
    destruct (round_half_even_near y) as [_ Hy].
    assert (Hz : inject_Z (round_half_even x) < inject_Z (round_half_even y + 1)).
    { rewrite inject_Z_plus. change (inject_Z 1) with 1%Q. lra. }
    rewrite <- Zlt_Qlt in Hz. lia.
Qed.

Lemma round_half_even_Z (n : Z) : round_half_even (inject_Z n) = n.
Proof.
  unfold round_half_even. rewrite Qfloor_Z.
  assert (H : ((2 # 1) * (inject_Z n - inject_Z n) ?= 1) = Lt)
    by (apply Qlt_alt; setoid_replace (inject_Z n - inject_Z n) with 0 by ring;
        reflexivity).
  now rewrite H.
Qed.

(** The scaled value of a positive [q] lies in [2^52, 2^53). *)
Lemma scaled_range (q : Q) :
  0 < q ->
  let e := (binade q - 52)%Z in
  inject_Z (2 ^ 52) <= q * pow2 (- e) /\ q * pow2 (- e) < inject_Z (2 ^ 53).
Proof.
  intros Hq e. destruct (binade_spec q Hq) as [Hlo Hhi].
  pose proof (pow2_pos (- e)) as Hp.
  pose proof (pow2_plus (binade q) (- e)) as H1.
  pose proof (pow2_plus (binade q + 1) (- e)) as H2.
  replace (binade q + - e)%Z with 52%Z in H1 by (subst e; ring).
  replace (binade q + 1 + - e)%Z with 53%Z in H2 by (subst e; ring).
  rewrite (pow2_nat 52), (pow2_nat 53) by lia. rewrite H1, H2. split; nra.
Qed.

Lemma round53_range (q : Q) :
  0 < q -> pow2 (binade q) <= round53 q /\ round53 q <= pow2 (binade q + 1).
Proof.
  intros Hq. unfold round53. set (e := (binade q - 52)%Z).
  destruct (scaled_range q Hq) as [Hlo Hhi]. fold e in Hlo, Hhi.
  apply Qlt_le_weak in Hhi.
  apply round_half_even_le in Hlo, Hhi.
  rewrite round_half_even_Z in Hlo, Hhi.
  set (m := round_half_even (q * pow2 (- e))) in *.
  pose proof (pow2_pos e) as Hp.
  pose proof (pow2_plus 52 e) as H1. pose proof (pow2_plus 53 e) as H2.
  replace (52 + e)%Z with (binade q) in H1 by (subst e; ring).
  replace (53 + e)%Z with (binade q + 1)%Z in H2 by (subst e; ring).
  rewrite H1, H2. rewrite <- (pow2_nat 52), <- (pow2_nat 53) by lia.
  rewrite Zle_Qle in Hlo, Hhi.
  set (lo := inject_Z (2 ^ 52)) in *. set (hi := inject_Z (2 ^ 53)) in *.
  set (im := inject_Z m) in *. clearbody lo hi im.
  split.
  - apply Qmult_le_compat_r; [exact Hlo|now apply Qlt_le_weak].
  - apply Qmult_le_compat_r; [exact Hhi|now apply Qlt_le_weak].
Qed.

Lemma round53_pos (q : Q) : 0 < q -> 0 < round53 q.
Proof.
  intros Hq. destruct (round53_range q Hq) as [H _].
  pose proof (pow2_pos (binade q)). lra.
Qed.

Lemma binade_le (a b : Q) : 0 < a -> a <= b -> (binade a <= binade b)%Z.
Proof.
  intros Ha Hab. assert (Hb : 0 < b) by lra.
  destruct (binade_spec a Ha) as [Ha1 _].
  destruct (binade_spec b Hb) as [_ Hb2].
  assert (H : pow2 (binade a) < pow2 (binade b + 1)) by lra.
  apply pow2_lt_inv in H. lia.
Qed.

Lemma round53_le (a b : Q) : 0 < a -> a <= b -> round53 a <= round53 b.
Proof.
  intros Ha Hab. assert (Hb : 0 < b) by lra.
  pose proof (binade_le a b Ha Hab) as Hk.
  destruct (Z.eq_dec (binade a) (binade b)) as [Heq|Hne].
  - unfold round53. rewrite Heq. set (e := (binade b - 52)%Z).
    pose proof (pow2_pos e) as Hp. pose proof (pow2_pos (- e)) as Hp'.
    assert (Hs : a * pow2 (- e) <= b * pow2 (- e)) by nra.
    apply round_half_even_le in Hs. rewrite Zle_Qle in Hs. nra.
  - destruct (round53_range a Ha) as [_ Hua].
    destruct (round53_range b Hb) as [Hlb _].
    assert (Hp : pow2 (binade a + 1) <= pow2 (binade b)) by (apply pow2_le; lia).
    lra.
Qed.

Lemma round64_le (a b : Q) : a <= b -> round64 a <= round64 b.
Proof.
  intros Hab. unfold round64.
  destruct (Qcompare_spec a 0) as [Ha|Ha|Ha];
    destruct (Qcompare_spec b 0) as [Hb|Hb|Hb]; try lra.
  - pose proof (round53_pos b Hb). lra.
  - assert (H : 0 < - a) by lra. pose proof (round53_pos (- a) H). lra.
  - assert (H : 0 < - b) by lra.
    assert (H' : - b <= - a) by lra.
    pose proof (round53_le (- b) (- a) H H'). lra.
  - assert (H : 0 < - a) by lra. pose proof (round53_pos (- a) H).
    pose proof (round53_pos b Hb). lra.
  - now apply round53_le.
Qed.

Lemma round64_zero (q : Q) : q == 0 -> round64 q = 0.
Proof.
  intros H. unfold round64. apply Qeq_alt in H. now rewrite H.
Qed.

Lemma round64_nonneg (q : Q) : 0 <= q -> 0 <= round64 q.
Proof.
  intros H. rewrite <- (round64_zero 0) by reflexivity. now apply round64_le.
Qed.

(** Relative error of one rounding: half a unit in the 53rd bit. *)
Lemma round53_error (q : Q) :
  0 < q ->
  q * (1 - pow2 (-53)) <= round53 q /\ round53 q <= q * (1 + pow2 (-53)).
Proof.
  intros Hq. unfold round53. set (e := (binade q - 52)%Z).
  destruct (binade_spec q Hq) as [Hlo _].
  destruct (round_half_even_near (q * pow2 (- e))) as [H1 H2].
  set (m := inject_Z (round_half_even (q * pow2 (- e)))) in *.
  pose proof (pow2_pos e) as Hp. pose proof (pow2_pos (- e)) as Hp'.
  pose proof (pow2_plus e (- e)) as Hinv.
  replace (e + - e)%Z with 0%Z in Hinv by ring.
  change (pow2 0) with 1 in Hinv.
  pose proof (pow2_plus (binade q) (-53)) as Hu.
  replace (binade q + -53)%Z with (e + -1)%Z in Hu by (subst e; ring).
  rewrite (pow2_plus e (-1)) in Hu. change (pow2 (-1)) with (1 # 2) in Hu.
  pose proof (pow2_pos (-53)) as Hp53.
  pose proof (pow2_pos (binade q)) as Hpk.
  (* m * 2^e - q = (m - s) * 2^e, |m - s| <= 1/2 *)
  assert (Hs : (q * pow2 (- e)) * pow2 e == q) by (rewrite <- Qmult_assoc, (Qmult_comm (pow2 (- e))), <- Hinv; ring).
  assert (Hhalf : pow2 e * (1 # 2) <= q * pow2 (-53)).
  { rewrite Hu. apply Qmult_le_compat_r; [exact Hlo|now apply Qlt_le_weak]. }
  set (s := q * pow2 (- e)) in *. set (P := pow2 e) in *.
  set (u := pow2 (-53)) in *. clearbody s P u m.
  assert (E1 : m * P - q == (m - s) * P) by (rewrite <- Hs; ring).
  split.
  - assert (H : (m - s) * P >= - ((1 # 2) * P)) by nra. lra.
  - assert (H : (m - s) * P <= (1 # 2) * P) by nra. lra.
Qed.

Lemma round64_error (q : Q) :
  0 <= q ->
  q * (1 - pow2 (-53)) <= round64 q /\ round64 q <= q * (1 + pow2 (-53)).
Proof.
  intros Hq. unfold round64.
  destruct (Qcompare_spec q 0) as [H|H|H]; [|lra|now apply round53_error].
  pose proof (pow2_pos (-53)). rewrite H. lra.
Qed.

Local Open Scope string_scope.
Local Open Scope Z_scope.

Lemma trunc_Q_nonneg (q : Q) : (0 <= q)%Q -> 0 <= trunc_Q q.
Proof.
  unfold Qle, trunc_Q; simpl; intros H.
  apply Z.quot_pos; lia.
Qed.

Lemma trunc_Q_floor (q : Q) : (0 <= q)%Q -> trunc_Q q = Qfloor q.
Proof.
  destruct q as [n d]; unfold Qle, trunc_Q; simpl; intros H.
  apply Z.quot_div_nonneg; lia.
Qed.

Lemma elapsed_scaled_nonneg (start now : Q) :
  (start <= now)%Q -> (0 <= fmul (fsub now start) 1000)%Q.
Proof.
  intros H. unfold fmul, fsub.
  assert (H1 : (0 <= round64 (now - start))%Q) by (apply round64_nonneg; lra).
  apply round64_nonneg. lra.
Qed.

(** Two roundings keep the product within [2^-51] of the exact one. *)
Lemma elapsed_scaled_error (start now : Q) :
  (start <= now)%Q ->
  let delta := ((now - start) * 1000)%Q in
  (delta * (1 - pow2 (-51)) <= fmul (fsub now start) 1000)%Q
  /\ (fmul (fsub now start) 1000 <= delta * (1 + pow2 (-51)))%Q.
Proof.
  intros H delta. subst delta. unfold fmul, fsub.
  assert (H0 : (0 <= now - start)%Q) by lra.
  destruct (round64_error _ H0) as [Hl1 Hu1].
  assert (H1 : (0 <= round64 (now - start) * 1000)%Q)
    by (pose proof (round64_nonneg _ H0); lra).
  destruct (round64_error _ H1) as [Hl2 Hu2].
  change (pow2 (-53)) with (1 # 9007199254740992)%Q in *.
  change (pow2 (-51)) with (1 # 2251799813685248)%Q.
  split; lra.
Qed.

(** ** Stopwatch reads *)

(** C1. Reading the elapsed time always returns and leaves the widget as
    it was.  The value is [stopwatch_elapsed_ms] when the stopwatch is
    stopped.  When it runs, the value is [stopwatch_elapsed_ms] plus the
    whole part, if positive, of the binary64 product
    [(now - start) * 1000.0]; for a start no later than the clock reading
    that product is not negative, its whole part is the number of whole
    milliseconds in it, and it is the exact time between
    [stopwatch_start_time] and the clock reading, in milliseconds, up to
    the two roundings: a relative error of at most [2^-51].  With an
    accumulator that is not negative the value is never negative. *)
Theorem C1_current_stopwatch_ms (e : Env) (w : Widget) :
  exists ms : Z,
    _current_stopwatch_ms e w = Done ms w
    /\ (stopwatch_running w = false -> ms = stopwatch_elapsed_ms w)
    /\ (stopwatch_running w = true ->
        let product := fmul (fsub (perf_counter e) (stopwatch_start_time w))
                            1000 in
        ms = stopwatch_elapsed_ms w + Z.max 0 (trunc_Q product)
        /\ ((stopwatch_start_time w <= perf_counter e)%Q ->
            let delta :=
              ((perf_counter e - stopwatch_start_time w) * 1000)%Q in
            ms = stopwatch_elapsed_ms w + trunc_Q product
            /\ (inject_Z (trunc_Q product) <= product)%Q
            /\ (product < inject_Z (trunc_Q product + 1))%Q
            /\ (delta * (1 - pow2 (-51)) <= product)%Q
            /\ (product <= delta * (1 + pow2 (-51)))%Q))
    /\ (0 <= stopwatch_elapsed_ms w -> 0 <= ms).
Proof.
  destruct (stopwatch_running w) eqn:Hrun.
  - exists (stopwatch_elapsed_ms w
            + Z.max 0 (trunc_Q (fmul (fsub (perf_counter e)
                                           (stopwatch_start_time w)) 1000))).
    split; [|split; [|split]].
    + unfold _current_stopwatch_ms, bind, get, ask, ret.
      now rewrite Hrun.
    + discriminate.
    + intros _. cbv zeta. split; [reflexivity|]. intros Hstart.
      pose proof (elapsed_scaled_nonneg _ _ Hstart) as Hd.
      pose proof (trunc_Q_nonneg _ Hd) as Ht.
      destruct (elapsed_scaled_error _ _ Hstart) as [Hlo Hhi].
      rewrite Z.max_r by exact Ht.
      rewrite (trunc_Q_floor _ Hd).
      split; [reflexivity|]. split; [apply Qfloor_le|].
      split; [apply Qlt_floor|]. split; assumption.
    + lia.
  - exists (stopwatch_elapsed_ms w).
    split; [|split; [|split]]; try discriminate; auto.
    unfold _current_stopwatch_ms, bind, get, ask, ret.
    now rewrite Hrun.
Qed.

Lemma trunc_Q_same_instant (q : Q) : trunc_Q (fmul (fsub q q) 1000) = 0.
Proof.
  unfold fmul, fsub.
  rewrite (round64_zero (q - q)) by ring.
  now rewrite (round64_zero (0 * 1000)) by ring.
Qed.

(** C3. [reset_stopwatch] zeroes the accumulator and keeps the running
    flag; a running stopwatch gets the current clock reading as its new
    start, so it reads zero at the reset and goes on counting from there,
    while a stopped one stays stopped at zero. *)
Theorem C3_reset_stopwatch (e : Env) (w : Widget) :
  exists w' : Widget,
    reset_stopwatch e w = Done tt w'
    /\ stopwatch_elapsed_ms w' = 0
    /\ stopwatch_running w' = stopwatch_running w
    /\ (stopwatch_running w = true ->
        stopwatch_start_time w' = perf_counter e
        /\ _current_stopwatch_ms e w' = Done 0 w'
        /\ forall later : Env,
            _current_stopwatch_ms later w'
            = Done (0 + Z.max 0 (trunc_Q (fmul (fsub (perf_counter later)
                                                     (perf_counter e))
                                               1000))) w')
    /\ (stopwatch_running w = false ->
        stopwatch_start_time w' = stopwatch_start_time w
        /\ forall later : Env, _current_stopwatch_ms later w' = Done 0 w').
Proof.
  destruct w; py_unfold.
  destruct stopwatch_running0; eexists; (split; [reflexivity|]);
    repeat split; try discriminate; try reflexivity.
  now rewrite trunc_Q_same_instant.
Qed.

(** ** Mode switches *)

Lemma valid_mode_cases (v : pyval) :
  _valid_mode v = MODE_CLOCK \/ _valid_mode v = MODE_STOPWATCH.
Proof.
  destruct v; simpl; auto.
  destruct (String.eqb s MODE_CLOCK) eqn:Hc; simpl.
  - left. now apply String.eqb_eq.
  - destruct (String.eqb s MODE_STOPWATCH) eqn:Hs; auto.
    right. now apply String.eqb_eq.
Qed.

Lemma valid_mode_not_stopwatch (v : pyval) :
  v <> PyStr MODE_STOPWATCH -> _valid_mode v = MODE_CLOCK.
Proof.
  intros Hv. destruct v; simpl; auto.
  destruct (String.eqb s MODE_CLOCK) eqn:Hc; simpl.
  - now apply String.eqb_eq.
  - destruct (String.eqb s MODE_STOPWATCH) eqn:Hs; auto.
    apply String.eqb_eq in Hs. now subst.
Qed.

(** C2. When the stopwatch runs (it is then in Stopwatch mode), [set_mode]
    with any value other than ["stopwatch"] folds the time read at that
    moment into [stopwatch_elapsed_ms], clears [stopwatch_running] and
    enters Clock mode; switching back to Stopwatch mode later finds the
    stopwatch stopped, and every later read gives the value frozen at the
    switch away. *)
Theorem C2_set_mode_folds_running_time
    (away back later : Env) (w : Widget) (v : pyval) (p p' : bool) :
  stopwatch_running w = true ->
  mode w = MODE_STOPWATCH ->
  v <> PyStr MODE_STOPWATCH ->
  exists (ms : Z) (w1 w2 : Widget),
    _current_stopwatch_ms away w = Done ms w
    /\ set_mode v p away w = Done tt w1
    /\ mode w1 = MODE_CLOCK
    /\ stopwatch_running w1 = false
    /\ stopwatch_elapsed_ms w1 = ms
    /\ set_mode (PyStr MODE_STOPWATCH) p' back w1 = Done tt w2
    /\ mode w2 = MODE_STOPWATCH
    /\ stopwatch_running w2 = false
    /\ _current_stopwatch_ms later w2 = Done ms w2.
Proof.
  intros Hrun Hmode Hv.
  apply valid_mode_not_stopwatch in Hv.
  destruct w; simpl in Hrun, Hmode; subst.
  unfold set_mode at 1. rewrite Hv.
  py_run; do 3 eexists; repeat split.
Qed.

(** ** Invariants of a session *)

Lemma valid_size_range (v : pyval) (n : Z) :
  _valid_size v = Val n -> MIN_CLOCK_SIZE <= n <= MAX_CLOCK_SIZE.
Proof.
  unfold _valid_size, MIN_CLOCK_SIZE, MAX_CLOCK_SIZE.
  destruct (py_int v) as [z|[]]; intros H; inversion H; lia.
Qed.

Ltac use_size_range :=
  repeat match goal with
         | H : _valid_size _ = Val _ |- _ => apply valid_size_range in H
         end.

Lemma init_consistent (size l m th f : pyval) (e : Env) (w : Widget) (t : Q) :
  FloatingAnalogClock size l m th f e = Done tt w -> consistent t w.
Proof.
  unfold consistent, size_in_range, stopwatch_sound.
  py_run; intros H; inversion H; subst; clear H; use_size_range;
    intuition (try discriminate; try lia).
Qed.

Lemma dispatch_consistent (ev : Event) (e : Env) (w : Widget) (t : Q) :
  consistent t w -> (t <= perf_counter e)%Q ->
  consistent (perf_counter e) (final (dispatch ev e w)).
Proof.
  unfold consistent, size_in_range, stopwatch_sound.
  intros (Hsize & (Hacc & Hrun) & Hthr) Ht.
  destruct w; destruct ev; py_run; use_size_range;
    cbv [clock_size stopwatch_elapsed_ms stopwatch_running mode
         stopwatch_start_time click_threshold_px] in *;
    repeat split; intros; try discriminate; try lia; try reflexivity;
    try (apply Hrun; assumption);
    try apply Qle_refl;
    try (apply Qle_trans with t; [apply Hrun|]; assumption);
    try (apply String.eqb_eq; assumption).
Qed.

Lemma run_consistent (trace : list (Env * Event)) :
  forall (w : Widget) (t : Q),
    consistent t w -> monotonic t trace ->
    consistent (end_time t trace) (run trace w).
Proof.
  induction trace as [|[e ev] rest IH]; intros w t Hc Hm; simpl.
  - exact Hc.
  - destruct Hm as [Hle Hm].
    apply IH; [|exact Hm].
    now apply dispatch_consistent with t.
Qed.

(** Every widget built by the constructor and driven by events under a
    clock that does not go back is consistent at the end of the trace. *)
Lemma session_consistent (size l m th f : pyval) (e : Env) (w : Widget)
    (trace : list (Env * Event)) :
  FloatingAnalogClock size l m th f e = Done tt w ->
  monotonic (perf_counter e) trace ->
  consistent (end_time (perf_counter e) trace) (run trace w).
Proof.
  intros Hinit Hmono. apply run_consistent; [|exact Hmono].
  now apply init_consistent with size l m th f e.
Qed.

(** ** Size normalisation *)

Lemma valid_size_total (v : pyval) :
  is_infinite v = false -> exists n : Z, _valid_size v = Val n.
Proof.
  unfold _valid_size.
  destruct v as [| b | z | [q | neg |] | s | l | d]; simpl;
    try discriminate; intros _; try (eexists; reflexivity).
  destruct (int_of_str s); eexists; reflexivity.
Qed.

Lemma valid_size_overflow (v : pyval) :
  is_infinite v = true -> _valid_size v = Err OverflowError.
Proof.
  destruct v as [| b | z | [q | neg |] | s | l | d]; simpl;
    try discriminate; reflexivity.
Qed.

Lemma valid_theme_total (v : pyval) :
  hashable v = true -> exists s : string, _valid_theme v = Val s.
Proof.
  unfold _valid_theme. intros ->.
  destruct v; try (eexists; reflexivity).
  destruct (existsb _ _); eexists; reflexivity.
Qed.

Lemma valid_theme_unhashable (v : pyval) :
  hashable v = false -> _valid_theme v = Err TypeError.
Proof. unfold _valid_theme. now intros ->. Qed.

(** What [set_clock_size] leaves in [clock_size], and when it returns. *)
Lemma set_clock_size_stores (v : pyval) (p : bool) (e : Env) (w : Widget) :
  match _valid_size v with
  | Val n =>
      returned (set_clock_size v p e w) = true
      /\ clock_size (final (set_clock_size v p e w)) = n
  | Err x => set_clock_size v p e w = Raised x w
  end.
Proof.
  unfold set_clock_size at 1 2 3.
  destruct (_valid_size v) as [n|x]; [|reflexivity].
  destruct w; py_run; split; try reflexivity.
  symmetry. now apply Z.eqb_eq.
Qed.

(** C5. Whatever value is passed (a number, a string that parses or not,
    [None], any other value), the size kept by the widget after
    [set_clock_size], and after construction, is between 120 and 640.
    Both calls return for every value but an infinite float, which the
    first line of either rejects before anything is stored. *)
Theorem C5_stored_size_in_range :
  (forall (v : pyval) (p : bool) (e : Env) (w : Widget),
      (is_infinite v = false ->
       returned (set_clock_size v p e w) = true
       /\ size_in_range (final (set_clock_size v p e w)))
      /\ (is_infinite v = true ->
          set_clock_size v p e w = Raised OverflowError w)
      /\ (size_in_range w -> size_in_range (final (set_clock_size v p e w))))
  /\ (forall (size l m th f : pyval) (e : Env),
      (is_infinite size = false -> hashable th = true ->
       returned (FloatingAnalogClock size l m th f e) = true)
      /\ (forall w : Widget,
             FloatingAnalogClock size l m th f e = Done tt w ->
             size_in_range w)).
Proof.
  split.
  - intros v p e w.
    pose proof (set_clock_size_stores v p e w) as Hs.
    split; [|split].
    + intros Hv. destruct (valid_size_total v Hv) as [n Hn].
      rewrite Hn in Hs. destruct Hs as [Hret Hsz]. split; [exact Hret|].
      unfold size_in_range. rewrite Hsz. now apply valid_size_range with v.
    + intros Hv. now rewrite (valid_size_overflow v Hv) in Hs.
    + intros Hw. destruct (_valid_size v) as [n|x] eqn:Hn.
      * unfold size_in_range. destruct Hs as [_ ->].
        now apply valid_size_range with v.
      * rewrite Hs. exact Hw.
  - intros size l m th f e. split.
    + intros Hs Hth. destruct (valid_size_total size Hs) as [n Hn].
      destruct (valid_theme_total th Hth) as [t Ht].
      unfold FloatingAnalogClock, __init__.
      rewrite Hn, Ht. py_run; reflexivity.
    + intros w H. eapply (init_consistent _ _ _ _ _ _ _ 0%Q). exact H.
Qed.

Lemma int_of_str_unfold (s : string) :
  int_of_str s
  = match rev (skip_blanks (rev (skip_blanks (code_points 0 0 (list_ascii_of_string s))))) with
    | c :: rest =>
        if N.eqb c PLUS then parse_digits 0 0 false rest
        else if N.eqb c MINUS then option_map Z.opp (parse_digits 0 0 false rest)
        else parse_digits 0 0 false (c :: rest)
    | [] => None
    end.
Proof. reflexivity. Qed.

Lemma parse_digits_rejects (c : N) (l : list N) :
  In c l -> digit_value c = None -> N.eqb c UNDERSCORE = false ->
  forall (acc digits : Z) (after_digit : bool),
    parse_digits acc digits after_digit l = None.
Proof.
  intros Hin Hd Hu.
  induction l as [|a rest IH]; [contradiction|].
  intros acc digits after_digit. cbn [parse_digits].
  destruct Hin as [->|Hin].
  - now rewrite Hd, Hu.
  - destruct (digit_value a); [now apply IH|].
    destruct (N.eqb a UNDERSCORE && after_digit); [now apply IH|reflexivity].
Qed.

Lemma skip_blanks_keeps (c : N) (l : list N) :
  In c l -> int_blank c = false -> In c (skip_blanks l).
Proof.
  intros Hin Hc.
  induction l as [|a rest IH]; [contradiction|]. cbn [skip_blanks].
  destruct (int_blank a) eqn:Ha; [|exact Hin].
  destruct Hin as [->|Hin]; [congruence|now apply IH].
Qed.

Lemma skip_blanks_suffix (l : list N) :
  exists pre, l = (pre ++ skip_blanks l)%list
              /\ Forall (fun c => int_blank c = true) pre.
Proof.
  induction l as [|a l (pre & IH & Hpre)]; cbn [skip_blanks].
  - exists []. split; [reflexivity|constructor].
  - destruct (int_blank a) eqn:Ha.
    + exists (a :: pre). split; [simpl; now f_equal|now constructor].
    + exists []. split; [reflexivity|constructor].
Qed.

(** A string with a character no integer literal has does not parse. *)
Lemma int_of_str_rejects (s : string) (c : N) :
  In c (text_of s) -> int_char c = false -> int_of_str s = None.
Proof.
  unfold int_char, text_of. intros Hin Hc.
  destruct (digit_value c) eqn:Hd; [discriminate|].
  apply orb_false_elim in Hc as [Hc Hminus].
  apply orb_false_elim in Hc as [Hc Hplus].
  apply orb_false_elim in Hc as [Hsp Hu].
  assert (Hin' : In c (rev (skip_blanks (rev (skip_blanks
                         (code_points 0 0 (list_ascii_of_string s))))))).
  { apply -> in_rev. apply skip_blanks_keeps; [|exact Hsp].
    apply -> in_rev. now apply skip_blanks_keeps. }
  rewrite int_of_str_unfold.
  destruct (rev (skip_blanks (rev (skip_blanks _)))) as [|a rest];
    [reflexivity|].
  assert (Hrest : N.eqb a c = false -> In c rest).
  { intros Hne. destruct Hin' as [->|H]; [|exact H].
    now rewrite N.eqb_refl in Hne. }
  destruct (N.eqb_spec a PLUS) as [->|_].
  - rewrite N.eqb_sym in Hplus.
    now apply parse_digits_rejects with c; auto.
  - destruct (N.eqb_spec a MINUS) as [->|_].
    + rewrite N.eqb_sym in Hminus.
      rewrite (parse_digits_rejects c rest); auto.
    + now apply parse_digits_rejects with c.
Qed.

(** A literal that parses has no more digits than the limit. *)
Lemma parse_digits_count (l : list N) :
  forall (acc digits : Z) (after_digit : bool) (v : Z),
    parse_digits acc digits after_digit l = Some v ->
    digits + count_digits l <= MAX_STR_DIGITS.
Proof.
  unfold count_digits.
  induction l as [|a rest IH]; intros acc digits after_digit v H;
    cbn [parse_digits] in H.
  - destruct after_digit; [|discriminate]. cbn [andb] in H.
    destruct (digits <=? MAX_STR_DIGITS) eqn:Hd; [|discriminate].
    apply Z.leb_le in Hd. cbn. lia.
  - cbn [filter]. destruct (digit_value a).
    + apply IH in H. cbn [List.length]. lia.
    + destruct (N.eqb a UNDERSCORE && after_digit); [|discriminate].
      now apply IH in H.
Qed.

Lemma blank_is_no_digit (c : N) : int_blank c = true -> digit_value c = None.
Proof.
  intros H.
  assert (Hin : In c ([9; 10; 11; 12; 13; 32]%N ++ WHITESPACE)%list).
  { apply in_or_app. unfold int_blank in H.
    destruct (N.ltb_spec c 128) as [_|_].
    - left. apply orb_true_iff in H. destruct H as [H|H].
      + apply andb_true_iff in H. destruct H as [H1 H2].
        apply N.leb_le in H1, H2.
        assert (Hc : (c = 9 \/ c = 10 \/ c = 11 \/ c = 12 \/ c = 13)%N) by lia.
        destruct Hc as [->|[->|[->|[->| ->]]]]; cbn; tauto.
      + apply N.eqb_eq in H. subst. cbn. tauto.
    - right. unfold is_space in H. apply existsb_exists in H.
      destruct H as (x & Hx & Heq). apply N.eqb_eq in Heq. now subst. }
  assert (Hall : forallb (fun c => match digit_value c with
                                   | Some _ => false
                                   | None => true
                                   end)
                         ([9; 10; 11; 12; 13; 32]%N ++ WHITESPACE) = true)
    by (vm_compute; reflexivity).
  rewrite forallb_forall in Hall. specialize (Hall c Hin).
  now destruct (digit_value c).
Qed.

Lemma count_digits_app (a b : list N) :
  count_digits (a ++ b) = count_digits a + count_digits b.
Proof.
  unfold count_digits. rewrite filter_app, List.length_app. lia.
Qed.

Lemma count_digits_rev (l : list N) : count_digits (rev l) = count_digits l.
Proof.
  unfold count_digits.
  induction l as [|a l IH]; [reflexivity|].
  cbn [rev]. rewrite filter_app, List.length_app. cbn [filter].
  destruct (digit_value a); cbn [List.length]; lia.
Qed.

Lemma count_digits_blanks (pre : list N) :
  Forall (fun c => int_blank c = true) pre -> count_digits pre = 0.
Proof.
  unfold count_digits. induction 1 as [|c pre Hc _ IH]; [reflexivity|].
  cbn [filter]. now rewrite (blank_is_no_digit c Hc).
Qed.

Lemma count_digits_skip (l : list N) :
  count_digits (skip_blanks l) = count_digits l.
Proof.
  destruct (skip_blanks_suffix l) as (pre & Hl & Hpre).
  rewrite Hl at 2. rewrite count_digits_app, (count_digits_blanks pre Hpre).
  lia.
Qed.

(** A string with more digits than the limit does not parse. *)
Lemma int_of_str_limit (s : string) :
  MAX_STR_DIGITS < count_digits (text_of s) -> int_of_str s = None.
Proof.
  intros Hmany. rewrite int_of_str_unfold. fold (text_of s).
  set (body := rev (skip_blanks (rev (skip_blanks (text_of s))))).
  assert (Hbody : count_digits body = count_digits (text_of s)).
  { subst body.
    now rewrite count_digits_rev, count_digits_skip, count_digits_rev,
      count_digits_skip. }
  destruct body as [|c rest]; [reflexivity|].
  assert (Hc : count_digits (c :: rest)
               = count_digits [c] + count_digits rest)
    by (apply (count_digits_app [c] rest)).
  assert (Hsign : forall x, digit_value x = None ->
                            count_digits [x] = 0).
  { intros x Hx. unfold count_digits. cbn. now rewrite Hx. }
  destruct (N.eqb_spec c PLUS) as [->|_].
  - destruct (parse_digits 0 0 false rest) eqn:Hp; [|reflexivity].
    apply parse_digits_count in Hp.
    rewrite Hsign in Hc by reflexivity. lia.
  - destruct (N.eqb_spec c MINUS) as [->|_].
    + destruct (parse_digits 0 0 false rest) eqn:Hp; [|reflexivity].
      apply parse_digits_count in Hp.
      rewrite Hsign in Hc by reflexivity. lia.
    + destruct (parse_digits 0 0 false (c :: rest)) eqn:Hp; [|reflexivity].
      apply parse_digits_count in Hp. lia.
Qed.

(** C10. A size that [int] cannot parse is replaced by the default 220,
    which lies strictly inside the range, and not by one of the bounds 120
    or 640: [None], any value [int] rejects with [TypeError] or
    [ValueError], a string that holds a character no integer literal has
    (anything but decimal digits, blanks, [_], [+], [-]), a string with
    more digits than the interpreter reads.  A string [int] does parse
    gives the number it denotes, brought into the range. *)
Theorem C10_unparseable_size_is_default :
  DEFAULT_CLOCK_SIZE = 220
  /\ MIN_CLOCK_SIZE < DEFAULT_CLOCK_SIZE < MAX_CLOCK_SIZE
  /\ _valid_size PyNone = Val 220
  /\ (forall s : string,
         int_of_str s = None -> _valid_size (PyStr s) = Val 220)
  /\ (forall (s : string) (c : N),
         In c (text_of s) -> int_char c = false ->
         _valid_size (PyStr s) = Val 220)
  /\ (forall s : string,
         MAX_STR_DIGITS < count_digits (text_of s) ->
         _valid_size (PyStr s) = Val 220)
  /\ (forall (s : string) (n : Z),
         int_of_str s = Some n ->
         _valid_size (PyStr s)
         = Val (Z.max MIN_CLOCK_SIZE (Z.min MAX_CLOCK_SIZE n)))
  /\ (forall v : pyval,
         py_int v = Err TypeError \/ py_int v = Err ValueError ->
         _valid_size v = Val 220).
Proof.
  assert (Hstr : forall s, int_of_str s = None ->
                           _valid_size (PyStr s) = Val 220).
  { intros s H. unfold _valid_size; cbn [py_int]. now rewrite H. }
  repeat split; try reflexivity; try assumption.
  - intros s c Hin Hc. apply Hstr. now apply int_of_str_rejects with c.
  - intros s Hmany. apply Hstr. now apply int_of_str_limit.
  - intros s n H. unfold _valid_size; cbn [py_int]. now rewrite H.
  - intros v [H|H]; unfold _valid_size; now rewrite H.
Qed.

(** ** The readout *)

Lemma length_app (a b : string) :
  String.length (a ++ b) = (String.length a + String.length b)%nat.
Proof. induction a; simpl; congruence. Qed.

Lemma length_zeros (k : nat) : String.length (zeros k) = k.
Proof. induction k; simpl; congruence. Qed.

Lemma format_nonneg (width : nat) (n : Z) :
  0 <= n ->
  format_zero_padded width n
  = (zeros (width - String.length (decimal n)) ++ decimal n)%string.
Proof.
  intros Hn. unfold format_zero_padded.
  destruct (Z.ltb_spec n 0); [lia|].
  rewrite Z.abs_eq by assumption. simpl. now rewrite Nat.sub_0_r.
Qed.

Lemma decimal_nonempty (n : Z) : decimal n <> "".
Proof.
  unfold decimal. intros H.
  assert (Hd : N.to_uint (Z.to_N n) <> Decimal.Nil).
  { destruct (Z.to_N n); simpl; [discriminate|apply Unsigned.to_uint_nonnil]. }
  pose proof (NilZero.usu _ Hd) as Hu. rewrite H in Hu. discriminate.
Qed.

Lemma read_decimal_decimal (n : Z) : 0 <= n -> read_decimal (decimal n) = Some n.
Proof.
  intros Hn. unfold read_decimal, decimal.
  assert (Hd : N.to_uint (Z.to_N n) <> Decimal.Nil).
  { destruct (Z.to_N n); simpl; [discriminate|apply Unsigned.to_uint_nonnil]. }
  rewrite (NilZero.usu _ Hd). simpl. f_equal.
  change (Z.of_uint (N.to_uint (Z.to_N n)))
    with (Z.of_N (N.of_uint (N.to_uint (Z.to_N n)))).
  rewrite DecimalN.Unsigned.of_to. now apply Z2N.id.
Qed.

Lemma read_decimal_zeros (k : nat) (s : string) :
  s <> "" -> read_decimal (zeros k ++ s) = read_decimal s.
Proof.
  intros Hs. induction k as [|k IH]; [reflexivity|].
  rewrite <- IH. unfold read_decimal. simpl zeros. simpl append.
  assert (Hne : (zeros k ++ s)%string <> "").
  { destruct k; simpl; [exact Hs|discriminate]. }
  destruct (zeros k ++ s)%string as [|a t] eqn:Ht; [contradiction|].
  unfold NilZero.uint_of_string.
  change (NilEmpty.uint_of_string (String "0" (String a t)))
    with (uint_of_char "0" (NilEmpty.uint_of_string (String a t))).
  destruct (NilEmpty.uint_of_string (String a t)); reflexivity.
Qed.

Lemma read_format (width : nat) (n : Z) :
  0 <= n -> read_decimal (format_zero_padded width n) = Some n.
Proof.
  intros Hn. rewrite format_nonneg by assumption.
  rewrite read_decimal_zeros by apply decimal_nonempty.
  now apply read_decimal_decimal.
Qed.

Lemma length_format_min (width : nat) (n : Z) :
  0 <= n -> (width <= String.length (format_zero_padded width n))%nat.
Proof.
  intros Hn. rewrite format_nonneg by assumption.
  rewrite length_app, length_zeros. lia.
Qed.

(** Checking a property of all numbers below a bound by computation. *)
Lemma below_bound (P : Z -> bool) (k : nat) :
  forallb P (map Z.of_nat (seq 0 k)) = true ->
  forall n : Z, 0 <= n < Z.of_nat k -> P n = true.
Proof.
  intros H n Hn. rewrite forallb_forall in H. apply H.
  apply in_map_iff. exists (Z.to_nat n). split; [lia|].
  apply in_seq. lia.
Qed.

Lemma length_format_2 (n : Z) :
  0 <= n < 100 -> String.length (format_zero_padded 2 n) = 2%nat.
Proof.
  intros Hn. apply Nat.eqb_eq.
  apply (below_bound
           (fun n => (String.length (format_zero_padded 2 n) =? 2)%nat) 100);
    [now vm_compute|exact Hn].
Qed.

Lemma length_format_3 (n : Z) :
  0 <= n < 1000 -> String.length (format_zero_padded 3 n) = 3%nat.
Proof.
  intros Hn. apply Nat.eqb_eq.
  apply (below_bound
           (fun n => (String.length (format_zero_padded 3 n) =? 3)%nat) 1000);
    [now vm_compute|exact Hn].
Qed.

(** A number of two digits or more is written on two characters or
    more, the first of which is not a zero. *)
Lemma decimal_head (n : Z) :
  10 <= n ->
  exists (c d : ascii) (rest : string),
    decimal n = String c (String d rest) /\ c <> "0"%char.
Proof.
  intros Hn. unfold decimal.
  pose proof (DecimalN.Unsigned.of_to (Z.to_N n)) as Hback.
  pose proof (DecimalN.Unsigned.to_of (N.to_uint (Z.to_N n))) as Hnorm.
  rewrite Hback in Hnorm.
  assert (Hbig : (10 <= N.of_uint (N.to_uint (Z.to_N n)))%N)
    by (rewrite Hback; lia).
  destruct (N.to_uint (Z.to_N n)) as [|u|u|u|u|u|u|u|u|u|u] eqn:Hd.
  - vm_compute in Hbig. now contradiction Hbig.
  - exfalso. symmetry in Hnorm. unfold Decimal.unorm in Hnorm.
    destruct (Decimal.nzhead (Decimal.D0 u)) eqn:Hz;
      try (now apply (DecimalFacts.nzhead_nonzero (Decimal.D0 u) u); rewrite Hz);
      try discriminate.
    inversion Hnorm; subst u. vm_compute in Hbig. now apply Hbig.
  - destruct u; try (vm_compute in Hbig; now contradiction Hbig);
      do 3 eexists; (split; [reflexivity|discriminate]).
  - destruct u; try (vm_compute in Hbig; now contradiction Hbig);
      do 3 eexists; (split; [reflexivity|discriminate]).
  - destruct u; try (vm_compute in Hbig; now contradiction Hbig);
      do 3 eexists; (split; [reflexivity|discriminate]).
  - destruct u; try (vm_compute in Hbig; now contradiction Hbig);
      do 3 eexists; (split; [reflexivity|discriminate]).
  - destruct u; try (vm_compute in Hbig; now contradiction Hbig);
      do 3 eexists; (split; [reflexivity|discriminate]).
  - destruct u; try (vm_compute in Hbig; now contradiction Hbig);
      do 3 eexists; (split; [reflexivity|discriminate]).
  - destruct u; try (vm_compute in Hbig; now contradiction Hbig);
      do 3 eexists; (split; [reflexivity|discriminate]).
  - destruct u; try (vm_compute in Hbig; now contradiction Hbig);
      do 3 eexists; (split; [reflexivity|discriminate]).
  - destruct u; try (vm_compute in Hbig; now contradiction Hbig);
      do 3 eexists; (split; [reflexivity|discriminate]).
Qed.

(** From 10 on a field of width two holds the digits of the number and
    no padding. *)
Lemma format_head (n : Z) :
  10 <= n ->
  exists (c : ascii) (rest : string),
    format_zero_padded 2 n = String c rest /\ c <> "0"%char.
Proof.
  intros Hn. rewrite format_nonneg by lia.
  destruct (decimal_head n Hn) as (c & d & rest & -> & Hc).
  cbn. now exists c, (String d rest).
Qed.

(** C7. For an elapsed time that is not negative the readout is
    [HH:MM:SS.mmm] when the hours are positive and [MM:SS.mmm] otherwise.
    Each field is a string of decimal digits that reads back as its
    component, the minutes and seconds on two characters, the
    milliseconds on three, the hours on exactly two below 100 and, from
    10 hours on, with no zero in front: a field of three digits or more
    is the number and nothing else.  The components are those of the
    exact decomposition of the elapsed time, so nothing is rounded. *)
Theorem C7_format_stopwatch_elapsed (elapsed_ms : Z) :
  0 <= elapsed_ms ->
  exists (hours minutes seconds millis : Z) (hh mm ss mmm : string),
    0 <= hours /\ 0 <= minutes < 60 /\ 0 <= seconds < 60
    /\ 0 <= millis < 1000
    /\ elapsed_ms
       = hours * 3600000 + minutes * 60000 + seconds * 1000 + millis
    /\ read_decimal hh = Some hours /\ read_decimal mm = Some minutes
    /\ read_decimal ss = Some seconds /\ read_decimal mmm = Some millis
    /\ (2 <= String.length hh)%nat
    /\ (hours < 100 -> String.length hh = 2%nat)
    /\ (10 <= hours ->
        exists (c : ascii) (rest : string),
          hh = String c rest /\ c <> "0"%char)
    /\ String.length mm = 2%nat /\ String.length ss = 2%nat
    /\ String.length mmm = 3%nat
    /\ _format_stopwatch_elapsed elapsed_ms
       = if 0 <? hours
         then (hh ++ ":" ++ mm ++ ":" ++ ss ++ "." ++ mmm)%string
         else (mm ++ ":" ++ ss ++ "." ++ mmm)%string.
Proof.
  intros He.
  pose (hours := elapsed_ms / 3600000).
  pose (minutes := (elapsed_ms / 60000) mod 60).
  pose (seconds := (elapsed_ms / 1000) mod 60).
  pose (millis := elapsed_ms mod 1000).
  assert (Hh : 0 <= hours) by (apply Z.div_pos; lia).
  assert (Hm : 0 <= minutes < 60) by (apply Z.mod_pos_bound; lia).
  assert (Hs : 0 <= seconds < 60) by (apply Z.mod_pos_bound; lia).
  assert (Hms : 0 <= millis < 1000) by (apply Z.mod_pos_bound; lia).
  exists hours, minutes, seconds, millis,
    (format_zero_padded 2 hours), (format_zero_padded 2 minutes),
    (format_zero_padded 2 seconds), (format_zero_padded 3 millis).
  repeat (split; try assumption); try lia;
    try (apply read_format; lia);
    try (apply length_format_2; lia);
    try (apply length_format_3; lia);
    try (apply length_format_min; lia).
  - subst hours minutes seconds millis.
    pose proof (Z.div_mod elapsed_ms 1000 ltac:(lia)).
    pose proof (Z.div_mod (elapsed_ms / 1000) 60 ltac:(lia)).
    pose proof (Z.div_mod (elapsed_ms / 1000 / 60) 60 ltac:(lia)).
    rewrite !Z.div_div in * by lia.
    change (1000 * 60) with 60000 in *.
    change (60000 * 60) with 3600000 in *.
    lia.
  - intros Hlt. apply length_format_2; lia.
  - intros Hge. now apply format_head.
Qed.

(** ** Click or drag *)

Lemma same_stopwatch_refl (w : Widget) : same_stopwatch w w.
Proof. unfold same_stopwatch; intuition. Qed.

Lemma same_stopwatch_trans (a b c : Widget) :
  same_stopwatch a b -> same_stopwatch b c -> same_stopwatch a c.
Proof. unfold same_stopwatch; intuition congruence. Qed.

Lemma press_holds (press : MouseEvent) (e : Env) (w : Widget) :
  button_is_left press = true ->
  (mode w = MODE_CLOCK -> native_move_accepted e = false) ->
  let w' := final (mousePressEvent press e w) in
  same_stopwatch w w'
  /\ saved w' = saved w
  /\ press_global_pos w' = Some (globalPos press)
  /\ drag_started w' = false
  /\ pos w' = pos w.
Proof.
  unfold native_move_accepted, same_stopwatch.
  intros Hleft Hnative. destruct w; cbv [mode] in Hnative.
  unfold mousePressEvent. rewrite Hleft.
  py_run; repeat split;
    apply String.eqb_eq in Heqb; specialize (Hnative Heqb);
    rewrite ?Heqo, ?Heqo0 in Hnative; try discriminate.
Qed.

Lemma move_holds (m : MouseEvent) (e : Env) (w : Widget) :
  let w' := final (mouseMoveEvent m e w) in
  same_stopwatch w w'
  /\ saved w' = saved w
  /\ press_global_pos w' = press_global_pos w
  /\ (drag_started w = false ->
      (forall p, press_global_pos w = Some p -> buttons_has_left m = true ->
                 manhattanLength (point_sub (globalPos m) p)
                 <= click_threshold_px w) ->
      drag_started w' = false /\ pos w' = pos w).
Proof.
  unfold same_stopwatch. destruct w.
  py_run; repeat split; intros; try discriminate; try assumption;
    try reflexivity;
    match goal with
    | H : forall p, Some ?q = Some p -> _, Hlt : (_ <? _) = true |- _ =>
        specialize (H q eq_refl eq_refl); apply Z.ltb_lt in Hlt; lia
    end.
Qed.

Lemma moves_hold (press : MouseEvent) (moves : list (Env * MouseEvent)) :
  forall w : Widget,
    press_global_pos w = Some (globalPos press) ->
    let w' := run (map (fun em => (fst em, Move (snd em))) moves) w in
    same_stopwatch w w'
    /\ saved w' = saved w
    /\ press_global_pos w' = Some (globalPos press)
    /\ (drag_started w = false ->
        Forall (fun em => buttons_has_left (snd em) = true ->
                          displacement press (snd em) <= click_threshold_px w)
               moves ->
        drag_started w' = false /\ pos w' = pos w).
Proof.
  induction moves as [|[e m] rest IH]; intros w Hp; simpl.
  - split; [apply same_stopwatch_refl|]. auto.
  - destruct (move_holds m e w) as (Hs & Hsv & Hp' & Hd).
    rewrite Hp in Hp'.
    destruct (IH _ Hp') as (Hs2 & Hsv2 & Hp2 & Hd2).
    split; [eapply same_stopwatch_trans; eassumption|].
    split; [congruence|].
    split; [exact Hp2|].
    intros Hstart Hall. inversion Hall as [|x l Hm Hrest]; subst.
    destruct Hd as [Hd1 Hd1'].
    { exact Hstart. }
    { intros p Hpp Hb. rewrite Hp in Hpp. inversion Hpp; subst.
      now apply Hm. }
    destruct Hd2 as [Hd2 Hd2'].
    { exact Hd1. }
    { destruct Hs as (_ & _ & _ & _ & Hthr). rewrite Hthr. exact Hrest. }
    split; [exact Hd2|congruence].
Qed.

Lemma release_click (release : MouseEvent) (e : Env) (w : Widget) :
  button_is_left release = true ->
  let w' := final (mouseReleaseEvent release e w) in
  (was_click release w = false -> same_stopwatch w w')
  /\ (was_click release w = true ->
      (mode w = MODE_STOPWATCH ->
       stopwatch_running w' = negb (stopwatch_running w))
      /\ (mode w <> MODE_STOPWATCH -> same_stopwatch w w')
      /\ saved w' = saved w /\ pos w' = pos w).
Proof.
  intros Hleft. unfold mouseReleaseEvent. rewrite Hleft.
  unfold same_stopwatch, was_click. destruct w.
  py_run; repeat split; intros; try discriminate; try reflexivity;
    string_facts; try congruence; try contradiction.
Qed.

(** Pointer moves keep the anchor of the drag. *)
Lemma move_keeps_anchor (m : MouseEvent) (e : Env) (w : Widget) :
  let w' := final (mouseMoveEvent m e w) in
  drag_offset w' = drag_offset w
  /\ (drag_started w = true -> drag_started w' = true).
Proof.
  destruct w; py_run; split; intros; try reflexivity; try assumption;
    try discriminate.
Qed.

Lemma moves_keep_anchor (moves : list (Env * MouseEvent)) :
  forall w : Widget,
    let w' := run (map (fun em => (fst em, Move (snd em))) moves) w in
    drag_offset w' = drag_offset w.
Proof.
  induction moves as [|[e m] rest IH]; intros w; simpl; [reflexivity|].
  rewrite IH. apply move_keeps_anchor.
Qed.

Lemma press_anchor (press : MouseEvent) (e : Env) (w : Widget) :
  button_is_left press = true ->
  (mode w = MODE_CLOCK -> native_move_accepted e = false) ->
  drag_offset (final (mousePressEvent press e w))
  = Some (point_sub (globalPos press) (pos w)).
Proof.
  unfold native_move_accepted.
  intros Hleft Hnative. destruct w; cbv [mode] in Hnative.
  unfold mousePressEvent. rewrite Hleft.
  py_run; try reflexivity;
    apply String.eqb_eq in Heqb; specialize (Hnative Heqb);
    rewrite ?Heqo, ?Heqo0 in Hnative; discriminate.
Qed.

(** One pointer move of a gesture: the drag begins on a move with the
    button held beyond the threshold and never ends on a move; while it
    is on, a move with the button held puts the window at the pointer
    minus the anchor, and no other move touches the window. *)
Lemma move_step (m : MouseEvent) (e : Env) (w : Widget) (p off : QPoint) :
  drag_offset w = Some off ->
  press_global_pos w = Some p ->
  let w' := final (mouseMoveEvent m e w) in
  drag_started w'
  = drag_started w
    || (buttons_has_left m
        && (click_threshold_px w
            <? manhattanLength (point_sub (globalPos m) p)))
  /\ pos w' = (if buttons_has_left m && drag_started w'
               then point_sub (globalPos m) off else pos w).
Proof.
  intros Hoff Hp.
  destruct w; cbv [drag_offset press_global_pos] in Hoff, Hp. subst.
  py_run; cbn; rewrite ?Heqb, ?Heqb0, ?Heqb1; cbn;
    try (split; reflexivity);
    destruct (point_sub (globalPos m) off); split; reflexivity.
Qed.

(** The pointer moves of a gesture, from a state in which the press
    point and the anchor are set. *)
Lemma moves_drag (press : MouseEvent) (off : QPoint)
    (moves : list (Env * MouseEvent)) :
  forall w : Widget,
    drag_offset w = Some off ->
    press_global_pos w = Some (globalPos press) ->
    let w' := run (map (fun em => (fst em, Move (snd em))) moves) w in
    drag_started w'
    = drag_started w
      || existsb (fun em => held_beyond (click_threshold_px w) press (snd em))
                 moves
    /\ (drag_started w' = false -> pos w' = pos w).
Proof.
  induction moves as [|[e m] rest IH]; intros w Hoff Hp; simpl.
  - split; [now rewrite orb_false_r|reflexivity].
  - destruct (move_step m e w _ _ Hoff Hp) as [Hd Hpos].
    destruct (move_holds m e w) as (Hs & _ & Hp' & _).
    destruct (move_keeps_anchor m e w) as [Hoff' _].
    rewrite Hoff in Hoff'. rewrite Hp in Hp'.
    destruct (IH _ Hoff' Hp') as [Hd2 Hpos2].
    destruct Hs as (_ & _ & _ & _ & Hthr). rewrite Hthr in Hd2.
    split.
    + rewrite Hd2, Hd. unfold held_beyond, displacement.
      now rewrite orb_assoc.
    + intros Hidle. rewrite (Hpos2 Hidle). rewrite Hd2 in Hidle.
      apply orb_false_elim in Hidle. destruct Hidle as [Hidle _].
      rewrite Hpos, Hidle. now rewrite andb_false_r.
Qed.

(** A pointer move with the button not held changes nothing. *)
Lemma move_released (m : MouseEvent) (e : Env) (w : Widget) :
  buttons_has_left m = false -> mouseMoveEvent m e w = Done tt w.
Proof.
  intros H. unfold mouseMoveEvent, bind, get.
  destruct (drag_offset w); [rewrite H|]; reflexivity.
Qed.

Lemma moves_released (moves : list (Env * MouseEvent)) (w : Widget) :
  forallb (fun em => negb (buttons_has_left (snd em))) moves = true ->
  run (map (fun em => (fst em, Move (snd em))) moves) w = w.
Proof.
  induction moves as [|[e m] rest IH]; simpl; [reflexivity|].
  intros H. apply andb_prop in H. destruct H as [Hm Hrest].
  apply negb_true_iff in Hm. cbn [fst snd] in *.
  rewrite move_released by exact Hm. now apply IH.
Qed.

Lemma run_moves_app (a b : list (Env * MouseEvent)) (w : Widget) :
  run (map (fun em => (fst em, Move (snd em))) (a ++ b)) w
  = run (map (fun em => (fst em, Move (snd em))) b)
        (run (map (fun em => (fst em, Move (snd em))) a) w).
Proof.
  revert w. induction a as [|[e m] rest IH]; intros w; simpl; [reflexivity|].
  apply IH.
Qed.

(** A left release never moves the window, and writes the state file
    exactly when a drag is on. *)
Lemma release_writes (release : MouseEvent) (e : Env) (w : Widget) :
  button_is_left release = true ->
  let w' := final (mouseReleaseEvent release e w) in
  pos w' = pos w
  /\ saved w' = (if drag_started w then payload_of w :: saved w else saved w)
  /\ drag_offset w' = None /\ press_global_pos w' = None
  /\ drag_started w' = false.
Proof.
  intros Hleft. unfold mouseReleaseEvent. rewrite Hleft.
  unfold payload_of. destruct w. py_run; repeat split.
Qed.
(** C4 as stated fails in its second half: a release more than 6 pixels
    from the press is not always treated as a drag.  With no pointer move
    between the press and the release the drag never begins: the release
    is no click, and neither is the window moved nor the state file
    written, as a release after a drag does. *)
Lemma C4_far_release_without_drag :
  let held := run (gesture (desk 2) press_at []) fresh_stopwatch in
  let after := final (mouseReleaseEvent release_far (desk 3) held) in
  6 < displacement press_at release_far
  /\ was_click release_far held = false
  /\ drag_started held = false
  /\ pos after = pos fresh_stopwatch
  /\ saved after = saved fresh_stopwatch
  /\ stopwatch_running after = stopwatch_running fresh_stopwatch.
Proof. vm_compute. repeat split. Qed.

(** C4, amended. A press and a release of the left button with pointer
    moves in between, the native move not taken.  The gesture is a drag
    exactly when one of the moves, the button held, was more than 6
    pixels (Manhattan distance) from the press; the release is a click
    exactly when it is within 6 pixels of the press and the gesture is no
    drag.  A click flips [stopwatch_running] in Stopwatch mode and leaves
    the stopwatch as it was in Clock mode; a release that is no click
    leaves the stopwatch as it was.  Without a drag the window stays
    where it was and nothing is written, wherever the release is.  With
    a drag the release writes the state file once, and the window is
    where it was plus what the pointer moved between the press and the
    last move with the button held. *)
Theorem C4_click_or_drag
    (w : Widget) (e0 er : Env) (press release : MouseEvent)
    (moves : list (Env * MouseEvent)) :
  click_threshold_px w = 6 ->
  button_is_left press = true ->
  button_is_left release = true ->
  (mode w = MODE_CLOCK -> native_move_accepted e0 = false) ->
  let held := run (gesture e0 press moves) w in
  let after := final (mouseReleaseEvent release er held) in
  let dragged := existsb (fun em => held_beyond 6 press (snd em)) moves in
  drag_started held = dragged
  /\ was_click release held
     = (displacement press release <=? 6) && negb dragged
  /\ (was_click release held = true ->
      (mode w = MODE_STOPWATCH ->
       stopwatch_running after = negb (stopwatch_running w))
      /\ (mode w = MODE_CLOCK -> same_stopwatch w after))
  /\ (was_click release held = false -> same_stopwatch w after)
  /\ (dragged = false -> pos after = pos w /\ saved after = saved w)
  /\ (dragged = true ->
      pos after = pos held
      /\ saved after = payload_of held :: saved w
      /\ forall (before later : list (Env * MouseEvent)) (e1 : Env)
                (last : MouseEvent),
           moves = (before ++ (e1, last) :: later)%list ->
           buttons_has_left last = true ->
           forallb (fun em => negb (buttons_has_left (snd em))) later
           = true ->
           px (pos held)
           = px (pos w) + (px (globalPos last) - px (globalPos press))
           /\ py (pos held)
              = py (pos w) + (py (globalPos last) - py (globalPos press))).
Proof.
  intros Hthr Hpl Hrl Hnative held after dragged.
  destruct (press_holds press e0 w Hpl Hnative)
    as (Hs1 & Hsv1 & Hp1 & Hd1 & Hpos1).
  pose proof (press_anchor press e0 w Hpl Hnative) as Hoff1.
  set (pressed := final (mousePressEvent press e0 w)) in *.
  assert (Hthr1 : click_threshold_px pressed = 6).
  { destruct Hs1 as (_ & _ & _ & _ & H). congruence. }
  pose proof (moves_hold press moves _ Hp1) as Hmv. cbv zeta in Hmv.
  destruct (moves_drag press _ moves pressed Hoff1 Hp1) as [Hdrag Hstay].
  change (run _ pressed) with held in Hmv, Hdrag, Hstay.
  rewrite Hd1, Hthr1 in Hdrag. cbn [orb] in Hdrag. fold dragged in Hdrag.
  destruct Hmv as (Hs2 & Hsv2 & Hp2 & _).
  pose proof (same_stopwatch_trans _ _ _ Hs1 Hs2) as Hs.
  assert (Hthr' : click_threshold_px held = 6).
  { destruct Hs as (_ & _ & _ & _ & H). congruence. }
  destruct (release_click release er held Hrl) as [Hno Hyes].
  destruct (release_writes release er held Hrl) as (Hpos & Hsaved & _).
  fold after in Hno, Hyes, Hpos, Hsaved.
  split; [exact Hdrag|].
  split; [unfold was_click; now rewrite Hp2, Hthr', Hdrag|].
  split; [|split; [|split]].
  - intros Hclick. destruct (Hyes Hclick) as (Htoggle & Hsame & _).
    destruct Hs as (Hmode & Hrun & Hrest). split.
    + intros Hm. rewrite Htoggle by congruence. now rewrite Hrun.
    + intros Hm. apply same_stopwatch_trans with held.
      * unfold same_stopwatch; tauto.
      * apply Hsame. rewrite Hmode, Hm. discriminate.
  - intros Hclick.
    apply same_stopwatch_trans with held; [exact Hs|now apply Hno].
  - intros Hidle. rewrite Hidle in Hdrag. rewrite Hdrag in Hsaved.
    split; [|congruence]. rewrite Hpos, (Hstay Hdrag). exact Hpos1.
  - intros Hon. rewrite Hon in Hdrag. rewrite Hdrag in Hsaved.
    split; [exact Hpos|]. split; [congruence|].
    intros before later e1 last Hmoves Hheld Hlater.
    assert (Hhere : pos held
                    = point_sub (globalPos last)
                        (point_sub (globalPos press) (pos w))).
    { unfold held, gesture. cbn [run]. fold pressed.
      rewrite Hmoves, run_moves_app. cbn [map run fst snd dispatch].
      rewrite (moves_released later) by exact Hlater.
      set (start := run (map (fun em => (fst em, Move (snd em))) before)
                        pressed).
      pose proof (moves_hold press before _ Hp1) as Hb. cbv zeta in Hb.
      pose proof (moves_keep_anchor before pressed) as Hoffb.
      cbv zeta in Hoffb. rewrite Hoff1 in Hoffb.
      destruct (moves_drag press _ before pressed Hoff1 Hp1) as [Hdb _].
      fold start in Hb, Hoffb, Hdb.
      destruct Hb as (Hsb & _ & Hpb & _).
      destruct (move_step last e1 start _ _ Hoffb Hpb) as [Hd Hp].
      assert (Hthrb : click_threshold_px start = 6).
      { destruct Hsb as (_ & _ & _ & _ & H). congruence. }
      rewrite Hd1, Hthr1 in Hdb. cbn [orb] in Hdb.
      assert (Hstarted :
                drag_started (final (mouseMoveEvent last e1 start)) = true).
      { rewrite Hd, Hdb, Hthrb, Hheld. cbn [andb].
        unfold dragged in Hon. rewrite Hmoves, existsb_app in Hon.
        cbn [existsb snd] in Hon.
        assert (Hnone : existsb (fun em => held_beyond 6 press (snd em))
                                later = false).
        { clear -Hlater. induction later as [|[e m] rest IH];
            [reflexivity|].
          cbn [forallb existsb snd] in *.
          apply andb_prop in Hlater. destruct Hlater as [Hm Hrest].
          apply negb_true_iff in Hm. unfold held_beyond at 1.
          rewrite Hm. cbn [andb orb]. now apply IH. }
        rewrite Hnone, orb_false_r in Hon.
        unfold held_beyond at 2 in Hon. rewrite Hheld in Hon.
        exact Hon. }
      subst start pressed. rewrite Hp, Hheld, Hstarted. reflexivity. }
    rewrite Hhere. cbn [point_sub px py]. lia.
Qed.

(** ** Repeated mutator calls *)











Lemma set_clock_size_same (v : pyval) (p : bool) (e : Env) (w : Widget) :
  _valid_size v = Val (clock_size w) -> set_clock_size v p e w = Done tt w.
Proof.
  intros H. unfold set_clock_size, bind, get, eval.
  rewrite H, Z.eqb_refl. reflexivity.
Qed.



(** ** Position validity *)

Lemma centred_inside (g : QRect) (w h : Z) :
  2 <= rect_width g -> 2 <= rect_height g -> 1 <= w -> 1 <= h ->
  rect_contains g
    (rect_center (rect_xywh (px (centred_on g w h)) (py (centred_on g w h))
                            w h)) = true.
Proof.
  destruct g as [l t r b].
  cbv [rect_width rect_height rect_contains rect_center rect_xywh
       centred_on rect_left rect_top x1 x2 y1 y2 px py].
  intros Hw Hh Hw1 Hh1.
  destruct (Z.ltb_spec r (l - 1)); [lia|].
  destruct (Z.ltb_spec b (t - 1)); [lia|].
  apply andb_true_intro; split; apply negb_true_iff;
    apply orb_false_intro; apply Z.ltb_ge;
    Z.to_euclidean_division_equations; lia.
Qed.


Lemma on_any_screen_pure (e : Env) (w : Widget) :
  _is_on_any_screen e w
  = Done (existsb (fun g => rect_contains g (rect_center (frameGeometry w)))
                  (screens e)) w.
Proof. reflexivity. Qed.





(** ** Loading the state file *)

Lemma valid_size_idem (v : pyval) (n : Z) :
  _valid_size v = Val n -> _valid_size (PyInt n) = Val n.
Proof.
  intros H. apply valid_size_range in H.
  unfold _valid_size, MIN_CLOCK_SIZE, MAX_CLOCK_SIZE in *; simpl.
  f_equal. lia.
Qed.

Lemma valid_mode_idem (v : pyval) :
  _valid_mode (PyStr (_valid_mode v)) = _valid_mode v.
Proof. destruct (valid_mode_cases v) as [-> | ->]; reflexivity. Qed.

Lemma valid_layer_cases (v : pyval) :
  _valid_layer v = LAYER_TOP \/ _valid_layer v = LAYER_NORMAL
  \/ _valid_layer v = LAYER_BOTTOM.
Proof.
  destruct v; simpl; auto.
  destruct (String.eqb s LAYER_TOP) eqn:Ht; simpl.
  - left. now apply String.eqb_eq.
  - destruct (String.eqb s LAYER_NORMAL) eqn:Hn; simpl.
    + right; left. now apply String.eqb_eq.
    + destruct (String.eqb s LAYER_BOTTOM) eqn:Hb; auto.
      right; right. now apply String.eqb_eq.
Qed.

Lemma valid_layer_idem (v : pyval) :
  _valid_layer (PyStr (_valid_layer v)) = _valid_layer v.
Proof. destruct (valid_layer_cases v) as [-> | [-> | ->]]; reflexivity. Qed.

Lemma valid_theme_idem (v : pyval) (t : string) :
  _valid_theme v = Val t -> _valid_theme (PyStr t) = Val t.
Proof.
  unfold _valid_theme. destruct (hashable v); [|discriminate].
  destruct v; intros H; inversion H; subst; try reflexivity.
  destruct (existsb _ THEME_PRESETS) eqn:He; inversion H; subst.
  - simpl hashable. cbv iota. now rewrite He.
  - reflexivity.
Qed.

Lemma starts_with_app (p l : list ascii) :
  starts_with p l = true -> exists rest, l = (p ++ rest)%list.
Proof.
  revert l. induction p as [|a p IH]; intros l H.
  - now exists l.
  - destruct l as [|b l]; [discriminate|]. simpl in H.
    apply andb_true_iff in H. destruct H as [Hab H].
    apply Ascii.eqb_eq in Hab. subst b.
    destruct (IH l H) as [rest ->]. now exists rest.
Qed.

Lemma starts_with_longer (p l post : list ascii) :
  starts_with p l = true -> starts_with p (l ++ post) = true.
Proof.
  revert l. induction p as [|a p IH]; intros l H; [reflexivity|].
  destruct l as [|b l]; [discriminate|]. simpl in *.
  apply andb_true_iff in H. destruct H as [-> H]. now rewrite IH.
Qed.

Lemma head_len_zero (patterns : list (list ascii)) 
    (nonempty : Forall (fun p => p <> []) patterns) (l : list ascii) :
  head_len patterns l = O
  <-> forall p, In p patterns -> starts_with p l = false.
Proof.
  unfold head_len.
  destruct (find (fun p => starts_with p l) patterns) as [p|] eqn:Hf.
  - apply find_some in Hf. destruct Hf as [Hin Hp]. split.
    + intros H. rewrite Forall_forall in nonempty.
      destruct p; [now apply nonempty in Hin|discriminate].
    + intros H. rewrite (H p Hin) in Hp. discriminate.
  - split; [|reflexivity]. intros _ p Hin.
    now apply (find_none _ _ Hf).
Qed.

Lemma head_len_bound (patterns : list (list ascii)) (l : list ascii) :
  (head_len patterns l <= List.length l)%nat.
Proof.
  unfold head_len.
  destruct (find (fun p => starts_with p l) patterns) as [p|] eqn:Hf;
    [|lia].
  apply find_some in Hf. destruct Hf as [_ Hp].
  apply starts_with_app in Hp. destruct Hp as [rest ->].
  rewrite List.length_app. lia.
Qed.

Lemma head_len_prefix (patterns : list (list ascii)) 
    (nonempty : Forall (fun p => p <> []) patterns) (l post : list ascii) :
  head_len patterns (l ++ post) = O -> head_len patterns l = O.
Proof.
  rewrite !(head_len_zero patterns nonempty). intros H p Hin.
  destruct (starts_with p l) eqn:Hp; [|reflexivity].
  apply (starts_with_longer p l post) in Hp. now rewrite (H p Hin) in Hp.
Qed.

Lemma drop_heads_skip (patterns : list (list ascii)) (k : nat) (l : list ascii) :
  drop_heads patterns k l = drop_heads patterns 0 (skipn k l).
Proof.
  revert k. induction l as [|a l IH]; intros k.
  - now destruct k.
  - destruct k as [|k]; [reflexivity|]. simpl skipn.
    change (drop_heads patterns (S k) (a :: l)) with (drop_heads patterns k l).
    apply IH.
Qed.

Lemma drop_heads_step (patterns : list (list ascii)) (l : list ascii) :
  drop_heads patterns 0 l
  = match head_len patterns l with
    | O => l
    | S k => drop_heads patterns 0 (skipn (S k) l)
    end.
Proof.
  destruct l as [|a l].
  - pose proof (head_len_bound patterns []) as H. simpl in H.
    now destruct (head_len patterns []); [|lia].
  - cbn [drop_heads]. destruct (head_len patterns (a :: l)); [reflexivity|].
    cbn [skipn]. apply drop_heads_skip.
Qed.

Lemma drop_heads_fixed (patterns : list (list ascii)) (l : list ascii) :
  head_len patterns l = O -> drop_heads patterns 0 l = l.
Proof. intros H. now rewrite drop_heads_step, H. Qed.

Lemma drop_heads_spec (patterns : list (list ascii)) (n : nat) :
  forall l : list ascii,
    (List.length l <= n)%nat ->
    head_len patterns (drop_heads patterns 0 l) = O
    /\ exists pre, l = (pre ++ drop_heads patterns 0 l)%list.
Proof.
  induction n as [|n IH]; intros l Hl.
  - destruct l; [|simpl in Hl; lia]. split; [|now exists []].
    cbn [drop_heads]. pose proof (head_len_bound patterns []) as H. simpl in H. lia.
  - rewrite drop_heads_step.
    destruct (head_len patterns l) as [|k] eqn:Hk.
    + split; [exact Hk|now exists []].
    + pose proof (head_len_bound patterns l) as Hb. rewrite Hk in Hb.
      assert (Hshort : (List.length (skipn (S k) l) <= n)%nat)
        by (rewrite List.length_skipn; lia).
      destruct (IH _ Hshort) as [Hhead [pre Hpre]].
      split; [exact Hhead|].
      exists (firstn (S k) l ++ pre)%list.
      rewrite <- app_assoc, <- Hpre. symmetry. apply firstn_skipn.
Qed.

Lemma drop_heads_head (patterns : list (list ascii)) (l : list ascii) :
  head_len patterns (drop_heads patterns 0 l) = O.
Proof. now apply (drop_heads_spec patterns (List.length l) l). Qed.

Lemma drop_heads_suffix (patterns : list (list ascii)) (l : list ascii) :
  exists pre, l = (pre ++ drop_heads patterns 0 l)%list.
Proof. now apply (drop_heads_spec patterns (List.length l) l). Qed.

Lemma drop_heads_idem (patterns : list (list ascii)) (l : list ascii) :
  drop_heads patterns 0 (drop_heads patterns 0 l) = drop_heads patterns 0 l.
Proof. apply drop_heads_fixed, drop_heads_head. Qed.

Lemma drop_heads_incl (patterns : list (list ascii)) (c : ascii) (l : list ascii) :
  In c (drop_heads patterns 0 l) -> In c l.
Proof.
  intros H. destruct (drop_heads_suffix patterns l) as [pre Hpre].
  rewrite Hpre. apply in_or_app. now right.
Qed.


Lemma spaces_nonempty : Forall (fun p : list ascii => p <> []) SPACES.
Proof. unfold SPACES. vm_compute. repeat constructor; discriminate. Qed.

Lemma spaces_reversed_nonempty :
  Forall (fun p : list ascii => p <> []) SPACES_REVERSED.
Proof. vm_compute. repeat constructor; discriminate. Qed.

Lemma strip_chars_ends (l : list ascii) :
  head_len SPACES (strip_chars l) = O
  /\ head_len SPACES_REVERSED (rev (strip_chars l)) = O.
Proof.
  unfold strip_chars, lstrip. rewrite rev_involutive.
  split.
  2: { apply drop_heads_head. }
  destruct (drop_heads_suffix SPACES_REVERSED (rev (drop_heads SPACES 0 l)))
    as [pre Hpre].
  apply (f_equal (@rev ascii)) in Hpre.
  rewrite rev_involutive, rev_app_distr in Hpre.
  apply (head_len_prefix SPACES spaces_nonempty _ (rev pre)).
  rewrite <- Hpre. apply drop_heads_head.
Qed.

Lemma strip_chars_fixed (l : list ascii) :
  head_len SPACES l = O -> head_len SPACES_REVERSED (rev l) = O ->
  strip_chars l = l.
Proof.
  intros H1 H2. unfold strip_chars, lstrip.
  rewrite (drop_heads_fixed SPACES l H1).
  rewrite (drop_heads_fixed SPACES_REVERSED (rev l) H2).
  apply rev_involutive.
Qed.

Lemma strip_chars_idem (l : list ascii) :
  strip_chars (strip_chars l) = strip_chars l.
Proof.
  destruct (strip_chars_ends l) as [H1 H2]. now apply strip_chars_fixed.
Qed.

Lemma strip_chars_incl (c : ascii) (l : list ascii) :
  In c (strip_chars l) -> In c l.
Proof.
  unfold strip_chars, lstrip. intros H.
  apply in_rev in H. apply drop_heads_incl in H.
  apply in_rev in H. now apply drop_heads_incl in H.
Qed.

(** A text without whitespace has no space character. *)
Lemma has_space_space (l : list ascii) :
  has_space l = false -> ~ In " "%char l.
Proof.
  induction l as [|a l IH]; [intros _ []|].
  cbn [has_space]. intros H. apply orb_false_iff in H. destruct H as [Hh Hr].
  intros [->|Hin]; [|now apply IH].
  apply negb_false_iff, Nat.eqb_eq in Hh.
  rewrite (head_len_zero SPACES spaces_nonempty) in Hh.
  specialize (Hh [" "%char]). 
  assert (Hin : In [" "%char] SPACES) by (vm_compute; tauto).
  specialize (Hh Hin). simpl in Hh. discriminate.
Qed.

Lemma starts_with_refl (p rest : list ascii) :
  starts_with p (p ++ rest) = true.
Proof.
  induction p as [|a p IH]; [reflexivity|].
  cbn. now rewrite Ascii.eqb_refl.
Qed.

Lemma starts_with_both (p q l : list ascii) :
  starts_with p l = true -> starts_with q l = true ->
  starts_with p q = true \/ starts_with q p = true.
Proof.
  revert q l. induction p as [|a p IH]; intros q l Hp Hq; [now left|].
  destruct q as [|b q]; [now right|].
  destruct l as [|c l]; [discriminate|]. cbn in *.
  apply andb_true_iff in Hp. destruct Hp as [Hac Hp].
  apply andb_true_iff in Hq. destruct Hq as [Hbc Hq].
  apply Ascii.eqb_eq in Hac, Hbc. subst.
  rewrite Ascii.eqb_refl. cbn. exact (IH q l Hp Hq).
Qed.

Lemma list_ascii_eqb_eq (a b : list ascii) :
  list_ascii_eqb a b = true -> a = b.
Proof.
  unfold list_ascii_eqb. revert b.
  induction a as [|x a IH]; intros [|y b] H; cbn in H; try discriminate;
    [reflexivity|].
  apply andb_true_iff in H. destruct H as [H1 H2].
  apply andb_true_iff in H1. destruct H1 as [Hxy H1].
  apply andb_true_iff in H2. destruct H2 as [_ H2].
  apply Ascii.eqb_eq in Hxy. subst. f_equal. apply IH.
  now rewrite H1, H2.
Qed.

(** No whitespace character is encoded as the start of another. *)
Lemma spaces_prefix_free (p q : list ascii) :
  In p SPACES -> In q SPACES -> starts_with p q = true -> p = q.
Proof.
  intros Hp Hq H.
  assert (Hall : forallb (fun p => forallb (fun q =>
                    implb (starts_with p q) (list_ascii_eqb p q)) SPACES)
                   SPACES = true) by (vm_compute; reflexivity).
  rewrite forallb_forall in Hall. specialize (Hall p Hp).
  rewrite forallb_forall in Hall. specialize (Hall q Hq).
  rewrite H in Hall. now apply list_ascii_eqb_eq.
Qed.

Lemma head_len_utf8 (c : N) (rest : list ascii) :
  In c WHITESPACE ->
  head_len SPACES (utf8 c ++ rest) = List.length (utf8 c).
Proof.
  intros Hc.
  assert (Hin : In (utf8 c) SPACES) by (unfold SPACES; now apply in_map).
  unfold head_len.
  destruct (find (fun p => starts_with p (utf8 c ++ rest)) SPACES)
    as [p|] eqn:Hf.
  - apply find_some in Hf. destruct Hf as [Hp Hs].
    destruct (starts_with_both p (utf8 c) _ Hs (starts_with_refl _ rest))
      as [H|H].
    + now rewrite (spaces_prefix_free p (utf8 c) Hp Hin H).
    + now rewrite <- (spaces_prefix_free (utf8 c) p Hin Hp H).
  - apply (find_none _ _ Hf) in Hin.
    now rewrite starts_with_refl in Hin.
Qed.

Lemma utf8_nonempty (c : N) : utf8 c <> [].
Proof.
  unfold utf8.
  destruct (c <? 128)%N; [discriminate|].
  destruct (c <? 2048)%N; [discriminate|].
  destruct (c <? 65536)%N; discriminate.
Qed.

Lemma lstrip_blank (l : list ascii) : blank_text l -> lstrip l = [].
Proof.
  intros (cs & Hcs & ->). unfold lstrip.
  induction Hcs as [|c cs Hc _ IH]; [reflexivity|].
  cbn [flat_map]. rewrite drop_heads_step, (head_len_utf8 c _ Hc).
  destruct (List.length (utf8 c)) as [|k] eqn:Hlen.
  - destruct (utf8 c) eqn:Hu; [now apply utf8_nonempty in Hu|discriminate].
  - rewrite <- Hlen.
    replace (skipn (List.length (utf8 c)) (utf8 c ++ flat_map utf8 cs))
      with (flat_map utf8 cs); [exact IH|].
    rewrite skipn_app, skipn_all, Nat.sub_diag. reflexivity.
Qed.

Lemma py_strip_blank (s : string) :
  blank_text (list_ascii_of_string s) -> py_strip s = "".
Proof.
  intros H. unfold py_strip, strip_chars.
  now rewrite (lstrip_blank _ H).
Qed.

Lemma py_strip_idem (s : string) : py_strip (py_strip s) = py_strip s.
Proof.
  unfold py_strip.
  now rewrite list_ascii_of_string_of_list_ascii, strip_chars_idem.
Qed.

Lemma normalize_readout_font_idem (v : pyval) :
  _normalize_readout_font (PyStr (_normalize_readout_font v))
  = _normalize_readout_font v.
Proof.
  destruct v; try reflexivity. simpl.
  destruct (String.eqb (py_strip s) "") eqn:He; [reflexivity|].
  now rewrite py_strip_idem, He.
Qed.

(** A read or parse failure, or a payload that is not an object, loads as
    the empty record; starting then is starting with no state file. *)
Lemma load_failure_is_empty :
  load_saved_state ReadOSError = []
  /\ load_saved_state ReadValueError = []
  /\ (forall v : pyval,
         (forall d, v <> PyDict d) -> load_saved_state (ReadJSON v) = [])
  /\ (forall (args : Args) (e : Env),
         start args ReadValueError e = start args ReadOSError e
         /\ start args (ReadJSON (PyDict [])) e = start args ReadOSError e).
Proof.
  repeat split; try reflexivity.
  intros v Hv. destruct v; try reflexivity. now destruct (Hv entries).
Qed.

(** With no command-line setting, each setting of the started widget is
    the normalised value of its own field of the file, provided the size
    is not an infinite float, the theme can be hashed and the position
    does not overflow. *)
Lemma start_from_file (d : pydict) (e : Env) (n : Z) (t : string) :
  _valid_size (dict_get d "size") = Val n ->
  _valid_theme (dict_get d "theme") = Val t ->
  position_readable d ->
  exists w : Widget,
    start no_args (ReadJSON (PyDict d)) e = Done tt w
    /\ clock_size w = n
    /\ mode w = _valid_mode (dict_get d "mode")
    /\ layer w = _valid_layer (dict_get d "layer")
    /\ color_theme w = t
    /\ readout_font_family w
       = _normalize_readout_font (dict_get d "readout_font").
Proof.
  intros Hsize Htheme Hpos. unfold position_readable in Hpos.
  unfold start, main, __init__, restore_position.
  cbn [load_saved_state no_args a_size a_mode a_layer a_theme
       a_readout_font a_x a_y arg_or].
  rewrite Hsize, Htheme.
  cbv [bind eval].
  rewrite (valid_size_idem _ _ Hsize), (valid_theme_idem _ _ Htheme).
  rewrite valid_mode_idem, !valid_layer_idem, normalize_readout_font_idem.
  destruct (res_bind (res_bind (dict_item d "x") py_int) _)
    as [[x y]|[]]; try contradiction;
    py_run; eexists; (split; [reflexivity|]); repeat split;
    apply valid_layer_idem.
Qed.

Example start_theme_list :
  start no_args theme_list_file (desk 0) = Raised TypeError QWidget_new.
Proof. reflexivity. Qed.
Example start_mode_number :
  let w := final (start no_args mode_number_file (desk 0)) in
  (clock_size w, mode w, layer w, color_theme w, readout_font_family w, pos w)
  = (300, "clock", "normal", "ocean", "Fira Code", mkPoint 40 60).
Proof. reflexivity. Qed.

(** C8. Reading or parsing failures do load as the empty record (see
    [load_failure_is_empty]) and a damaged mode, layer or font is replaced
    by its default alone, but not every damaged field is: a theme that is
    a list, a size or a position that is infinite raise an exception that
    nothing catches, and start-up stops with no widget at all.  The file
    with a number for its mode shows what the others should have done. *)
Theorem C8_damaged_field_stops_startup :
  (let w := final (start no_args mode_number_file (desk 0)) in
   returned (start no_args mode_number_file (desk 0)) = true
   /\ mode w = DEFAULT_MODE /\ clock_size w = 300 /\ layer w = LAYER_NORMAL
   /\ color_theme w = "ocean" /\ readout_font_family w = "Fira Code"
   /\ pos w = mkPoint 40 60)
  /\ start no_args theme_list_file (desk 0) = Raised TypeError QWidget_new
  /\ start no_args size_inf_file (desk 0) = Raised OverflowError QWidget_new
  /\ returned (start no_args x_inf_file (desk 0)) = false.
Proof. vm_compute. repeat split. Qed.

(** ** The theorems at sample inputs *)

Lemma C1_read_sample :
  _current_stopwatch_ms (desk (7 # 2)) running_stopwatch
  = Done 2500 running_stopwatch.
Proof.
  destruct (C1_current_stopwatch_ms (desk (7 # 2)) running_stopwatch)
    as (ms & Hread & _ & Hrun & _).
  rewrite Hread. f_equal.
  destruct (Hrun eq_refl) as [_ Hwhole].
  destruct Hwhole as [-> _]; [vm_compute; discriminate|].
  vm_compute; reflexivity.
Defined.

Lemma C2_switch_sample :
  exists w1 w2 : Widget,
    set_mode (PyStr "clock") true (desk (7 # 2)) running_stopwatch = Done tt w1
    /\ set_mode (PyStr "stopwatch") true (desk 9) w1 = Done tt w2
    /\ stopwatch_running w2 = false
    /\ _current_stopwatch_ms (desk 20) w2 = Done 2500 w2.
Proof.
  destruct (C2_set_mode_folds_running_time (desk (7 # 2)) (desk 9) (desk 20)
              running_stopwatch (PyStr "clock") true true)
    as (ms & w1 & w2 & Hms & H1 & _ & _ & _ & H2 & _ & Hr & Hread).
  - reflexivity.
  - reflexivity.
  - discriminate.
  - exists w1, w2. repeat split; try assumption.
    rewrite Hread. f_equal. vm_compute in Hms. now inversion Hms.
Defined.

Lemma C3_reset_sample :
  exists w' : Widget,
    reset_stopwatch (desk 5) running_stopwatch = Done tt w'
    /\ stopwatch_running w' = true
    /\ _current_stopwatch_ms (desk 5) w' = Done 0 w'.
Proof.
  destruct (C3_reset_stopwatch (desk 5) running_stopwatch)
    as (w' & Hrun & _ & Hflag & Hon & _).
  exists w'. split; [exact Hrun|]. split; [exact Hflag|].
  now destruct (Hon eq_refl) as (_ & H0 & _).
Defined.

Lemma C4_click_sample :
  let held := run (gesture (desk 2) press_at [(desk 3, small_move)])
                  fresh_stopwatch in
  let dragged := run (gesture (desk 2) press_at
                        [(desk 3, small_move); (desk 4, far_move)])
                     fresh_stopwatch in
  was_click release_near held = true
  /\ stopwatch_running (final (mouseReleaseEvent release_near (desk 4) held))
     = true
  /\ was_click release_far held = false
  /\ drag_started dragged = true
  /\ px (pos dragged) = px (pos fresh_stopwatch) + 100
  /\ py (pos dragged) = py (pos fresh_stopwatch) + 60.
Proof.
  pose proof (C4_click_or_drag fresh_stopwatch (desk 2) (desk 4) press_at
                release_near [(desk 3, small_move)]
                eq_refl eq_refl eq_refl (fun _ => eq_refl))
    as (_ & Hclick & Hdone & _).
  pose proof (C4_click_or_drag fresh_stopwatch (desk 2) (desk 4) press_at
                release_far [(desk 3, small_move)]
                eq_refl eq_refl eq_refl (fun _ => eq_refl))
    as (_ & Hfar & _).
  pose proof (C4_click_or_drag fresh_stopwatch (desk 2) (desk 5) press_at
                release_far [(desk 3, small_move); (desk 4, far_move)]
                eq_refl eq_refl eq_refl (fun _ => eq_refl))
    as (Hdrag & _ & _ & _ & _ & Hon).
  destruct (Hon eq_refl) as (_ & _ & Hwhere).
  destruct (Hwhere [(desk 3, small_move)] [] (desk 4) far_move
              eq_refl eq_refl eq_refl) as [Hx Hy].
  destruct (Hdone Hclick) as [Htoggle _].
  split; [exact Hclick|]. split; [now rewrite Htoggle|].
  split; [exact Hfar|]. split; [exact Hdrag|].
  split; [exact Hx|exact Hy].
Defined.

Lemma C5_size_sample :
  size_in_range (final (set_clock_size (PyStr "huge") true (desk 1) fresh_clock))
  /\ size_in_range (final (set_clock_size (PyInt 100000) true (desk 1)
                             fresh_clock)).
Proof.
  destruct C5_stored_size_in_range as [Hset _].
  split.
  - destruct (Hset (PyStr "huge") true (desk 1) fresh_clock) as (H & _).
    now destruct (H eq_refl).
  - destruct (Hset (PyInt 100000) true (desk 1) fresh_clock) as (_ & _ & H).
    apply H. vm_compute. split; discriminate.
Defined.

Lemma C7_format_sample :
  exists hh mm ss mmm : string,
    _format_stopwatch_elapsed 3723999
    = (hh ++ ":" ++ mm ++ ":" ++ ss ++ "." ++ mmm)%string
    /\ read_decimal hh = Some 1 /\ read_decimal mm = Some 2
    /\ read_decimal ss = Some 3 /\ read_decimal mmm = Some 999.
Proof.
  destruct (C7_format_stopwatch_elapsed 3723999)
    as (h & m & s & ms & hh & mm & ss & mmm & Hh & Hm & Hs & Hms & Hsum
        & Rh & Rm & Rs & Rms & _ & _ & _ & _ & _ & _ & Hfmt).
  - lia.
  - assert (h = 1 /\ m = 2 /\ s = 3 /\ ms = 999) as (-> & -> & -> & ->)
      by lia.
    exists hh, mm, ss, mmm. repeat split; assumption.
Defined.


Lemma C10_default_sample :
  _valid_size (PyStr "12px") = Val 220 /\ _valid_size PyNone = Val 220
  /\ _valid_size (PyStr (file_separator ++ "300")) = Val 220
  /\ _valid_size (PyStr (ones 4301)) = Val 220
  /\ _valid_size (PyStr (no_break_space ++ "300")) = Val 300
  /\ _valid_size (PyStr fullwidth_300) = Val 300.
Proof.
  destruct C10_unparseable_size_is_default
    as (_ & _ & Hnone & Hstr & Hchar & Hmany & Hparse & _).
  split; [apply Hstr; reflexivity|]. split; [exact Hnone|].
  split; [|split; [|split]].
  - apply (Hchar _ 28%N); [vm_compute; tauto|reflexivity].
  - apply Hmany. vm_compute. reflexivity.
  - apply (Hparse _ 300). vm_compute. reflexivity.
  - apply (Hparse _ 300). vm_compute. reflexivity.
Defined.

(** * Further properties of the code *)

(** ** What every session keeps *)

Lemma valid_theme_known (v : pyval) (t : string) :
  _valid_theme v = Val t -> known_theme t.
Proof.
  unfold _valid_theme, known_theme. destruct (hashable v); [|discriminate].
  destruct v; intros H; inversion H; subst; try reflexivity.
  destruct (existsb _ THEME_PRESETS) eqn:He; inversion H; subst;
    [exact He|reflexivity].
Qed.

(** Uses the outcome of the tests taken so far in the hypotheses and the
    goal that still mention them. *)
Ltac settle_tests :=
  try congruence;
  repeat match goal with
         | H : ?t = true, H' : context [if ?t then _ else _] |- _ =>
             rewrite H in H'
         | H : ?t = false, H' : context [if ?t then _ else _] |- _ =>
             rewrite H in H'
         | H : ?t = true |- context [if ?t then _ else _] => rewrite H
         | H : ?t = false |- context [if ?t then _ else _] => rewrite H
         end.

Ltac use_normalisers :=
  use_size_range;
  repeat match goal with
         | H : _valid_theme _ = Val _ |- _ => apply valid_theme_known in H
         end.

Lemma init_settings (size l m th f : pyval) (e : Env) (w : Widget) :
  FloatingAnalogClock size l m th f e = Done tt w ->
  settings_valid w /\ footprint_ok w /\ flags_ok w /\ timer_ok w
  /\ saved w = [].
Proof.
  unfold settings_valid, footprint_ok, flags_ok, timer_ok, size_in_range.
  py_run; intros H; inversion H; subst; clear H; use_normalisers;
    cbv [clock_size mode layer color_theme readout_font_family
         readout_height width height stays_on_top stays_on_bottom
         timer_interval stopwatch_running saved];
    try congruence;
    repeat split; try assumption; try apply Heqr;
    try apply valid_mode_cases; try apply valid_layer_cases;
    try apply normalize_readout_font_idem.
Qed.

Lemma dispatch_settings (ev : Event) (e : Env) (w : Widget) :
  settings_valid w -> settings_valid (final (dispatch ev e w)).
Proof.
  unfold settings_valid, size_in_range.
  intros (Hsize & Hmode & Hlayer & Htheme & Hfont).
  destruct w; destruct ev; py_run; use_normalisers;
    cbv [clock_size mode layer color_theme readout_font_family] in *;
    repeat split; try assumption; try lia;
    try apply valid_mode_cases; try apply valid_layer_cases;
    try apply normalize_readout_font_idem.
Qed.

Lemma dispatch_footprint (ev : Event) (e : Env) (w : Widget) :
  footprint_ok w -> footprint_ok (final (dispatch ev e w)).
Proof.
  unfold footprint_ok.
  intros (Hrh & Hw & Hh).
  destruct w; destruct ev; py_run;
    cbv [clock_size mode readout_height width height] in *;
    settle_tests; repeat split; try assumption; try reflexivity.
Qed.

Lemma dispatch_flags (ev : Event) (e : Env) (w : Widget) :
  flags_ok w -> flags_ok (final (dispatch ev e w)).
Proof.
  unfold flags_ok. intros (Htop & Hbottom).
  destruct w; destruct ev; py_run;
    cbv [layer stays_on_top stays_on_bottom] in *;
    settle_tests; repeat split; try assumption; try reflexivity.
Qed.

Lemma dispatch_timer (ev : Event) (e : Env) (w : Widget) :
  timer_ok w -> timer_ok (final (dispatch ev e w)).
Proof.
  unfold timer_ok. intros Htimer.
  destruct w; destruct ev; py_run;
    cbv [mode stopwatch_running timer_interval] in *;
    settle_tests; try assumption; try reflexivity.
Qed.

Lemma dispatch_saved (ev : Event) (e : Env) (w : Widget) :
  settings_valid w -> Forall payload_valid (saved w) ->
  Forall payload_valid (saved (final (dispatch ev e w))).
Proof.
  unfold settings_valid, size_in_range, payload_valid.
  intros (Hsize & Hmode & Hlayer & Htheme & Hfont) Hsaved.
  destruct w; destruct ev; py_run; use_normalisers;
    cbv [clock_size mode layer color_theme readout_font_family saved
         p_size p_mode p_layer p_theme p_readout_font] in *;
    repeat (apply Forall_cons; [|try assumption]); try assumption;
    cbv [p_size p_mode p_layer p_theme p_readout_font];
    repeat split; try assumption; try lia;
    try apply valid_mode_cases; try apply valid_layer_cases;
    try apply normalize_readout_font_idem.
Qed.

(** All of it at once, for the session lemmas. *)
Lemma dispatch_settled (ev : Event) (e : Env) (w : Widget) :
  settings_valid w /\ footprint_ok w /\ flags_ok w /\ timer_ok w
  /\ Forall payload_valid (saved w) ->
  let w' := final (dispatch ev e w) in
  settings_valid w' /\ footprint_ok w' /\ flags_ok w' /\ timer_ok w'
  /\ Forall payload_valid (saved w').
Proof.
  intros (Hs & Hf & Hfl & Ht & Hp). cbv zeta.
  split; [now apply dispatch_settings|].
  split; [now apply dispatch_footprint|].
  split; [now apply dispatch_flags|].
  split; [now apply dispatch_timer|now apply dispatch_saved].
Qed.

Lemma run_settled (trace : list (Env * Event)) :
  forall w : Widget,
    settings_valid w /\ footprint_ok w /\ flags_ok w /\ timer_ok w
    /\ Forall payload_valid (saved w) ->
    let w' := run trace w in
    settings_valid w' /\ footprint_ok w' /\ flags_ok w' /\ timer_ok w'
    /\ Forall payload_valid (saved w').
Proof.
  induction trace as [|[e ev] rest IH]; intros w H; simpl; [exact H|].
  apply IH. now apply dispatch_settled.
Qed.

(** [py_run] that also opens the pairs and the exceptions a method takes
    apart. *)
Ltac py_run_pairs :=
  py_run;
  repeat (match goal with
          | |- context [let (_, _) := ?p in _] => is_var p; destruct p
          | |- context [match ?x with
                        | TypeError => _
                        | ValueError => _
                        | KeyError => _
                        | OverflowError => _
                        end] => is_var x; destruct x
          end; py_run).

Lemma bind_done {A B} (m : Py A) (k : A -> Py B) (e : Env) (w w2 : Widget)
    (b : B) :
  bind m k e w = Done b w2 ->
  exists (a : A) (w1 : Widget), m e w = Done a w1 /\ k a e w1 = Done b w2.
Proof.
  unfold bind. destruct (m e w) as [a w1|x w1]; [|discriminate].
  intros H. now exists a, w1.
Qed.

Lemma eval_done {A} (r : res A) (e : Env) (w w1 : Widget) (a : A) :
  eval r e w = Done a w1 -> r = Val a /\ w1 = w.
Proof.
  unfold eval. destruct r; intros H; inversion H; auto.
Qed.

Lemma init_at_rest (size l m th f : pyval) (e : Env) (w0 w : Widget) :
  __init__ size l m th f e w0 = Done tt w ->
  at_rest w /\ settings_valid w /\ footprint_ok w /\ flags_ok w /\ timer_ok w
  /\ saved w = saved w0 /\ visible w = visible w0.
Proof.
  unfold at_rest, settings_valid, footprint_ok, flags_ok, timer_ok,
    size_in_range.
  destruct w0.
  py_run; intros H; inversion H; subst; clear H; use_normalisers;
    cbv [clock_size mode layer color_theme readout_font_family
         readout_height width height stays_on_top stays_on_bottom
         timer_interval stopwatch_running stopwatch_elapsed_ms saved
         click_threshold_px drag_offset press_global_pos drag_started
         visible];
    try congruence;
    repeat split; try assumption; try apply Heqr;
    try apply valid_mode_cases; try apply valid_layer_cases;
    try apply normalize_readout_font_idem.
Qed.

(** [restore_position] moves the window and may write the state file;
    it touches nothing else. *)
Lemma restore_position_frame (cx cy : option Z) (state : pydict) (e : Env)
    (w : Widget) :
  exists (p : QPoint) (s : list Payload),
    final (restore_position cx cy state e w) = upd_saved s (upd_pos p w)
    /\ (s = saved w
        \/ s = mkPayload (px p) (py p) (clock_size w) (mode w) (layer w)
                 (color_theme w) (readout_font_family w) :: saved w).
Proof.
  destruct w; py_run_pairs; do 2 eexists;
    (split; [reflexivity|]); cbv [saved]; auto.
Qed.

Lemma restore_position_settled (cx cy : option Z) (state : pydict) (e : Env)
    (w : Widget) :
  settled w -> at_rest w ->
  let w' := final (restore_position cx cy state e w) in
  settled w' /\ at_rest w' /\ visible w' = visible w.
Proof.
  intros Hs Hr. cbv zeta.
  destruct (restore_position_frame cx cy state e w) as (p & s & -> & Hsaved).
  unfold settled, at_rest, settings_valid, footprint_ok, flags_ok, timer_ok,
    size_in_range in *.
  destruct w;
    cbv [upd_saved upd_pos clock_size mode layer color_theme
         readout_font_family readout_height width height stays_on_top
         stays_on_bottom timer_interval stopwatch_running
         stopwatch_elapsed_ms saved click_threshold_px drag_offset
         press_global_pos drag_started visible pos] in *.
  destruct Hs as (Hset & Hf & Hfl & Ht & Hp).
  repeat split; try apply Hset; try apply Hf; try apply Hfl; try apply Hr;
    try exact Ht.
  destruct Hsaved as [-> | ->]; [exact Hp|].
  apply Forall_cons; [|exact Hp].
  unfold payload_valid; cbv [p_size p_mode p_layer p_theme p_readout_font].
  exact Hset.
Qed.

Lemma set_layer_at_rest (v : pyval) (p f : bool) (e : Env) (w : Widget) :
  at_rest w -> at_rest (final (set_layer v p f e w)).
Proof.
  unfold at_rest. intros H.
  destruct w; py_run;
    cbv [stopwatch_running stopwatch_elapsed_ms click_threshold_px
         drag_offset press_global_pos drag_started] in *; exact H.
Qed.

(** What [main] hands to the event loop. *)
Lemma start_settled (args : Args) (file : read_outcome) (e : Env)
    (w : Widget) :
  start args file e = Done tt w -> settled w /\ at_rest w.
Proof.
  unfold start, main. intros H.
  apply bind_done in H as (n & w1 & H1 & H).
  apply eval_done in H1 as [_ ->].
  apply bind_done in H as (t & w2 & H2 & H).
  apply eval_done in H2 as [_ ->].
  apply bind_done in H as ([] & w3 & Hinit & H).
  apply init_at_rest in Hinit
    as (Hrest & Hset & Hfoot & Hflags & Htimer & Hsaved & _).
  assert (Hs3 : settled w3).
  { unfold settled. rewrite Hsaved. repeat split; try assumption;
      try apply Hset; try apply Hfoot; try apply Hflags.
    apply Forall_nil. }
  apply bind_done in H as ([] & w4 & Hpos & H).
  pose proof (restore_position_settled (a_x args) (a_y args)
                (load_saved_state file) e w3 Hs3 Hrest) as Hr4.
  cbv zeta in Hr4. rewrite Hpos in Hr4. cbn [final] in Hr4.
  destruct Hr4 as (Hs4 & Hrest4 & _).
  apply bind_done in H as ([] & w5 & Hvis & H).
  inversion Hvis; subst w5; clear Hvis.
  assert (Hs5 : settled (upd_visible true w4) /\ at_rest (upd_visible true w4)).
  { destruct w4; exact (conj Hs4 Hrest4). }
  destruct Hs5 as [Hs5 Hrest5].
  match type of H with
  | set_layer ?v ?p ?f e _ = _ =>
      pose proof (dispatch_settled (CallSetLayer v p f) e _ Hs5) as Hs;
      pose proof (set_layer_at_rest v p f e _ Hrest5) as Hr
  end.
  cbv zeta in Hs. cbn [dispatch] in Hs. rewrite H in Hs, Hr.
  exact (conj Hs Hr).
Qed.

Lemma session_settled (args : Args) (file : read_outcome) (e : Env)
    (w : Widget) (trace : list (Env * Event)) :
  start args file e = Done tt w -> settled (run trace w).
Proof.
  intros H. apply run_settled. now apply start_settled in H.
Qed.

(** X1. In every session, from start-up on and after any sequence of
    menu calls and pointer events, the settings of the widget are values
    its normalisers return: the size is between 120 and 640, the mode is
    ["clock"] or ["stopwatch"], the layer one of the three layers, the
    theme a key of [THEME_PRESETS], the font a name the font normaliser
    leaves as it is.  The same holds of every record the session wrote to
    the state file. *)
Theorem X1_settings_valid_throughout (args : Args) (file : read_outcome)
    (e : Env) (w : Widget) (trace : list (Env * Event)) :
  start args file e = Done tt w ->
  settings_valid (run trace w)
  /\ Forall payload_valid (saved (run trace w)).
Proof.
  intros H. destruct (session_settled args file e w trace H)
    as (Hs & _ & _ & _ & Hp).
  exact (conj Hs Hp).
Qed.

(** X2. In every session the window is as large as the settings say: as
    wide as the clock size, as high as the clock size in Clock mode and
    higher by the readout band, [max(52, size // 4)], in Stopwatch mode. *)
Theorem X2_window_footprint_throughout (args : Args) (file : read_outcome)
    (e : Env) (w : Widget) (trace : list (Env * Event)) :
  start args file e = Done tt w ->
  let w' := run trace w in
  width w' = clock_size w'
  /\ (mode w' = MODE_CLOCK -> height w' = clock_size w')
  /\ (mode w' = MODE_STOPWATCH ->
      height w' = clock_size w' + Z.max 52 (clock_size w' / 4)).
Proof.
  intros H. destruct (session_settled args file e w trace H)
    as (_ & (Hrh & Hw & Hh) & _).
  cbv zeta. split; [exact Hw|]. rewrite Hh, Hrh.
  split; intros ->; cbn; lia.
Qed.

(** X3. In every session the stacking hints of the window follow the
    layer: stay-on-top exactly in layer ["top"], stay-on-bottom exactly in
    layer ["bottom"], and never both. *)
Theorem X3_window_flags_throughout (args : Args) (file : read_outcome)
    (e : Env) (w : Widget) (trace : list (Env * Event)) :
  start args file e = Done tt w ->
  let w' := run trace w in
  (stays_on_top w' = true <-> layer w' = LAYER_TOP)
  /\ (stays_on_bottom w' = true <-> layer w' = LAYER_BOTTOM)
  /\ stays_on_top w' && stays_on_bottom w' = false.
Proof.
  intros H. destruct (session_settled args file e w trace H)
    as (_ & _ & (Ht & Hb) & _).
  cbv zeta. rewrite Ht, Hb. rewrite !String.eqb_eq.
  repeat split; try tauto.
  destruct (String.eqb_spec (layer (run trace w)) LAYER_TOP) as [->|];
    reflexivity.
Qed.

(** X4. In every session the refresh timer follows the mode and the
    stopwatch: 1000 ms in Clock mode, 10 ms in Stopwatch mode while the
    stopwatch runs, 33 ms in Stopwatch mode while it is stopped. *)
Theorem X4_refresh_interval_throughout (args : Args) (file : read_outcome)
    (e : Env) (w : Widget) (trace : list (Env * Event)) :
  start args file e = Done tt w ->
  let w' := run trace w in
  (mode w' = MODE_CLOCK -> timer_interval w' = 1000)
  /\ (mode w' = MODE_STOPWATCH -> stopwatch_running w' = true ->
      timer_interval w' = 10)
  /\ (mode w' = MODE_STOPWATCH -> stopwatch_running w' = false ->
      timer_interval w' = 33).
Proof.
  intros H. destruct (session_settled args file e w trace H)
    as (_ & _ & _ & Ht & _).
  cbv zeta. unfold timer_ok in Ht. rewrite Ht.
  repeat split; intros ->; try intros ->; reflexivity.
Qed.

Lemma X1_session_sample :
  settings_valid (run sample_session fresh_clock)
  /\ Forall payload_valid (saved (run sample_session fresh_clock)).
Proof.
  apply (X1_settings_valid_throughout no_args ReadOSError (desk 0)).
  vm_compute; reflexivity.
Defined.

Lemma X2_footprint_sample :
  let w' := run sample_session fresh_clock in
  width w' = clock_size w'
  /\ height w' = clock_size w' + Z.max 52 (clock_size w' / 4).
Proof.
  assert (Hs : start no_args ReadOSError (desk 0) = Done tt fresh_clock)
    by (vm_compute; reflexivity).
  destruct (X2_window_footprint_throughout no_args ReadOSError (desk 0)
              fresh_clock sample_session Hs) as (Hw & _ & Hh).
  split; [exact Hw|]. apply Hh. vm_compute; reflexivity.
Defined.

Lemma X3_flags_sample :
  stays_on_bottom (run sample_session fresh_clock) = true.
Proof.
  assert (Hs : start no_args ReadOSError (desk 0) = Done tt fresh_clock)
    by (vm_compute; reflexivity).
  destruct (X3_window_flags_throughout no_args ReadOSError (desk 0)
              fresh_clock sample_session Hs) as (_ & Hb & _).
  apply Hb. vm_compute; reflexivity.
Defined.

Lemma X4_interval_sample :
  timer_interval (run sample_session fresh_clock) = 10.
Proof.
  assert (Hs : start no_args ReadOSError (desk 0) = Done tt fresh_clock)
    by (vm_compute; reflexivity).
  destruct (X4_refresh_interval_throughout no_args ReadOSError (desk 0)
              fresh_clock sample_session Hs) as (_ & Hrun & _).
  apply Hrun; vm_compute; reflexivity.
Defined.

(** ** Saving and starting again *)

Lemma save_state_writes (e : Env) (w : Widget) :
  save_state e w = Done tt (upd_saved (payload_of w :: saved w) w).
Proof. reflexivity. Qed.

Lemma valid_size_keeps (n : Z) :
  MIN_CLOCK_SIZE <= n <= MAX_CLOCK_SIZE -> _valid_size (PyInt n) = Val n.
Proof.
  unfold _valid_size, MIN_CLOCK_SIZE, MAX_CLOCK_SIZE; simpl.
  intros H. f_equal. lia.
Qed.

Lemma valid_mode_keeps (m : string) :
  m = MODE_CLOCK \/ m = MODE_STOPWATCH -> _valid_mode (PyStr m) = m.
Proof. intros [-> | ->]; reflexivity. Qed.

Lemma valid_layer_keeps (l : string) :
  l = LAYER_TOP \/ l = LAYER_NORMAL \/ l = LAYER_BOTTOM ->
  _valid_layer (PyStr l) = l.
Proof. intros [-> | [-> | ->]]; reflexivity. Qed.

Lemma valid_theme_keeps (t : string) :
  known_theme t -> _valid_theme (PyStr t) = Val t.
Proof. unfold known_theme, _valid_theme. simpl. now intros ->. Qed.

(** Starting from the record of a widget at a position a display covers
    builds the same settings at the same place. *)
Lemma start_from_payload (w : Widget) (e : Env) :
  settings_valid w -> footprint_ok w ->
  _is_on_any_screen e w = Done true w ->
  exists w' : Widget,
    start no_args (ReadJSON (PyDict (payload_json (payload_of w)))) e
    = Done tt w'
    /\ clock_size w' = clock_size w /\ mode w' = mode w
    /\ layer w' = layer w /\ color_theme w' = color_theme w
    /\ readout_font_family w' = readout_font_family w
    /\ pos w' = pos w /\ width w' = width w /\ height w' = height w
    /\ saved w' = [].
Proof.
  unfold settings_valid, footprint_ok, size_in_range.
  intros (Hsize & Hmode & Hlayer & Htheme & Hfont) (Hrh & Hw & Hh) Hon.
  rewrite on_any_screen_pure in Hon. inversion Hon as [Hex]. clear Hon.
  unfold start, main, __init__, restore_position.
  cbn [load_saved_state no_args a_size a_mode a_layer a_theme
       a_readout_font a_x a_y arg_or payload_json payload_of dict_get
       dict_item String.eqb Ascii.eqb Bool.eqb p_x p_y p_size p_mode p_layer
       p_theme p_readout_font res_bind py_int].
  rewrite (valid_size_keeps _ Hsize), (valid_theme_keeps _ Htheme),
    (valid_mode_keeps _ Hmode), (valid_layer_keeps _ Hlayer), Hfont.
  cbv [bind eval].
  rewrite (valid_size_keeps _ Hsize), (valid_theme_keeps _ Htheme),
    (valid_mode_keeps _ Hmode), (valid_layer_keeps _ Hlayer), Hfont.
  destruct w as [? ? ? ? ? ? ? ? ? ? ? ? ? [x y] ? ? ? ? ? ? ?];
    cbv [clock_size mode layer color_theme readout_font_family
         readout_height width height pos frameGeometry px py] in *.
  subst.
  py_run; cbv [px py] in *; try congruence;
    eexists; (split; [reflexivity|]); repeat split;
    now apply valid_layer_keeps.
Qed.

(** X5. Saving the state at the end of any session and starting again
    with no command-line setting, on displays that cover the saved
    position, gives a widget with the same size, mode, layer, theme and
    font, at the same place and with the same window size.  The stopwatch
    is not part of the record: the new widget has it stopped at zero. *)
Theorem X5_restart_restores_settings (args : Args) (file : read_outcome)
    (e e_exit e_next : Env) (w : Widget) (trace : list (Env * Event)) :
  start args file e = Done tt w ->
  let last := run trace w in
  _is_on_any_screen e_next last = Done true last ->
  exists (p : Payload) (w' : Widget),
    saved (final (save_state e_exit last)) = p :: saved last
    /\ start no_args (ReadJSON (PyDict (payload_json p))) e_next = Done tt w'
    /\ clock_size w' = clock_size last /\ mode w' = mode last
    /\ layer w' = layer last /\ color_theme w' = color_theme last
    /\ readout_font_family w' = readout_font_family last
    /\ pos w' = pos last /\ width w' = width last /\ height w' = height last
    /\ stopwatch_running w' = false /\ stopwatch_elapsed_ms w' = 0.
Proof.
  intros Hstart last Hon.
  destruct (session_settled args file e w trace Hstart)
    as (Hset & Hfoot & _).
  fold last in Hset, Hfoot.
  destruct (start_from_payload last e_next Hset Hfoot Hon)
    as (w' & Hnew & Hs & Hm & Hl & Ht & Hf & Hp & Hw & Hh & _).
  exists (payload_of last), w'.
  split; [now rewrite save_state_writes; destruct last|].
  split; [exact Hnew|].
  destruct (start_settled _ _ _ _ Hnew) as (_ & Hrun & Hel & _).
  repeat split; assumption.
Qed.

Lemma X5_restart_sample :
  exists w' : Widget,
    start no_args
      (ReadJSON (PyDict (payload_json
                           (payload_of (run sample_session fresh_clock)))))
      (desk 9) = Done tt w'
    /\ clock_size w' = 300 /\ mode w' = MODE_STOPWATCH
    /\ stopwatch_running w' = false.
Proof.
  assert (Hs : start no_args ReadOSError (desk 0) = Done tt fresh_clock)
    by (vm_compute; reflexivity).
  destruct (X5_restart_restores_settings no_args ReadOSError (desk 0)
              (desk 8) (desk 9) fresh_clock sample_session Hs)
    as (p & w' & Hp & Hnew & Hsz & Hm & _ & _ & _ & _ & _ & _ & Hrun & _).
  - vm_compute; reflexivity.
  - exists w'.
    assert (Hpp : p = payload_of (run sample_session fresh_clock)).
    { rewrite save_state_writes in Hp.
      destruct (run sample_session fresh_clock); now inversion Hp. }
    subst p. split; [exact Hnew|].
    rewrite Hsz, Hm. repeat split; try exact Hrun; vm_compute; reflexivity.
Defined.

(** ** Timing a run *)

Lemma trunc_Q_ceiling (q : Q) : (q <= 0)%Q -> trunc_Q q = Qceiling q.
Proof.
  destruct q as [n d]; unfold Qle, trunc_Q, Qceiling, Qfloor, Qopp; simpl.
  intros H. rewrite <- (Z.opp_involutive n) at 1.
  rewrite Z.quot_opp_l by lia. f_equal.
  apply Z.quot_div_nonneg; lia.
Qed.

Lemma trunc_Q_le (q q' : Q) : (q <= q')%Q -> trunc_Q q <= trunc_Q q'.
Proof.
  intros H.
  destruct (Qlt_le_dec q 0) as [Hq|Hq]; destruct (Qlt_le_dec q' 0) as [Hq'|Hq'].
  - rewrite !trunc_Q_ceiling by now apply Qlt_le_weak.
    now apply Qceiling_resp_le.
  - rewrite (trunc_Q_ceiling q) by now apply Qlt_le_weak.
    apply Z.le_trans with 0; [|now apply trunc_Q_nonneg].
    change 0 with (Qceiling 0). apply Qceiling_resp_le.
    now apply Qlt_le_weak.
  - exfalso. apply (Qlt_irrefl 0).
    apply Qle_lt_trans with q; [exact Hq|].
    now apply Qle_lt_trans with q'.
  - rewrite !trunc_Q_floor by assumption. now apply Qfloor_resp_le.
Qed.

Lemma elapsed_scaled_le (start t t' : Q) :
  (t <= t')%Q ->
  (fmul (fsub t start) 1000 <= fmul (fsub t' start) 1000)%Q.
Proof.
  intros H. unfold fmul, fsub.
  assert (H1 : (round64 (t - start) <= round64 (t' - start))%Q)
    by (apply round64_le; lra).
  apply round64_le. lra.
Qed.

(** X6. A stopped stopwatch in Stopwatch mode that is started at one
    clock reading and stopped at a later one has run in between and ends
    stopped.  Its accumulator has grown by the whole milliseconds in the
    binary64 product [(stop - start) * 1000.0], which is the exact time
    between the two readings, in milliseconds, up to a relative error of
    [2^-51]; every later read gives that value, whatever the clock
    says. *)
Theorem X6_start_stop_accumulates (e1 e2 : Env) (w : Widget) :
  mode w = MODE_STOPWATCH ->
  stopwatch_running w = false ->
  (perf_counter e1 <= perf_counter e2)%Q ->
  let w1 := final (toggle_stopwatch_running e1 w) in
  let w2 := final (toggle_stopwatch_running e2 w1) in
  let span := ((perf_counter e2 - perf_counter e1) * 1000)%Q in
  let product := fmul (fsub (perf_counter e2) (perf_counter e1)) 1000 in
  stopwatch_running w1 = true
  /\ stopwatch_running w2 = false
  /\ stopwatch_elapsed_ms w2 = stopwatch_elapsed_ms w + trunc_Q product
  /\ (inject_Z (trunc_Q product) <= product)%Q
  /\ (product < inject_Z (trunc_Q product + 1))%Q
  /\ (span * (1 - pow2 (-51)) <= product)%Q
  /\ (product <= span * (1 + pow2 (-51)))%Q
  /\ forall later : Env,
       _current_stopwatch_ms later w2 = Done (stopwatch_elapsed_ms w2) w2.
Proof.
  intros Hmode Hrun Hle.
  pose proof (elapsed_scaled_nonneg _ _ Hle) as Hd.
  pose proof (trunc_Q_nonneg _ Hd) as Ht.
  destruct (elapsed_scaled_error _ _ Hle) as [Hlo Hhi].
  destruct w; cbv [mode stopwatch_running] in Hmode, Hrun; subst.
  py_run. cbv zeta.
  rewrite Z.max_r by exact Ht.
  repeat split; try assumption; rewrite (trunc_Q_floor _ Hd);
    [apply Qfloor_le|apply Qlt_floor].
Qed.

(** X7. The elapsed time read from a widget never goes down as the clock
    goes up: for two clock readings in order the earlier read is at most
    the later one, for a running stopwatch as for a stopped one. *)
Theorem X7_reads_never_decrease (e e' : Env) (w : Widget) :
  (perf_counter e <= perf_counter e')%Q ->
  exists a b : Z,
    _current_stopwatch_ms e w = Done a w
    /\ _current_stopwatch_ms e' w = Done b w
    /\ a <= b.
Proof.
  intros Hle. unfold _current_stopwatch_ms, bind, get, ask, ret.
  destruct (stopwatch_running w); cbn [negb].
  - do 2 eexists. split; [reflexivity|]. split; [reflexivity|].
    pose proof (trunc_Q_le _ _ (elapsed_scaled_le (stopwatch_start_time w)
                                  _ _ Hle)).
    lia.
  - do 2 eexists. split; [reflexivity|]. split; [reflexivity|]. lia.
Qed.

Lemma X6_quarter_second_sample :
  let w1 := final (toggle_stopwatch_running (desk 1) fresh_stopwatch) in
  let w2 := final (toggle_stopwatch_running (desk (5 # 4)) w1) in
  stopwatch_running w2 = false /\ stopwatch_elapsed_ms w2 = 250.
Proof.
  destruct (X6_start_stop_accumulates (desk 1) (desk (5 # 4)) fresh_stopwatch)
    as (_ & Hstop & Hsum & _).
  - vm_compute; reflexivity.
  - vm_compute; reflexivity.
  - vm_compute; discriminate.
  - cbv zeta. split; [exact Hstop|]. rewrite Hsum. vm_compute; reflexivity.
Defined.

Lemma X7_reads_sample :
  exists a b : Z,
    _current_stopwatch_ms (desk 2) running_stopwatch
    = Done a running_stopwatch
    /\ _current_stopwatch_ms (desk 3) running_stopwatch
       = Done b running_stopwatch
    /\ a <= b.
Proof.
  apply X7_reads_never_decrease. vm_compute; discriminate.
Defined.

(** ** Dragging *)

(** A held move beyond the threshold, with the anchor set, puts the
    window at the pointer minus the anchor. *)
Lemma move_drags (m : MouseEvent) (e : Env) (w : Widget) (p off : QPoint) :
  drag_offset w = Some off ->
  press_global_pos w = Some p ->
  buttons_has_left m = true ->
  click_threshold_px w < manhattanLength (point_sub (globalPos m) p) ->
  let w' := final (mouseMoveEvent m e w) in
  drag_started w' = true
  /\ pos w' = point_sub (globalPos m) off
  /\ press_global_pos w' = Some p /\ drag_offset w' = Some off
  /\ same_stopwatch w w' /\ saved w' = saved w.
Proof.
  unfold same_stopwatch. intros Hoff Hp Hheld Hfar.
  destruct w;
    cbv [drag_offset press_global_pos click_threshold_px] in Hoff, Hp, Hfar.
  subst. unfold mouseMoveEvent. py_unfold. rewrite Hheld. py_run;
    try (apply Z.ltb_ge in Heqb0; lia);
    destruct (point_sub (globalPos m) off); repeat split.
Qed.

(** A left release after a drag began writes the position and ends the
    gesture; it is no click. *)
Lemma release_after_drag (release : MouseEvent) (e : Env) (w : Widget) :
  button_is_left release = true ->
  drag_started w = true ->
  let w' := final (mouseReleaseEvent release e w) in
  was_click release w = false
  /\ same_stopwatch w w'
  /\ pos w' = pos w
  /\ saved w' = payload_of w :: saved w
  /\ drag_offset w' = None /\ press_global_pos w' = None
  /\ drag_started w' = false.
Proof.
  unfold same_stopwatch, was_click, payload_of. intros Hleft Hd.
  destruct w; cbv [drag_started] in Hd; subst.
  unfold mouseReleaseEvent. rewrite Hleft.
  py_run; repeat split; try apply andb_false_r.
Qed.

(** X8. Dragging moves the window by what the pointer moved.  After a
    left press that is not taken over by a native move, any pointer moves
    and then a move with the button held that is more than 6 pixels
    (Manhattan distance) from the press point, the window is where it was
    plus the displacement of the pointer since the press.  A left release
    then is no click: the stopwatch is left alone, the new position is
    written to the state file once, and the controller is idle again. *)
Theorem X8_drag_moves_window (w : Widget) (e0 e1 er : Env)
    (press last release : MouseEvent) (moves : list (Env * MouseEvent)) :
  click_threshold_px w = 6 ->
  button_is_left press = true ->
  button_is_left release = true ->
  (mode w = MODE_CLOCK -> native_move_accepted e0 = false) ->
  buttons_has_left last = true ->
  6 < displacement press last ->
  let dragged := final (mouseMoveEvent last e1
                          (run (gesture e0 press moves) w)) in
  let after := final (mouseReleaseEvent release er dragged) in
  px (pos dragged) = px (pos w) + (px (globalPos last) - px (globalPos press))
  /\ py (pos dragged)
     = py (pos w) + (py (globalPos last) - py (globalPos press))
  /\ was_click release dragged = false
  /\ same_stopwatch w after
  /\ pos after = pos dragged
  /\ saved after = payload_of dragged :: saved w
  /\ drag_offset after = None /\ press_global_pos after = None
  /\ drag_started after = false.
Proof.
  intros Hthr Hpl Hrl Hnative Hheld Hfar dragged after.
  destruct (press_holds press e0 w Hpl Hnative)
    as (Hs1 & Hsv1 & Hp1 & _ & Hpos1).
  pose proof (press_anchor press e0 w Hpl Hnative) as Hoff1.
  pose proof (moves_hold press moves _ Hp1) as Hmv. cbv zeta in Hmv.
  pose proof (moves_keep_anchor moves (final (mousePressEvent press e0 w)))
    as Hoff2. cbv zeta in Hoff2.
  change (run _ (final (mousePressEvent press e0 w)))
    with (run (gesture e0 press moves) w) in Hmv, Hoff2.
  set (held := run (gesture e0 press moves) w) in *.
  destruct Hmv as (Hs2 & Hsv2 & Hp2 & _).
  rewrite Hoff1 in Hoff2.
  pose proof (same_stopwatch_trans _ _ _ Hs1 Hs2) as Hs.
  assert (Hthr' : click_threshold_px held = 6).
  { destruct Hs as (_ & _ & _ & _ & H). congruence. }
  destruct (move_drags last e1 held _ _ Hoff2 Hp2 Hheld)
    as (Hd & Hpos & Hp3 & Hoff3 & Hs3 & Hsv3).
  { rewrite Hthr'. exact Hfar. }
  fold dragged in Hd, Hpos, Hp3, Hoff3, Hs3, Hsv3.
  destruct (release_after_drag release er dragged Hrl Hd)
    as (Hnoclick & Hs4 & Hpos4 & Hsv4 & Hidle).
  fold after in Hs4, Hpos4, Hsv4, Hidle.
  split; [rewrite Hpos; cbn; lia|].
  split; [rewrite Hpos; cbn; lia|].
  split; [exact Hnoclick|].
  split; [eapply same_stopwatch_trans; [exact Hs|];
          eapply same_stopwatch_trans; eassumption|].
  split; [exact Hpos4|].
  split; [rewrite Hsv4; f_equal; congruence|exact Hidle].
Qed.

Lemma X8_drag_sample :
  let dragged := final (mouseMoveEvent far_move (desk 4)
                          (run (gesture (desk 2) press_at
                                  [(desk 3, small_move)]) fresh_stopwatch)) in
  px (pos dragged) = px (pos fresh_stopwatch) + (1000 - 900)
  /\ py (pos dragged) = py (pos fresh_stopwatch) + (560 - 500)
  /\ was_click release_far dragged = false.
Proof.
  destruct (X8_drag_moves_window fresh_stopwatch (desk 2) (desk 4) (desk 5)
              press_at far_move release_far [(desk 3, small_move)])
    as (Hx & Hy & Hno & _).
  - vm_compute; reflexivity.
  - vm_compute; reflexivity.
  - vm_compute; reflexivity.
  - intros _. vm_compute; reflexivity.
  - vm_compute; reflexivity.
  - vm_compute; reflexivity.
  - exact (conj Hx (conj Hy Hno)).
Defined.

(** A pointer move with no anchor set does nothing. *)
Lemma move_without_anchor (m : MouseEvent) (e : Env) (w : Widget) :
  drag_offset w = None -> mouseMoveEvent m e w = Done tt w.
Proof.
  intros H. unfold mouseMoveEvent, bind, get. now rewrite H.
Qed.

Lemma moves_without_anchor (moves : list (Env * MouseEvent)) (w : Widget) :
  drag_offset w = None ->
  run (map (fun em => (fst em, Move (snd em))) moves) w = w.
Proof.
  intros H. induction moves as [|[e m] rest IH]; simpl; [reflexivity|].
  now rewrite move_without_anchor.
Qed.

Lemma press_native (press : MouseEvent) (e : Env) (w : Widget) :
  button_is_left press = true ->
  mode w = MODE_CLOCK ->
  native_move_accepted e = true ->
  let w' := final (mousePressEvent press e w) in
  drag_offset w' = None /\ drag_started w' = true
  /\ pos w' = pos w /\ saved w' = saved w /\ same_stopwatch w w'.
Proof.
  unfold native_move_accepted, same_stopwatch.
  intros Hleft Hmode Hnative. destruct w; cbv [mode] in Hmode; subst.
  unfold mousePressEvent. rewrite Hleft.
  py_run; try discriminate; repeat split.
Qed.

(** X9. In Clock mode, when the window system takes over the move on a
    left press, the widget does not move its window itself: the pointer
    moves that follow change nothing at all.  The left release is no
    click; it leaves the stopwatch alone, writes the state file once and
    leaves the controller idle. *)
Theorem X9_native_move_hands_over (w : Widget) (e0 er : Env)
    (press release : MouseEvent) (moves : list (Env * MouseEvent)) :
  button_is_left press = true ->
  button_is_left release = true ->
  mode w = MODE_CLOCK ->
  native_move_accepted e0 = true ->
  let pressed := final (mousePressEvent press e0 w) in
  let held := run (gesture e0 press moves) w in
  let after := final (mouseReleaseEvent release er held) in
  held = pressed
  /\ pos held = pos w
  /\ was_click release held = false
  /\ same_stopwatch w after
  /\ saved after = payload_of held :: saved w
  /\ drag_offset after = None /\ press_global_pos after = None
  /\ drag_started after = false.
Proof.
  intros Hpl Hrl Hmode Hnative pressed held after.
  destruct (press_native press e0 w Hpl Hmode Hnative)
    as (Hoff & Hd & Hpos & Hsv & Hs).
  fold pressed in Hoff, Hd, Hpos, Hsv, Hs.
  assert (Hheld : held = pressed).
  { unfold held, gesture. cbn [run dispatch].
    now apply moves_without_anchor. }
  subst after. clearbody held. subst held.
  destruct (release_after_drag release er pressed Hrl Hd)
    as (Hnoclick & Hs2 & _ & Hsv2 & Hidle).
  split; [reflexivity|]. split; [exact Hpos|]. split; [exact Hnoclick|].
  split; [eapply same_stopwatch_trans; eassumption|].
  split; [|exact Hidle].
  rewrite Hsv2. now rewrite Hsv.
Qed.

Lemma X9_native_sample :
  let held := run (gesture (native_desk 2) press_at [(desk 3, far_move)])
                  fresh_clock in
  pos held = pos fresh_clock
  /\ was_click release_far held = false.
Proof.
  destruct (X9_native_move_hands_over fresh_clock (native_desk 2) (desk 4)
              press_at release_far [(desk 3, far_move)])
    as (_ & Hpos & Hno & _).
  - vm_compute; reflexivity.
  - vm_compute; reflexivity.
  - vm_compute; reflexivity.
  - vm_compute; reflexivity.
  - exact (conj Hpos Hno).
Defined.

(** ** Resizing and centring *)

Lemma recentred_within_a_pixel (c n : Z) :
  1 <= n -> -1 <= Z.quot (c - n / 2 + (c - n / 2 + n - 1)) 2 - c <= 0.
Proof. intros H. Z.to_euclidean_division_equations. lia. Qed.

(** X10. [set_clock_size] with a new size keeps the window where it is:
    the frame it gives the window has the new size and its centre within
    one pixel of the old centre on each axis, and when that frame passes
    the validity check it is the frame of the window afterwards. *)
Theorem X10_resize_keeps_centre (v : pyval) (p : bool) (e : Env)
    (w : Widget) (n : Z) :
  _valid_size v = Val n ->
  n <> clock_size w ->
  let kept := resized_frame n w in
  let c := rect_center (frameGeometry w) in
  let c' := rect_center kept in
  rect_width kept = n
  /\ -1 <= px c' - px c <= 0 /\ -1 <= py c' - py c <= 0
  /\ (frame_on_screen e kept = true ->
      frameGeometry (final (set_clock_size v p e w)) = kept
      /\ clock_size (final (set_clock_size v p e w)) = n).
Proof.
  intros Hn Hne kept c c'.
  pose proof (valid_size_range _ _ Hn) as Hr.
  unfold MIN_CLOCK_SIZE, MAX_CLOCK_SIZE in Hr.
  assert (Hh : 1 <= n + (if String.eqb (mode w) MODE_STOPWATCH
                         then Z.max 52 (n / 4) else 0)).
  { destruct (String.eqb (mode w) MODE_STOPWATCH); lia. }
  split; [subst kept; unfold resized_frame, rect_width, rect_xywh; cbn; lia|].
  split; [|split].
  - subst c' kept c. unfold resized_frame, rect_center at 1, rect_xywh.
    cbn [x1 x2 y1 y2 px py].
    apply recentred_within_a_pixel. lia.
  - subst c' kept c. unfold resized_frame, rect_center at 1, rect_xywh.
    cbn [x1 x2 y1 y2 px py].
    apply recentred_within_a_pixel. exact Hh.
  - subst kept. unfold frame_on_screen, resized_frame, set_clock_size.
    rewrite Hn. apply Z.eqb_neq in Hne.
    destruct w; cbv [clock_size mode] in Hne |- *.
    py_unfold. rewrite Hne.
    intros Hon. py_run;
      cbv [frameGeometry pos width height px py] in *;
      try congruence; split; reflexivity.
Qed.

Lemma X10_resize_sample :
  let w' := final (set_clock_size (PyInt 300) true (desk 1) fresh_clock) in
  frameGeometry w' = resized_frame 300 fresh_clock
  /\ clock_size w' = 300.
Proof.
  destruct (X10_resize_keeps_centre (PyInt 300) true (desk 1) fresh_clock 300)
    as (_ & _ & _ & H).
  - vm_compute; reflexivity.
  - vm_compute; discriminate.
  - apply H. vm_compute; reflexivity.
Defined.

(** X11. [center_on_screen] puts the window in the middle of the screen
    [_current_screen] finds and writes the new position to the state
    file: for a screen at least two pixels wide and high the centre of
    the frame is then inside that screen, so when the screen is one of
    the known screens the validity check passes afterwards.  When no
    screen is found the call changes nothing. *)
Theorem X11_center_on_screen_lands (e : Env) (w : Widget) :
  (forall g : QRect,
      _current_screen e w = Done (Some g) w ->
      let w' := final (center_on_screen e w) in
      pos w' = centred_on g (width w) (height w)
      /\ saved w' = payload_of w' :: saved w
      /\ (2 <= rect_width g -> 2 <= rect_height g ->
          1 <= width w -> 1 <= height w ->
          rect_contains g (rect_center (frameGeometry w')) = true
          /\ (In g (screens e) -> _is_on_any_screen e w' = Done true w')))
  /\ (_current_screen e w = Done None w -> center_on_screen e w = Done tt w).
Proof.
  split.
  - intros g Hg. unfold center_on_screen, bind. rewrite Hg.
    destruct w; py_unfold. unfold payload_of, centred_on; cbn.
    split; [reflexivity|]. split; [reflexivity|].
    intros Hw Hh Hw1 Hh1.
    pose proof (centred_inside g _ _ Hw Hh Hw1 Hh1) as Hin.
    unfold centred_on in Hin; cbn in Hin.
    split; [exact Hin|].
    intros Hg_in. f_equal. apply existsb_exists. now exists g.
  - intros Hnone. unfold center_on_screen, bind. now rewrite Hnone.
Qed.

Lemma X11_center_sample :
  let w' := final (center_on_screen (desk 1) far_clock) in
  pos w' = mkPoint 850 430
  /\ _is_on_any_screen (desk 1) w' = Done true w'.
Proof.
  destruct (X11_center_on_screen_lands (desk 1) far_clock) as [H _].
  destruct (H one_screen) as (Hpos & _ & Hin).
  - vm_compute; reflexivity.
  - destruct Hin as [_ Hon]; try (vm_compute; discriminate).
    split; [rewrite Hpos; vm_compute; reflexivity|].
    apply Hon. left. reflexivity.
Defined.

(** ** Placing the window at start-up *)

(** X12. [restore_position] with both command-line coordinates, each in
    the range of a C [int], puts the window there and looks at nothing
    else: no validity check, no state file, no write.  Otherwise it uses the state file; when [x] or [y]
    is missing there or is not a number ([KeyError], [TypeError],
    [ValueError]) the window is centred as by [center_on_screen], also
    when only one of the two command-line coordinates was given.  An
    infinite coordinate is not caught: the call raises [OverflowError]
    and the window is left where it was. *)
Theorem X12_restore_position_fallbacks (state : pydict) (e : Env)
    (w : Widget) :
  (forall x y : Z,
      fits_c_int x = true -> fits_c_int y = true ->
      restore_position (Some x) (Some y) state e w
      = Done tt (upd_pos (mkPoint x y) w))
  /\ (forall (cx cy : option Z) (err : exn),
         cx = None \/ cy = None ->
         err <> OverflowError ->
         saved_coordinate state "x" = Err err
         \/ (exists x, saved_coordinate state "x" = Val x)
            /\ saved_coordinate state "y" = Err err ->
         restore_position cx cy state e w = center_on_screen e w)
  /\ (forall cx cy : option Z,
         cx = None \/ cy = None ->
         saved_coordinate state "x" = Err OverflowError
         \/ (exists x, saved_coordinate state "x" = Val x)
            /\ saved_coordinate state "y" = Err OverflowError ->
         restore_position cx cy state e w = Raised OverflowError w).
Proof.
  unfold saved_coordinate.
  split; [intros; reflexivity|]. split.
  - intros cx cy err Hc Herr H.
    assert (Hcoords :
              res_bind (res_bind (dict_item state "x") py_int) (fun x =>
              res_bind (res_bind (dict_item state "y") py_int) (fun y =>
              Val (x, y))) = Err err).
    { destruct H as [-> | [[x ->] Hy]]; [reflexivity|].
      cbn [res_bind]. now rewrite Hy. }
    unfold restore_position. rewrite Hcoords.
    destruct Hc as [-> | ->]; [|destruct cx];
      destruct err; try reflexivity; contradiction.
  - intros cx cy Hc H.
    assert (Hcoords :
              res_bind (res_bind (dict_item state "x") py_int) (fun x =>
              res_bind (res_bind (dict_item state "y") py_int) (fun y =>
              Val (x, y))) = Err OverflowError).
    { destruct H as [-> | [[x ->] Hy]]; [reflexivity|].
      cbn [res_bind]. now rewrite Hy. }
    unfold restore_position. rewrite Hcoords.
    destruct Hc as [-> | ->]; [|destruct cx]; reflexivity.
Qed.

Lemma X12_missing_position_sample :
  restore_position None None [("x", PyInt 40)] (desk 0) far_clock
  = center_on_screen (desk 0) far_clock
  /\ restore_position (Some 7) None [("y", PyStr "left")] (desk 0) far_clock
     = center_on_screen (desk 0) far_clock
  /\ restore_position (Some 7) (Some 9) [] (desk 0) far_clock
     = Done tt (upd_pos (mkPoint 7 9) far_clock)
  /\ restore_position None None
       [("x", PyStr (String (ascii_of_nat 28) "40")); ("y", PyInt 5)]
       (desk 0) far_clock
     = center_on_screen (desk 0) far_clock.
Proof.
  destruct (X12_restore_position_fallbacks [("x", PyInt 40)] (desk 0)
              far_clock) as (_ & H1 & _).
  destruct (X12_restore_position_fallbacks [("y", PyStr "left")] (desk 0)
              far_clock) as (_ & H2 & _).
  destruct (X12_restore_position_fallbacks [] (desk 0) far_clock)
    as (H3 & _).
  destruct (X12_restore_position_fallbacks
              [("x", PyStr (String (ascii_of_nat 28) "40")); ("y", PyInt 5)]
              (desk 0) far_clock) as (_ & H4 & _).
  split; [|split; [|split]].
  - apply (H1 None None KeyError); [now left|discriminate|].
    right. split; [now exists 40|reflexivity].
  - apply (H2 (Some 7) None KeyError); [now right|discriminate|].
    left. reflexivity.
  - apply H3; reflexivity.
  - apply (H4 None None ValueError); [now left|discriminate|].
    left. vm_compute; reflexivity.
Defined.

(** ** Opacity and the other normalisers *)

(** X13. [_clamp_opacity] returns a finite value between 0.05 and 0.95
    for every float, infinite ones and NaN included: a value in the range
    is returned as it is, everything below, minus infinity and NaN give
    0.05, everything above and plus infinity give 0.95. *)
Theorem X13_clamp_opacity_range (value : pyfloat) :
  exists q : Q,
    _clamp_opacity value = FFinite q
    /\ (5 # 100 <= q)%Q /\ (q <= 95 # 100)%Q
    /\ (forall x : Q,
           value = FFinite x -> (5 # 100 <= x)%Q -> (x <= 95 # 100)%Q ->
           (q == x)%Q)
    /\ (value = FNaN -> q = 5 # 100)
    /\ (forall x : Q, value = FFinite x -> (x < 5 # 100)%Q -> q = 5 # 100)
    /\ (forall x : Q, value = FFinite x -> (95 # 100 < x)%Q -> q = 95 # 100)
    /\ (value = FInf true -> q = 5 # 100)
    /\ (value = FInf false -> q = 95 # 100).
Proof.
  unfold _clamp_opacity, py_max, py_min.
  destruct value as [x | [|] |]; cbn [float_lt negb andb].
  - destruct (Qle_bool x (95 # 100)) eqn:Hhi; cbn [negb float_lt].
    + apply Qle_bool_iff in Hhi.
      destruct (Qle_bool x (5 # 100)) eqn:Hlo; cbn [negb].
      * apply Qle_bool_iff in Hlo.
        exists (5 # 100). repeat split; try discriminate.
        -- intros x' Hx Hge _. inversion Hx; subst. now apply Qle_antisym.
        -- intros x' Hx Hgt. inversion Hx; subst.
           exfalso. apply (Qlt_irrefl (95 # 100)).
           apply Qlt_le_trans with x'; [exact Hgt|].
           apply Qle_trans with (5 # 100); [exact Hlo|discriminate].
      * assert (Hgt : (5 # 100 < x)%Q).
        { apply Qnot_le_lt. intros H. apply Qle_bool_iff in H. congruence. }
        exists x. repeat split; try discriminate; try assumption.
        -- now apply Qlt_le_weak.
        -- intros x' Hx _ _. inversion Hx; subst. reflexivity.
        -- intros x' Hx Hlt. inversion Hx; subst.
           exfalso. apply (Qlt_irrefl x'). now apply Qlt_trans with (5 # 100).
        -- intros x' Hx Hlt. inversion Hx; subst.
           exfalso. apply (Qlt_irrefl x'). now apply Qle_lt_trans with (95 # 100).
    + assert (Hgt : (95 # 100 < x)%Q).
      { apply Qnot_le_lt. intros H. apply Qle_bool_iff in H. congruence. }
      exists (95 # 100). repeat split; try discriminate.
      * intros x' Hx _ Hle. inversion Hx; subst.
        exfalso. apply (Qlt_irrefl x'). now apply Qle_lt_trans with (95 # 100).
      * intros x' Hx Hlt. inversion Hx; subst.
        exfalso. apply (Qlt_irrefl x').
        apply Qlt_trans with (5 # 100); [exact Hlt|].
        apply Qlt_trans with (95 # 100); [reflexivity|exact Hgt].
  - exists (5 # 100).
    repeat split; first [discriminate | intros; reflexivity].
  - exists (95 # 100).
    repeat split; first [discriminate | intros; reflexivity].
  - exists (5 # 100).
    repeat split; first [discriminate | intros; reflexivity].
Qed.

Lemma X13_opacity_sample :
  _clamp_opacity (FFinite (45 # 100)) = FFinite (45 # 100)
  /\ _clamp_opacity FNaN = FFinite (5 # 100)
  /\ _clamp_opacity (FInf true) = FFinite (5 # 100)
  /\ _clamp_opacity (FInf false) = FFinite (95 # 100).
Proof.
  destruct (X13_clamp_opacity_range FNaN) as (q & Hq & _ & _ & _ & Hnan & _).
  destruct (X13_clamp_opacity_range (FInf true))
    as (lo & Hlo & _ & _ & _ & _ & _ & _ & Hminus & _).
  destruct (X13_clamp_opacity_range (FInf false))
    as (hi & Hhi & _ & _ & _ & _ & _ & _ & _ & Hplus).
  split; [reflexivity|]. split; [|split].
  - rewrite Hq. f_equal. now apply Hnan.
  - rewrite Hlo. f_equal. now apply Hminus.
  - rewrite Hhi. f_equal. now apply Hplus.
Defined.

(** X14. The mode, layer and theme normalisers return a member of their
    closed set for every value they return on, give members back
    unchanged, and give the default for everything else: a string that is
    no member, [None], a number.  Only [_valid_theme] can fail, on a list
    or object, with [TypeError]. *)
Theorem X14_enum_normalisers (v : pyval) :
  (_valid_mode v = MODE_CLOCK \/ _valid_mode v = MODE_STOPWATCH)
  /\ (forall s, v = PyStr s -> s = MODE_CLOCK \/ s = MODE_STOPWATCH ->
                _valid_mode v = s)
  /\ ((forall s, v = PyStr s -> s <> MODE_CLOCK /\ s <> MODE_STOPWATCH) ->
      _valid_mode v = DEFAULT_MODE)
  /\ (_valid_layer v = LAYER_TOP \/ _valid_layer v = LAYER_NORMAL
      \/ _valid_layer v = LAYER_BOTTOM)
  /\ (forall s, v = PyStr s ->
                s = LAYER_TOP \/ s = LAYER_NORMAL \/ s = LAYER_BOTTOM ->
                _valid_layer v = s)
  /\ ((forall s, v = PyStr s ->
                 s <> LAYER_TOP /\ s <> LAYER_NORMAL /\ s <> LAYER_BOTTOM) ->
      _valid_layer v = DEFAULT_LAYER)
  /\ (hashable v = true ->
      exists t, _valid_theme v = Val t /\ In t (map fst THEME_PRESETS))
  /\ (forall s, v = PyStr s -> In s (map fst THEME_PRESETS) ->
                _valid_theme v = Val s)
  /\ (hashable v = true ->
      (forall s, v = PyStr s -> ~ In s (map fst THEME_PRESETS)) ->
      _valid_theme v = Val DEFAULT_THEME)
  /\ (hashable v = false -> _valid_theme v = Err TypeError).
Proof.
  assert (Hknown : forall t, known_theme t <-> In t (map fst THEME_PRESETS)).
  { intros t. unfold known_theme. rewrite existsb_exists. split.
    - intros ((k & l) & Hin & Heq). apply String.eqb_eq in Heq. subst.
      apply in_map_iff. now exists (k, l).
    - intros Hin. apply in_map_iff in Hin as ((k & l) & <- & Hin).
      exists (k, l). split; [exact Hin|apply String.eqb_refl]. }
  split; [apply valid_mode_cases|].
  split; [intros s -> Hs; now apply valid_mode_keeps|].
  split.
  { intros H. destruct v; try reflexivity. simpl.
    destruct (H s eq_refl) as [Hc Hs].
    apply String.eqb_neq in Hc, Hs. now rewrite Hc, Hs. }
  split; [apply valid_layer_cases|].
  split; [intros s -> Hs; now apply valid_layer_keeps|].
  split.
  { intros H. destruct v; try reflexivity. simpl.
    destruct (H s eq_refl) as (Ht & Hn & Hb).
    apply String.eqb_neq in Ht, Hn, Hb. now rewrite Ht, Hn, Hb. }
  split.
  { intros Hh. destruct (valid_theme_total v Hh) as [t Ht].
    exists t. split; [exact Ht|]. apply Hknown.
    now apply valid_theme_known with v. }
  split.
  { intros s -> Hs. apply valid_theme_keeps. now apply Hknown. }
  split; [|apply valid_theme_unhashable].
  intros Hh H. unfold _valid_theme. rewrite Hh.
  destruct v; try reflexivity.
  destruct (existsb _ THEME_PRESETS) eqn:He; [|reflexivity].
  exfalso. apply (H s eq_refl). now apply Hknown.
Qed.

Lemma X14_normaliser_sample :
  _valid_mode (PyStr "Clock") = DEFAULT_MODE
  /\ _valid_layer (PyStr "bottom") = LAYER_BOTTOM
  /\ _valid_theme (PyStr "sepia") = Val DEFAULT_THEME.
Proof.
  destruct (X14_enum_normalisers (PyStr "Clock")) as (_ & _ & Hm & _).
  destruct (X14_enum_normalisers (PyStr "bottom"))
    as (_ & _ & _ & _ & Hl & _).
  destruct (X14_enum_normalisers (PyStr "sepia"))
    as (_ & _ & _ & _ & _ & _ & _ & _ & Ht & _).
  split; [|split].
  - apply Hm. intros s Hs. inversion Hs; subst. split; discriminate.
  - apply (Hl "bottom" eq_refl). right; right; reflexivity.
  - apply Ht; [reflexivity|]. intros s Hs. inversion Hs; subst.
    cbn. intros [H|[H|[H|[H|[]]]]]; discriminate.
Defined.

(** X15. [_normalize_readout_font] never returns an empty name: a value
    that is no string, an empty string and a string made of whitespace
    only (any of the characters [str.isspace] holds of) give
    ["Monospace"].  The name it returns has no whitespace character at its
    start or at its end, and normalising it again changes nothing. *)
Theorem X15_readout_font_normaliser (v : pyval) :
  let name := _normalize_readout_font v in
  name <> ""
  /\ head_len SPACES (list_ascii_of_string name) = O
  /\ head_len SPACES_REVERSED (rev (list_ascii_of_string name)) = O
  /\ _normalize_readout_font (PyStr name) = name
  /\ ((forall s, v = PyStr s -> py_strip s = "") ->
      name = DEFAULT_READOUT_FONT)
  /\ (forall s, v = PyStr s -> blank_text (list_ascii_of_string s) ->
                name = DEFAULT_READOUT_FONT).
Proof.
  cbv zeta.
  assert (Hdefault :
            DEFAULT_READOUT_FONT <> ""
            /\ head_len SPACES (list_ascii_of_string DEFAULT_READOUT_FONT) = O
            /\ head_len SPACES_REVERSED
                 (rev (list_ascii_of_string DEFAULT_READOUT_FONT)) = O).
  { split; [discriminate|]. split; vm_compute; reflexivity. }
  assert (Hblank : (forall s, v = PyStr s -> py_strip s = "") ->
                   _normalize_readout_font v = DEFAULT_READOUT_FONT).
  { intros H. destruct v; try reflexivity. cbn [_normalize_readout_font].
    now rewrite (H s eq_refl). }
  split; [|split; [|split; [|split; [|split]]]].
  - destruct v; try apply Hdefault. cbn [_normalize_readout_font].
    destruct (String.eqb_spec (py_strip s) ""); [apply Hdefault|assumption].
  - destruct v; try apply Hdefault. cbn [_normalize_readout_font].
    destruct (String.eqb (py_strip s) ""); [apply Hdefault|].
    unfold py_strip. rewrite list_ascii_of_string_of_list_ascii.
    apply strip_chars_ends.
  - destruct v; try apply Hdefault. cbn [_normalize_readout_font].
    destruct (String.eqb (py_strip s) ""); [apply Hdefault|].
    unfold py_strip. rewrite list_ascii_of_string_of_list_ascii.
    apply strip_chars_ends.
  - apply normalize_readout_font_idem.
  - exact Hblank.
  - intros s Hs Hb. apply Hblank. intros s' Hs'.
    rewrite Hs in Hs'. inversion Hs'; subst s'. now apply py_strip_blank.
Qed.

Lemma X15_font_sample :
  _normalize_readout_font
    (PyStr (string_of_list_ascii (utf8 8195 ++ utf8 160 ++ utf8 32)))
  = DEFAULT_READOUT_FONT.
Proof.
  destruct (X15_readout_font_normaliser
              (PyStr (string_of_list_ascii (utf8 8195 ++ utf8 160 ++ utf8 32))))
    as (_ & _ & _ & _ & _ & H).
  apply (H _ eq_refl).
  exists [8195; 160; 32]%N. split.
  - repeat constructor; vm_compute; tauto.
  - vm_compute. reflexivity.
Defined.

(** ** The size menu *)

Lemma valid_size_int (n : Z) :
  _valid_size (PyInt n) = Val (Z.max MIN_CLOCK_SIZE (Z.min MAX_CLOCK_SIZE n)).
Proof. reflexivity. Qed.

(** X16. The "Smaller" and "Larger" entries of the menu, on a widget
    whose size is in range: an enabled entry always changes the size, by
    20 pixels or up to the bound if that is nearer; a disabled entry, were
    it triggered, would change nothing. *)
Theorem X16_menu_size_steps (p : bool) (e : Env) (w : Widget) :
  size_in_range w ->
  (size_down_enabled w = true ->
   let w' := final (size_down_action p e w) in
   clock_size w' = Z.max MIN_CLOCK_SIZE (clock_size w - 20)
   /\ clock_size w' < clock_size w)
  /\ (size_down_enabled w = false -> size_down_action p e w = Done tt w)
  /\ (size_up_enabled w = true ->
      let w' := final (size_up_action p e w) in
      clock_size w' = Z.min MAX_CLOCK_SIZE (clock_size w + 20)
      /\ clock_size w < clock_size w')
  /\ (size_up_enabled w = false -> size_up_action p e w = Done tt w).
Proof.
  assert (Hdown : size_down_action p e w
                  = set_clock_size (PyInt (clock_size w - 20)) p e w)
    by reflexivity.
  assert (Hup : size_up_action p e w
                = set_clock_size (PyInt (clock_size w + 20)) p e w)
    by reflexivity.
  rewrite Hdown, Hup.
  pose proof (set_clock_size_stores (PyInt (clock_size w - 20)) p e w) as Hd.
  pose proof (set_clock_size_stores (PyInt (clock_size w + 20)) p e w) as Hu.
  rewrite valid_size_int in Hd, Hu.
  destruct Hd as [_ Hd]. destruct Hu as [_ Hu].
  unfold size_in_range, size_down_enabled, size_up_enabled,
    MIN_CLOCK_SIZE, MAX_CLOCK_SIZE in *.
  intros Hr. cbv zeta. rewrite Hd, Hu.
  split; [|split; [|split]].
  - intros H. apply Z.ltb_lt in H. lia.
  - intros H. apply Z.ltb_ge in H. apply set_clock_size_same.
    rewrite valid_size_int. unfold MIN_CLOCK_SIZE, MAX_CLOCK_SIZE.
    f_equal. lia.
  - intros H. apply Z.ltb_lt in H. lia.
  - intros H. apply Z.ltb_ge in H. apply set_clock_size_same.
    rewrite valid_size_int. unfold MIN_CLOCK_SIZE, MAX_CLOCK_SIZE.
    f_equal. lia.
Qed.

(** X17. Of the preset sizes of the menu (160, 220, 300, 380) at most one
    is shown as checked, whatever the size of the widget; and after a
    preset is chosen it is the one that is checked. *)
Theorem X17_one_size_preset_checked (p : bool) (e : Env) (w : Widget) :
  (forall a b : Z,
      In a size_presets -> In b size_presets ->
      preset_checked w a = true -> preset_checked w b = true -> a = b)
  /\ (forall v : Z,
         In v size_presets ->
         let w' := final (set_clock_size (PyInt v) p e w) in
         preset_checked w' v = true
         /\ forall u, In u size_presets -> u <> v ->
                      preset_checked w' u = false).
Proof.
  unfold preset_checked, size_presets. split.
  - intros a b Ha Hb Hca Hcb. apply Z.leb_le in Hca, Hcb.
    cbn in Ha, Hb. intuition lia.
  - intros v Hv. cbv zeta.
    pose proof (set_clock_size_stores (PyInt v) p e w) as H.
    rewrite valid_size_int in H. destruct H as [_ ->].
    unfold MIN_CLOCK_SIZE, MAX_CLOCK_SIZE.
    cbn in Hv. split.
    + apply Z.leb_le. intuition lia.
    + intros u Hu Hne. apply Z.leb_gt. cbn in Hu. intuition lia.
Qed.

Lemma X16_menu_sample :
  clock_size (final (size_down_action true (desk 1) fresh_clock)) = 200
  /\ clock_size (final (size_up_action true (desk 1) fresh_clock)) = 240.
Proof.
  destruct (X16_menu_size_steps true (desk 1) fresh_clock)
    as (Hdown & _ & Hup & _).
  - vm_compute. split; discriminate.
  - destruct Hdown as [-> _]; [vm_compute; reflexivity|].
    destruct Hup as [-> _]; [vm_compute; reflexivity|].
    split; vm_compute; reflexivity.
Defined.

Lemma X17_preset_sample :
  preset_checked (final (set_clock_size (PyInt 300) true (desk 1) fresh_clock))
    300 = true.
Proof.
  destruct (X17_one_size_preset_checked true (desk 1) fresh_clock) as [_ H].
  apply H. cbn. tauto.
Defined.

(** ** Escaping for the desktop entry *)

Example desktop_escape_plain : _desktop_escape "--size" = "--size".
Proof. reflexivity. Qed.
Example desktop_escape_space :
  _desktop_escape "Fira Code"
  = String QUOTE ("Fira Code" ++ String QUOTE "").
Proof. reflexivity. Qed.
Example desktop_escape_dollar :
  _desktop_escape "a$b"
  = String QUOTE ("a\$b" ++ String QUOTE "").
Proof. reflexivity. Qed.

Lemma escaped_cons_reads (c : ascii) (rest : string) :
  drop_escapes (escaped (String c rest))
  = String c (drop_escapes (escaped rest)).
Proof.
  destruct c as [[] [] [] [] [] [] [] []]; reflexivity.
Qed.

Lemma drop_escapes_escaped (value : string) :
  drop_escapes (escaped value) = value.
Proof.
  induction value as [|c rest IH]; [reflexivity|].
  rewrite escaped_cons_reads, IH. reflexivity.
Qed.

Lemma escaped_cons_plain (c : ascii) (rest : string) :
  is_special c = false -> escaped (String c rest) = String c (escaped rest).
Proof.
  destruct c as [[] [] [] [] [] [] [] []]; intros H;
    solve [reflexivity | discriminate H].
Qed.

Lemma escaped_plain (value : string) :
  existsb is_special (list_ascii_of_string value) = false ->
  escaped value = value.
Proof.
  induction value as [|c rest IH]; [reflexivity|].
  cbn [list_ascii_of_string existsb]. intros H.
  apply orb_false_iff in H. destruct H as [Hc Hrest].
  rewrite (escaped_cons_plain c rest Hc), (IH Hrest). reflexivity.
Qed.

Lemma needs_quotes_special (value : string) :
  needs_quotes value = false ->
  existsb is_special (list_ascii_of_string value) = false.
Proof.
  unfold needs_quotes. intros H. apply orb_false_iff in H. apply H.
Qed.

Lemma append_last_inv (a b : string) (c : ascii) :
  (a ++ String c "")%string = (b ++ String c "")%string -> a = b.
Proof.
  revert b. induction a as [|x a IH]; intros [|y b] H; cbn in H.
  - reflexivity.
  - destruct b; discriminate H.
  - destruct a; discriminate H.
  - injection H as -> H. f_equal. apply IH, H.
Qed.

Lemma desktop_escape_plain_value (value : string) :
  needs_quotes value = false -> _desktop_escape value = value.
Proof.
  intros H. unfold _desktop_escape. rewrite H.
  apply escaped_plain, needs_quotes_special, H.
Qed.

Lemma unquoted_no_quote (value rest : string) :
  needs_quotes value = false -> value <> String QUOTE rest.
Proof.
  intros H ->. apply needs_quotes_special in H. discriminate H.
Qed.

(** X18. [_desktop_escape] leaves a value without whitespace (any
    character [str.isspace] holds of, the no-break space for one) and
    without any of the four special characters as it is; any other value
    comes back
    between double quotes with a backslash before every special character,
    so that dropping the escaping backslashes gives the value again.  Two
    different values never get the same escaped text. *)
Theorem X18_desktop_escape_reads_back :
  (forall value, needs_quotes value = false -> _desktop_escape value = value)
  /\ (forall value, needs_quotes value = true ->
        _desktop_escape value
        = String QUOTE (escaped value ++ String QUOTE "")
        /\ drop_escapes (escaped value) = value)
  /\ (forall a b, _desktop_escape a = _desktop_escape b -> a = b).
Proof.
  split; [exact desktop_escape_plain_value|]. split.
  - intros value H. unfold _desktop_escape. rewrite H.
    split; [reflexivity|apply drop_escapes_escaped].
  - intros a b H.
    destruct (needs_quotes a) eqn:Ha; destruct (needs_quotes b) eqn:Hb.
    + unfold _desktop_escape in H. rewrite Ha, Hb in H.
      injection H as H. apply append_last_inv in H.
      rewrite <- (drop_escapes_escaped a), <- (drop_escapes_escaped b), H.
      reflexivity.
    + rewrite (desktop_escape_plain_value b Hb) in H.
      unfold _desktop_escape in H. rewrite Ha in H.
      symmetry in H. exfalso. exact (unquoted_no_quote _ _ Hb H).
    + rewrite (desktop_escape_plain_value a Ha) in H.
      unfold _desktop_escape in H. rewrite Hb in H.
      exfalso. exact (unquoted_no_quote _ _ Ha H).
    + rewrite (desktop_escape_plain_value a Ha),
        (desktop_escape_plain_value b Hb) in H. exact H.
Qed.

Lemma X18_escape_sample :
  _desktop_escape "--size" = "--size"
  /\ drop_escapes (escaped "Fira $Code") = "Fira $Code"
  /\ _desktop_escape ("Fira" ++ no_break_space ++ "Code")
     = String QUOTE (("Fira" ++ no_break_space ++ "Code") ++ String QUOTE "").
Proof.
  destruct X18_desktop_escape_reads_back as (Hplain & Hquoted & _).
  split; [|split].
  - apply Hplain. vm_compute. reflexivity.
  - apply Hquoted. vm_compute. reflexivity.
  - destruct (Hquoted ("Fira" ++ no_break_space ++ "Code")) as [-> _];
      vm_compute; reflexivity.
Defined.

(** ** The KWin rule list *)

Example rule_groups_sample :
  rule_groups_of " a, b ,,c ,a" = ["a"; "b"; "c"; "a"].
Proof. reflexivity. Qed.
Example rules_value_sample :
  rules_value ["a"; "b"; ""; "a"; "c"] = "a,b,c"
  /\ count_value ["a"; "b"; ""; "a"; "c"] = "3".
Proof. split; reflexivity. Qed.

Lemma in_list_In (s : string) (l : list string) :
  in_list s l = true <-> In s l.
Proof.
  unfold in_list. rewrite existsb_exists. split.
  - intros (x & Hin & Heq). apply String.eqb_eq in Heq. now subst.
  - intros Hin. exists s. split; [exact Hin|apply String.eqb_refl].
Qed.

Lemma in_list_not_In (s : string) (l : list string) :
  in_list s l = false <-> ~ In s l.
Proof.
  rewrite <- in_list_In. destruct (in_list s l); split; intros H;
    congruence.
Qed.

Lemma nonempty_spec (s : string) : nonempty s = true <-> s <> ""%string.
Proof.
  unfold nonempty. rewrite negb_true_iff. apply String.eqb_neq.
Qed.

Lemma split_on_free (sep : ascii) (s : string) :
  ~ In sep (list_ascii_of_string s) -> split_on sep s = [s].
Proof.
  induction s as [|c rest IH]; intros Hfree; [reflexivity|].
  cbn [split_on]. cbn [list_ascii_of_string] in Hfree.
  destruct (Ascii.eqb_spec c sep) as [->|Hc].
  - exfalso. apply Hfree. now left.
  - rewrite IH; [reflexivity|]. intros Hin. apply Hfree. now right.
Qed.

Lemma split_on_app (sep : ascii) (x s : string) :
  ~ In sep (list_ascii_of_string x) ->
  split_on sep (x ++ String sep s) = x :: split_on sep s.
Proof.
  induction x as [|c rest IH]; intros Hfree.
  - cbn. now rewrite Ascii.eqb_refl.
  - cbn [append split_on]. cbn [list_ascii_of_string] in Hfree.
    destruct (Ascii.eqb_spec c sep) as [->|Hc].
    + exfalso. apply Hfree. now left.
    + rewrite IH; [reflexivity|]. intros Hin. apply Hfree. now right.
Qed.

Lemma split_on_pieces (sep : ascii) (s : string) :
  Forall (fun piece => ~ In sep (list_ascii_of_string piece))
         (split_on sep s).
Proof.
  induction s as [|c rest IH]; cbn [split_on].
  - constructor; [intros []|constructor].
  - destruct (Ascii.eqb_spec c sep) as [->|Hc].
    + constructor; [intros []|exact IH].
    + destruct (split_on sep rest) as [|first others].
      * constructor; [|constructor]. intros [H|[]]. now apply Hc.
      * inversion IH as [|? ? Hfirst Hothers]; subst.
        constructor; [|exact Hothers].
        intros [H|H]; [now apply Hc|now apply Hfirst].
Qed.

Lemma split_join (sep : ascii) (l : list string) :
  l <> [] ->
  Forall (fun piece => ~ In sep (list_ascii_of_string piece)) l ->
  split_on sep (join (String sep "") l) = l.
Proof.
  induction l as [|x rest IH]; intros Hne Hfree; [congruence|].
  inversion Hfree as [|? ? Hx Hrest]; subst.
  destruct rest as [|y rest].
  - cbn [join]. now apply split_on_free.
  - change (join (String sep "") (x :: y :: rest))
      with (x ++ String sep (join (String sep "") (y :: rest)))%string.
    rewrite split_on_app by exact Hx.
    rewrite IH; [reflexivity|discriminate|exact Hrest].
Qed.

Lemma rule_groups_clean (raw : string) :
  Forall clean_group (rule_groups_of raw).
Proof.
  unfold rule_groups_of. apply Forall_flat_map.
  eapply Forall_impl; [|apply (split_on_pieces "," raw)].
  intros piece Hfree. cbv beta.
  destruct (nonempty (py_strip piece)) eqn:Hne; constructor; [|constructor].
  split; [exact Hne|]. split; [apply py_strip_idem|].
  unfold py_strip. rewrite list_ascii_of_string_of_list_ascii.
  intros Hin. apply Hfree. now apply strip_chars_incl in Hin.
Qed.

Lemma rule_groups_join (l : list string) :
  Forall clean_group l -> rule_groups_of (join "," l) = l.
Proof.
  intros Hclean. destruct l as [|x rest]; [reflexivity|].
  unfold rule_groups_of. rewrite split_join.
  - induction Hclean as [|g l (Hne & Hstrip & _) _ IH]; [reflexivity|].
    cbn [flat_map]. rewrite Hstrip, Hne, IH. reflexivity.
  - discriminate.
  - eapply Forall_impl; [|exact Hclean]. intros g (_ & _ & H). exact H.
Qed.

Lemma dedupe_prefix (deduped groups : list string) :
  exists tail, dedupe deduped groups = (deduped ++ tail)%list.
Proof.
  revert deduped. induction groups as [|g rest IH]; intros deduped.
  - exists []. cbn. now rewrite app_nil_r.
  - cbn [dedupe].
    destruct (nonempty g && negb (in_list g deduped)).
    + destruct (IH (deduped ++ [g])%list) as [tail ->].
      exists (g :: tail). now rewrite <- app_assoc.
    + apply IH.
Qed.

Lemma dedupe_NoDup (deduped groups : list string) :
  NoDup deduped -> NoDup (dedupe deduped groups).
Proof.
  revert deduped. induction groups as [|g rest IH]; intros deduped Hnd;
    [exact Hnd|].
  cbn [dedupe].
  destruct (nonempty g) eqn:Hne; cbn [andb]; [|now apply IH].
  destruct (in_list g deduped) eqn:Hin; cbn [negb]; [now apply IH|].
  apply IH. apply in_list_not_In in Hin.
  apply NoDup_rev in Hnd.
  rewrite <- (rev_involutive (deduped ++ [g])). apply NoDup_rev.
  rewrite rev_app_distr. cbn. constructor; [|exact Hnd].
  now rewrite <- in_rev.
Qed.

Lemma dedupe_In (g : string) (deduped groups : list string) :
  In g (dedupe deduped groups)
  <-> In g deduped \/ (In g groups /\ g <> ""%string).
Proof.
  revert deduped. induction groups as [|x rest IH]; intros deduped.
  - cbn. tauto.
  - cbn [dedupe].
    destruct (nonempty x) eqn:Hne; cbn [andb].
    + apply nonempty_spec in Hne.
      destruct (in_list x deduped) eqn:Hin; cbn [negb]; rewrite IH.
      * apply in_list_In in Hin. cbn [In]. split.
        -- intros [H|[H Hg]]; [now left|right; split; [now right|exact Hg]].
        -- intros [H|[[->|H] Hg]]; [now left|now left|right; now split].
      * rewrite in_app_iff. cbn [In]. split.
        -- intros [[H|[->|[]]]|[H Hg]].
           ++ now left.
           ++ right. split; [now left|exact Hne].
           ++ right. split; [now right|exact Hg].
        -- intros [H|[[->|H] Hg]].
           ++ left. now left.
           ++ left. right. now left.
           ++ right. now split.
    + rewrite IH. cbn [In].
      assert (Hx : x = ""%string).
      { unfold nonempty in Hne. apply negb_false_iff in Hne.
        now apply String.eqb_eq in Hne. }
      split.
      * intros [H|[H Hg]]; [now left|right; split; [now right|exact Hg]].
      * intros [H|[[Heq|H] Hg]]; [now left| |right; now split].
        exfalso. apply Hg. now rewrite <- Heq.
Qed.

Lemma dedupe_Forall (P : string -> Prop) (deduped groups : list string) :
  Forall P deduped -> Forall P groups -> Forall P (dedupe deduped groups).
Proof.
  revert deduped. induction groups as [|g rest IH]; intros deduped Hd Hg;
    [exact Hd|].
  inversion Hg as [|? ? Hhead Hrest]; subst. cbn [dedupe].
  destruct (nonempty g && negb (in_list g deduped)).
  - apply IH; [|exact Hrest]. apply Forall_app. split; [exact Hd|].
    now constructor.
  - now apply IH.
Qed.

Lemma dedupe_fixed (deduped groups : list string) :
  NoDup (deduped ++ groups) ->
  Forall (fun g => nonempty g = true) groups ->
  dedupe deduped groups = (deduped ++ groups)%list.
Proof.
  revert deduped. induction groups as [|g rest IH]; intros deduped Hnd Hne.
  - cbn. now rewrite app_nil_r.
  - inversion Hne as [|? ? Hg Hrest]; subst. cbn [dedupe]. rewrite Hg.
    assert (Hin : in_list g deduped = false).
    { apply in_list_not_In. intros Hin.
      apply NoDup_remove_2 in Hnd. apply Hnd.
      apply in_or_app. now left. }
    rewrite Hin. cbn [andb negb].
    rewrite IH; [now rewrite <- app_assoc| |exact Hrest].
    now rewrite <- app_assoc.
Qed.

Lemma dedupe_idem (groups : list string) :
  dedupe [] (dedupe [] groups) = dedupe [] groups.
Proof.
  apply (dedupe_fixed [] (dedupe [] groups)).
  - cbn. apply dedupe_NoDup. constructor.
  - apply Forall_forall. intros g Hin. apply dedupe_In in Hin.
    destruct Hin as [[]|[_ Hne]]. now apply nonempty_spec.
Qed.

Lemma dedupe_filter (keep : string -> bool) (deduped groups : list string) :
  filter keep (dedupe deduped groups)
  = dedupe (filter keep deduped) (filter keep groups).
Proof.
  revert deduped. induction groups as [|g rest IH]; intros deduped;
    [reflexivity|].
  cbn [dedupe filter].
  destruct (nonempty g) eqn:Hne; cbn [andb].
  - destruct (in_list g deduped) eqn:Hin; cbn [negb].
    + rewrite IH. destruct (keep g) eqn:Hk; [|reflexivity].
      cbn [dedupe]. rewrite Hne.
      assert (Hin' : in_list g (filter keep deduped) = true).
      { apply in_list_In. apply filter_In. split; [|exact Hk].
        now apply in_list_In. }
      now rewrite Hin'.
    + rewrite IH, filter_app. cbn [filter].
      destruct (keep g) eqn:Hk.
      * cbn [dedupe]. rewrite Hne.
        assert (Hin' : in_list g (filter keep deduped) = false).
        { apply in_list_not_In. intros H. apply filter_In in H.
          apply in_list_not_In in Hin. now apply Hin. }
        now rewrite Hin'.
      * now rewrite app_nil_r.
  - rewrite IH. destruct (keep g); [|reflexivity].
    cbn [dedupe]. now rewrite Hne.
Qed.

Lemma clean_rule_group : clean_group KWIN_RULE_GROUP.
Proof.
  split; [reflexivity|]. split; [reflexivity|].
  cbn. intuition discriminate.
Qed.

Lemma read_after_write (k : KTools) (groups : list string) :
  Forall clean_group groups ->
  _get_kwin_rule_groups (rules_written k groups) = dedupe [] groups.
Proof.
  intros Hclean. unfold _get_kwin_rule_groups, rules_written, rules_value.
  cbn [rules_read]. apply rule_groups_join.
  apply dedupe_Forall; [constructor|exact Hclean].
Qed.

Lemma dedupe_clean_In (g : string) (groups : list string) :
  Forall clean_group groups ->
  In g (dedupe [] groups) <-> In g groups.
Proof.
  intros Hclean. rewrite dedupe_In. cbn [In]. split.
  - intros [[]|[H _]]. exact H.
  - intros H. right. split; [exact H|].
    rewrite Forall_forall in Hclean. destruct (Hclean g H) as (Hne & _).
    now apply nonempty_spec.
Qed.

(** X19. The groups read from the KWin rule list are never empty, carry no
    surrounding whitespace (that of [str.strip]: a no-break space around
    a group is dropped like a blank) and no comma.  For groups of that kind, reading
    the list back after [_set_kwin_rule_groups] wrote it gives the groups
    without repetition, each once, in the order of their first occurrence,
    and the count written beside it is the number of groups read back. *)
Theorem X19_rule_list_round_trip :
  (forall k, Forall clean_group (_get_kwin_rule_groups k))
  /\ (forall k groups,
        Forall clean_group groups ->
        let read_back := _get_kwin_rule_groups (rules_written k groups) in
        read_back = dedupe [] groups
        /\ NoDup read_back
        /\ (forall g, In g read_back <-> In g groups)
        /\ (NoDup groups -> read_back = groups)
        /\ count_value groups = decimal (Z.of_nat (List.length read_back))).
Proof.
  split; [intros k; apply rule_groups_clean|].
  intros k groups Hclean read_back. subst read_back.
  rewrite (read_after_write k groups Hclean).
  split; [reflexivity|]. split; [apply dedupe_NoDup; constructor|].
  split; [intros g; now apply dedupe_clean_In|].
  split; [|reflexivity].
  intros Hnd. apply (dedupe_fixed [] groups Hnd).
  eapply Forall_impl; [|exact Hclean]. now intros g (H & _).
Qed.

Lemma X19_rule_list_sample :
  _get_kwin_rule_groups (rules_written (kde_session "") ["1"; "2"; "1"])
  = ["1"; "2"]
  /\ _get_kwin_rule_groups (kde_session ("1" ++ no_break_space ++ ", 2"))
     = ["1"; "2"]
  /\ Forall clean_group
       (_get_kwin_rule_groups (kde_session ("1" ++ no_break_space ++ ", 2"))).
Proof.
  destruct X19_rule_list_round_trip as [Hread H].
  split; [|split; [vm_compute; reflexivity|apply Hread]].
  destruct (H (kde_session "") ["1"; "2"; "1"]) as [-> _];
    [|vm_compute; reflexivity].
  repeat constructor; try (vm_compute; reflexivity);
    cbn; intuition discriminate.
Defined.

Lemma groups_to_install_clean (k : KTools) :
  Forall clean_group (groups_to_install k).
Proof.
  unfold groups_to_install.
  destruct (in_list KWIN_RULE_GROUP (_get_kwin_rule_groups k));
    cbn [negb]; [apply rule_groups_clean|].
  apply Forall_app. split; [apply rule_groups_clean|].
  constructor; [apply clean_rule_group|constructor].
Qed.

Lemma groups_to_install_In (k : KTools) (g : string) :
  In g (groups_to_install k)
  <-> g = KWIN_RULE_GROUP \/ In g (_get_kwin_rule_groups k).
Proof.
  unfold groups_to_install.
  destruct (in_list KWIN_RULE_GROUP (_get_kwin_rule_groups k)) eqn:Hin;
    cbn [negb].
  - apply in_list_In in Hin. split; [now right|].
    intros [->|H]; [exact Hin|exact H].
  - rewrite in_app_iff. cbn [In]. split.
    + intros [H|[<-|[]]]; [now right|now left].
    + intros [->|H]; [right; now left|now left].
Qed.

Lemma groups_to_keep_clean (k : KTools) :
  Forall clean_group (groups_to_keep k).
Proof.
  unfold groups_to_keep. apply Forall_forall. intros g Hin.
  apply filter_In in Hin. destruct Hin as [Hin _].
  pose proof (rule_groups_clean (rules_read k)) as Hclean.
  rewrite Forall_forall in Hclean. now apply Hclean.
Qed.

Lemma groups_to_keep_In (k : KTools) (g : string) :
  In g (groups_to_keep k)
  <-> g <> KWIN_RULE_GROUP /\ In g (_get_kwin_rule_groups k).
Proof.
  unfold groups_to_keep. rewrite filter_In, negb_true_iff, String.eqb_neq.
  tauto.
Qed.

Lemma keep_after_install (k : KTools) :
  filter (fun group => negb (String.eqb group KWIN_RULE_GROUP))
         (groups_to_install k)
  = groups_to_keep k.
Proof.
  unfold groups_to_install, groups_to_keep.
  destruct (in_list KWIN_RULE_GROUP (_get_kwin_rule_groups k));
    cbn [negb]; [reflexivity|].
  rewrite filter_app. cbn [filter].
  rewrite String.eqb_refl. cbn [negb]. now rewrite app_nil_r.
Qed.

(** X20. Once [install_kwin_keep_above_rule] has updated the rule list, the
    list read back holds the rule group exactly once together with the
    groups that were there before, the rule counts as enabled, and
    installing again writes the same list.  After
    [remove_kwin_keep_above_rule] the list holds the other groups only, the
    rule counts as not enabled, and removing after installing writes the
    same list as removing at once. *)
Theorem X20_install_and_remove_rule (k : KTools) :
  let installed := rules_written k (groups_to_install k) in
  let removed := rules_written k (groups_to_keep k) in
  is_kwin_rule_enabled installed = tools_found k
  /\ count_occ string_dec (_get_kwin_rule_groups installed) KWIN_RULE_GROUP
     = 1%nat
  /\ (forall g, In g (_get_kwin_rule_groups installed)
                <-> g = KWIN_RULE_GROUP \/ In g (_get_kwin_rule_groups k))
  /\ rules_value (groups_to_install installed)
     = rules_value (groups_to_install k)
  /\ is_kwin_rule_enabled removed = false
  /\ (forall g, In g (_get_kwin_rule_groups removed)
                <-> g <> KWIN_RULE_GROUP /\ In g (_get_kwin_rule_groups k))
  /\ rules_value (groups_to_keep installed) = rules_value (groups_to_keep k).
Proof.
  intros installed removed.
  assert (Hread : _get_kwin_rule_groups installed
                  = dedupe [] (groups_to_install k))
    by apply read_after_write, groups_to_install_clean.
  assert (Hread' : _get_kwin_rule_groups removed
                   = dedupe [] (groups_to_keep k))
    by apply read_after_write, groups_to_keep_clean.
  assert (Hmembers : forall g, In g (_get_kwin_rule_groups installed)
            <-> g = KWIN_RULE_GROUP \/ In g (_get_kwin_rule_groups k)).
  { intros g. rewrite Hread.
    rewrite (dedupe_clean_In g _ (groups_to_install_clean k)).
    apply groups_to_install_In. }
  assert (Hthere : In KWIN_RULE_GROUP (_get_kwin_rule_groups installed))
    by (apply Hmembers; now left).
  assert (Hothers : forall g, In g (_get_kwin_rule_groups removed)
            <-> g <> KWIN_RULE_GROUP /\ In g (_get_kwin_rule_groups k)).
  { intros g. rewrite Hread'.
    rewrite (dedupe_clean_In g _ (groups_to_keep_clean k)).
    apply groups_to_keep_In. }
  split.
  { unfold is_kwin_rule_enabled. change (tools_found installed)
      with (tools_found k). destruct (tools_found k); [|reflexivity].
    now apply in_list_In. }
  split.
  { apply NoDup_count_occ'; [|exact Hthere].
    rewrite Hread. apply dedupe_NoDup. constructor. }
  split; [exact Hmembers|]. split.
  { unfold groups_to_install at 1.
    apply in_list_In in Hthere. rewrite Hthere. cbn [negb].
    rewrite Hread. unfold rules_value. now rewrite dedupe_idem. }
  split.
  { unfold is_kwin_rule_enabled. change (tools_found removed)
      with (tools_found k). destruct (tools_found k); [|reflexivity].
    apply in_list_not_In. intros Hin. apply Hothers in Hin.
    now destruct Hin as [Hne _]. }
  split; [exact Hothers|].
  unfold groups_to_keep at 1. rewrite Hread.
  rewrite (dedupe_filter _ [] (groups_to_install k)). cbn [filter].
  rewrite keep_after_install. unfold rules_value. now rewrite dedupe_idem.
Qed.

Lemma forallb_map_id (A : Type) (f : A -> bool) (l : list A) :
  forallb (fun ok => ok) (map f l) = forallb f l.
Proof.
  induction l as [|a l IH]; [reflexivity|]. cbn. now rewrite IH.
Qed.

(** X21. [install_kwin_keep_above_rule] reports success exactly when the
    tools were found and every call it made succeeded; when a write of the
    rule itself fails it makes no call on the rule list, and it never
    deletes a key.  [remove_kwin_keep_above_rule] reports success exactly
    when the tools were found and the rule list was updated, whatever
    becomes of the deletions; it deletes keys only then, and the keys it
    deletes are the keys the installation writes. *)
Theorem X21_kwin_rule_outcomes (k : KTools) :
  let installing := install_kwin_keep_above_rule k in
  let removing := remove_kwin_keep_above_rule k in
  fst (fst installing)
  = tools_found k && forallb (call_ok k) (snd installing)
  /\ (forallb (call_ok k) rule_writes = false ->
      Forall (fun c => call_group c = KWIN_RULE_GROUP) (snd installing))
  /\ forallb (fun c => negb (is_delete c)) (snd installing) = true
  /\ fst (fst removing)
     = tools_found k && fst (_set_kwin_rule_groups k (groups_to_keep k))
  /\ (fst (fst removing) = true ->
      snd removing
      = (snd (_set_kwin_rule_groups k (groups_to_keep k))
           ++ map (DeleteKey KWIN_RULE_GROUP) (map call_key rule_writes))%list)
  /\ (fst (fst removing) = false ->
      forallb (fun c => negb (is_delete c)) (snd removing) = true).
Proof.
  intros installing removing. subst installing removing.
  unfold install_kwin_keep_above_rule, remove_kwin_keep_above_rule.
  rewrite forallb_map_id.
  destruct (tools_found k); cbn [negb andb fst snd].
  2: { repeat split; try reflexivity; try discriminate.
       intros _. constructor. }
  destruct (forallb (call_ok k) rule_writes) eqn:Hwrites; cbn [negb].
  - unfold _set_kwin_rule_groups.
    destruct (call_ok k (WriteValue "General" "rules"
                           (rules_value (groups_to_install k)) None)) eqn:Ha;
      destruct (call_ok k (WriteValue "General" "count"
                             (count_value (groups_to_install k)) None)) eqn:Hb;
      destruct (call_ok k (WriteValue "General" "rules"
                             (rules_value (groups_to_keep k)) None)) eqn:Hc;
      destruct (call_ok k (WriteValue "General" "count"
                             (count_value (groups_to_keep k)) None)) eqn:Hd;
      destruct (reload_ok k); cbn [negb andb fst snd];
      rewrite ?forallb_app, ?Hwrites; cbn [forallb andb];
      rewrite ?Ha, ?Hb, ?Hc, ?Hd; cbn [andb];
      repeat split; try reflexivity; try discriminate.
  - unfold _set_kwin_rule_groups.
    destruct (call_ok k (WriteValue "General" "rules"
                           (rules_value (groups_to_keep k)) None)) eqn:Hc;
      destruct (call_ok k (WriteValue "General" "count"
                             (count_value (groups_to_keep k)) None)) eqn:Hd;
      destruct (reload_ok k); cbn [negb andb fst snd];
      rewrite ?Hwrites;
      repeat split; try reflexivity; try discriminate;
      try (intros _; repeat constructor).
Qed.

Lemma X21_failed_write_sample :
  Forall (fun c => call_group c = KWIN_RULE_GROUP)
         (snd (install_kwin_keep_above_rule (read_only_session "a,b"))).
Proof.
  destruct (X21_kwin_rule_outcomes (read_only_session "a,b"))
    as (_ & H & _).
  apply H. vm_compute. reflexivity.
Defined.

(** ** Readout fonts *)

Lemma insert_sorted_In (x y : string) (l : list string) :
  In y (insert_sorted x l) <-> y = x \/ In y l.
Proof.
  induction l as [|z rest IH]; cbn [insert_sorted].
  - cbn. intuition congruence.
  - destruct (String.leb x z); cbn [In]; [intuition congruence|].
    rewrite IH. intuition congruence.
Qed.

Lemma insert_sorted_NoDup (x : string) (l : list string) :
  ~ In x l -> NoDup l -> NoDup (insert_sorted x l).
Proof.
  induction l as [|z rest IH]; intros Hx Hnd; cbn [insert_sorted].
  - constructor; [intros []|constructor].
  - destruct (String.leb x z); [now constructor|].
    inversion Hnd as [|? ? Hz Hrest]; subst. constructor.
    + rewrite insert_sorted_In. intros [->|H]; [|now apply Hz].
      apply Hx. now left.
    + apply IH; [|exact Hrest]. intros H. apply Hx. now right.
Qed.

Lemma sorted_set_In (x : string) (names : list string) :
  In x (sorted_set names) <-> In x names.
Proof.
  unfold sorted_set. rewrite <- (nodup_In string_dec names x).
  induction (nodup string_dec names) as [|y rest IH]; [reflexivity|].
  cbn [fold_right]. rewrite insert_sorted_In, IH. cbn [In].
  intuition congruence.
Qed.

Lemma sorted_set_NoDup (names : list string) : NoDup (sorted_set names).
Proof.
  unfold sorted_set. pose proof (NoDup_nodup string_dec names) as Hnd.
  induction Hnd as [|y rest Hy Hrest IH]; [constructor|].
  cbn [fold_right]. apply insert_sorted_NoDup; [|exact IH].
  intros H. apply Hy. clear -H.
  induction rest as [|z rest IH]; [exact H|].
  cbn [fold_right] in H. apply insert_sorted_In in H.
  destruct H as [->|H]; [now left|right; now apply IH].
Qed.

Lemma add_preferred_In (f : string) (families choices fonts : list string) :
  In f (add_preferred families choices fonts)
  <-> In f choices \/ (In f fonts /\ In f families).
Proof.
  revert choices. induction fonts as [|p rest IH]; intros choices.
  - cbn. tauto.
  - cbn [add_preferred].
    destruct (in_list p families) eqn:Hfam; cbn [andb].
    + apply in_list_In in Hfam.
      destruct (in_list p choices) eqn:Hin; cbn [negb]; rewrite IH.
      * apply in_list_In in Hin. cbn [In]. split.
        -- intros [H|[H Hf]]; [now left|right; split; [now right|exact Hf]].
        -- intros [H|[[->|H] Hf]]; [now left|now left|right; now split].
      * rewrite in_app_iff. cbn [In]. split.
        -- intros [[H|[->|[]]]|[H Hf]].
           ++ now left.
           ++ right. split; [now left|exact Hfam].
           ++ right. split; [now right|exact Hf].
        -- intros [H|[[->|H] Hf]].
           ++ left. now left.
           ++ left. right. now left.
           ++ right. now split.
    + apply in_list_not_In in Hfam. rewrite IH. cbn [In]. split.
      * intros [H|[H Hf]]; [now left|right; split; [now right|exact Hf]].
      * intros [H|[[->|H] Hf]]; [now left|contradiction|right; now split].
Qed.

Lemma add_preferred_NoDup (families choices fonts : list string) :
  NoDup choices -> NoDup (add_preferred families choices fonts).
Proof.
  revert choices. induction fonts as [|p rest IH]; intros choices Hnd;
    [exact Hnd|].
  cbn [add_preferred].
  destruct (in_list p families); cbn [andb]; [|now apply IH].
  destruct (in_list p choices) eqn:Hin; cbn [negb]; [now apply IH|].
  apply IH. apply in_list_not_In in Hin.
  apply NoDup_app; [exact Hnd|repeat constructor; intros []|].
  intros a Ha [<-|[]]. now apply Hin.
Qed.

Lemma add_preferred_length (families choices fonts : list string) :
  (List.length (add_preferred families choices fonts)
   <= List.length choices + List.length fonts)%nat.
Proof.
  revert choices. induction fonts as [|p rest IH]; intros choices.
  - cbn. lia.
  - cbn [add_preferred List.length].
    destruct (in_list p families && negb (in_list p choices)).
    + specialize (IH (choices ++ [p])%list).
      rewrite List.length_app in IH. cbn in IH. lia.
    + specialize (IH choices). lia.
Qed.

Lemma in_firstn (A : Type) (n : nat) (l : list A) (x : A) :
  In x (firstn n l) -> In x l.
Proof.
  intros H. rewrite <- (firstn_skipn n l). apply in_or_app. now left.
Qed.

Lemma NoDup_firstn (A : Type) (n : nat) (l : list A) :
  NoDup l -> NoDup (firstn n l).
Proof.
  intros H. rewrite <- (firstn_skipn n l) in H.
  now apply NoDup_app_remove_r in H.
Qed.

Lemma font_choices_one_checked (available : list string) (w : Widget) :
  NoDup available ->
  count_occ string_dec (font_choices available w) (readout_font_family w)
  = 1%nat.
Proof.
  intros Hnd. unfold font_choices.
  destruct (in_list (readout_font_family w) available) eqn:Hin; cbn [negb].
  - apply NoDup_count_occ'; [exact Hnd|now apply in_list_In].
  - apply in_list_not_In in Hin.
    rewrite count_occ_cons_eq by reflexivity.
    f_equal. now apply count_occ_not_In.
Qed.

(** X22. The font choices offered never repeat a family and always hold
    the default family.  Every other choice is an installed family that is
    a preferred font or has a fixed pitch; every preferred font that is
    installed is offered; and there are at most as many choices as
    preferred fonts, plus the limit on the others, plus one.  The font menu
    built from the choices has exactly one entry for the current readout
    font, hence exactly one checked entry. *)
Theorem X22_readout_font_choices (gui_ready : bool)
    (db_families : list string) (isFixedPitch : string -> bool)
    (max_dynamic_fonts : nat) :
  let choices :=
    get_readout_font_choices gui_ready db_families isFixedPitch
                             max_dynamic_fonts in
  NoDup choices
  /\ In DEFAULT_READOUT_FONT choices
  /\ (forall f, In f choices ->
        f = DEFAULT_READOUT_FONT
        \/ (In f db_families
            /\ (In f PREFERRED_READOUT_FONTS \/ isFixedPitch f = true)))
  /\ (gui_ready = true ->
      forall f, In f PREFERRED_READOUT_FONTS -> In f db_families ->
                In f choices)
  /\ (List.length choices
      <= List.length PREFERRED_READOUT_FONTS + max_dynamic_fonts + 1)%nat
  /\ (forall w,
        count_occ string_dec (font_choices choices w) (readout_font_family w)
        = 1%nat
        /\ (forall family, font_checked w family = true
                           <-> family = readout_font_family w)).
Proof.
  intros choices.
  assert (Hchecked : forall w family,
             font_checked w family = true <-> family = readout_font_family w).
  { intros w family. unfold font_checked. rewrite String.eqb_eq.
    split; congruence. }
  subst choices. unfold get_readout_font_choices.
  destruct gui_ready; cbn [negb].
  2: { assert (Hnd : NoDup [DEFAULT_READOUT_FONT])
         by (repeat constructor; intros []).
       split; [exact Hnd|]. split; [now left|].
       split; [intros f [<-|[]]; now left|].
       split; [discriminate|]. split; [cbn; lia|].
       intros w. split; [now apply font_choices_one_checked|apply Hchecked]. }
  set (families := sorted_set db_families).
  set (preferred := add_preferred families [] PREFERRED_READOUT_FONTS).
  set (dynamic_fixed :=
         filter (fun family => isFixedPitch family
                               && negb (in_list family preferred)) families).
  set (both := (preferred ++ firstn max_dynamic_fonts dynamic_fixed)%list).
  assert (Hpref : forall f, In f preferred
             <-> In f PREFERRED_READOUT_FONTS /\ In f db_families).
  { intros f. unfold preferred. rewrite add_preferred_In.
    unfold families. rewrite sorted_set_In. cbn [In]. tauto. }
  assert (Hdyn : forall f, In f (firstn max_dynamic_fonts dynamic_fixed) ->
             In f db_families /\ isFixedPitch f = true /\ ~ In f preferred).
  { intros f H. apply in_firstn in H. unfold dynamic_fixed in H.
    apply filter_In in H. destruct H as [Hin Htest].
    apply andb_true_iff in Htest. destruct Htest as [Hfixed Hnot].
    apply negb_true_iff, in_list_not_In in Hnot.
    split; [now apply sorted_set_In|]. now split. }
  assert (Hboth : NoDup both).
  { unfold both. apply NoDup_app.
    - apply add_preferred_NoDup. constructor.
    - apply NoDup_firstn, NoDup_filter, sorted_set_NoDup.
    - intros a Ha Hin. apply Hdyn in Hin. now destruct Hin as (_ & _ & H). }
  assert (Hlen : (List.length both
                  <= List.length PREFERRED_READOUT_FONTS
                     + max_dynamic_fonts)%nat).
  { unfold both. rewrite List.length_app.
    pose proof (add_preferred_length families [] PREFERRED_READOUT_FONTS)
      as H1.
    pose proof (firstn_le_length max_dynamic_fonts dynamic_fixed) as H2.
    fold preferred in H1. cbn [List.length] in H1. lia. }
  assert (Hfrom : forall f, In f both ->
             In f db_families
             /\ (In f PREFERRED_READOUT_FONTS \/ isFixedPitch f = true)).
  { intros f H. unfold both in H. apply in_app_or in H.
    destruct H as [H|H].
    - apply Hpref in H. destruct H as [H1 H2]. split; [exact H2|now left].
    - apply Hdyn in H. destruct H as (H1 & H2 & _).
      split; [exact H1|now right]. }
  destruct (in_list DEFAULT_READOUT_FONT both) eqn:Hdefault; cbn [negb].
  - apply in_list_In in Hdefault.
    split; [exact Hboth|]. split; [exact Hdefault|].
    split; [intros f H; right; now apply Hfrom|].
    split.
    { intros _ f H1 H2. unfold both. apply in_or_app. left.
      apply Hpref. now split. }
    split; [lia|].
    intros w. split; [now apply font_choices_one_checked|apply Hchecked].
  - apply in_list_not_In in Hdefault.
    assert (Hnd : NoDup (both ++ [DEFAULT_READOUT_FONT])).
    { apply NoDup_app; [exact Hboth|repeat constructor; intros []|].
      intros a Ha [<-|[]]. now apply Hdefault. }
    split; [exact Hnd|].
    split; [apply in_or_app; right; now left|].
    split.
    { intros f H. apply in_app_or in H.
      destruct H as [H|[<-|[]]]; [right; now apply Hfrom|now left]. }
    split.
    { intros _ f H1 H2. apply in_or_app. left. unfold both.
      apply in_or_app. left. apply Hpref. now split. }
    split; [rewrite List.length_app; cbn [List.length]; lia|].
    intros w. split; [now apply font_choices_one_checked|apply Hchecked].
Qed.

Lemma X22_font_sample :
  In "Fira Code"
     (get_readout_font_choices true ["Courier"; "Fira Code"; "Arial"]
        (fun family => String.eqb family "Courier") 28).
Proof.
  destruct (X22_readout_font_choices true ["Courier"; "Fira Code"; "Arial"]
              (fun family => String.eqb family "Courier") 28)
    as (_ & _ & _ & H & _).
  apply H; [reflexivity| |]; cbn; tauto.
Defined.

Example font_choices_sample :
  get_readout_font_choices true ["Courier"; "Fira Code"; "Arial"; "Courier"]
    (fun family => String.eqb family "Courier") 28
  = ["Fira Code"; "Courier"; "Monospace"].
Proof. reflexivity. Qed.

(** ** The launch command *)

Example launch_command_sample :
  build_launch_command None "/opt/dt/floating_clock.py" (PyInt 1000)
    (FFinite (125 # 1000)) true (PyStr "bottom") PyNone (PyStr "ocean")
    (PyStr " Fira Code ")
  = Val [ "/usr/bin/python3"; "/opt/dt/floating_clock.py"; "--size"; "640";
          "--opacity"; "0.12"; "--mode"; "clock"; "--theme"; "ocean";
          "--readout-font"; "Fira Code"; "--on-bottom"; "--hide-seconds" ].
Proof. vm_compute. reflexivity. Qed.

Lemma clamp_opacity_bounds (value : pyfloat) :
  exists q : Q,
    _clamp_opacity value = FFinite q /\ (5 # 100 <= q)%Q /\ (q <= 95 # 100)%Q.
Proof.
  unfold _clamp_opacity, py_max, py_min.
  destruct value as [x | [|] |]; cbn [float_lt negb andb].
  - destruct (Qle_bool x (95 # 100)) eqn:Hhi; cbn [negb float_lt].
    + apply Qle_bool_iff in Hhi.
      destruct (Qle_bool x (5 # 100)) eqn:Hlo; cbn [negb].
      * exists (5 # 100). repeat split; discriminate.
      * exists x. repeat split; [|exact Hhi].
        apply Qlt_le_weak, Qnot_le_lt. intros H.
        apply Qle_bool_iff in H. congruence.
    + exists (95 # 100). repeat split; discriminate.
  - exists (5 # 100). repeat split; discriminate.
  - exists (95 # 100). repeat split; discriminate.
  - exists (5 # 100). repeat split; discriminate.
Qed.

Lemma format_2f_clamped (q : Q) :
  (5 # 100 <= q)%Q -> (q <= 95 # 100)%Q ->
  exists h : Z,
    5 <= h <= 95
    /\ format_2f (FFinite q) = ("0." ++ format_zero_padded 2 h)%string
    /\ (inject_Z h - (1 # 2) <= q * (100 # 1))%Q
    /\ (q * (100 # 1) <= inject_Z h + (1 # 2))%Q.
Proof.
  intros Hlo Hhi.
  assert (Hpos : (0 <= q)%Q) by lra.
  pose proof (Qabs_pos q Hpos) as Habs.
  destruct (round_half_even_near (Qabs q * (100 # 1))) as [Hl Hu].
  remember (round_half_even (Qabs q * (100 # 1))) as h eqn:Hdef.
  rewrite Habs in Hl, Hu.
  assert (Hh : 5 <= h <= 95).
  { assert (H4 : 4 < h)
      by (rewrite Zlt_Qlt; change (inject_Z 4) with 4%Q; lra).
    assert (H96 : h < 96)
      by (rewrite Zlt_Qlt; change (inject_Z 96) with 96%Q; lra).
    lia. }
  exists h. split; [exact Hh|]. split; [|split; assumption].
  unfold format_2f. rewrite <- Hdef.
  assert (Hb : Qle_bool 0 q = true) by now apply Qle_bool_iff.
  rewrite Hb, (Z.div_small h 100), (Z.mod_small h 100) by lia.
  reflexivity.
Qed.

Lemma py_str_reads_back (n : Z) :
  0 <= n < 1000 -> py_int (PyStr (py_str n)) = Val n.
Proof.
  intros Hn.
  pose (P := fun n : Z =>
               match py_int (PyStr (py_str n)) with
               | Val m => m =? n
               | Err _ => false
               end).
  assert (H : P n = true)
    by (apply (below_bound P 1000); [now vm_compute|exact Hn]).
  unfold P in H. destruct (py_int (PyStr (py_str n))) as [m|e];
    [|discriminate]. apply Z.eqb_eq in H. now subst.
Qed.

Lemma layer_flag_cases (v : pyval) :
  (_valid_layer v = LAYER_TOP /\ layer_flag (_valid_layer v) = "--on-top")
  \/ (_valid_layer v = LAYER_NORMAL
      /\ layer_flag (_valid_layer v) = "--normal-layer")
  \/ (_valid_layer v = LAYER_BOTTOM
      /\ layer_flag (_valid_layer v) = "--on-bottom").
Proof.
  destruct (valid_layer_cases v) as [H | [H | H]]; rewrite H.
  - left. now split.
  - right. left. now split.
  - right. right. now split.
Qed.

(** X23. [build_launch_command] fails only as its normalisers do: with
    [OverflowError] on an infinite size, else with [TypeError] on a theme
    that cannot be hashed.  Otherwise the command names the interpreter and
    the program and then carries the normalised settings: a size that
    [int] reads back to the same number, an opacity of the form [0.dd]
    within half a hundredth of the clamped value, a mode and a theme out of
    the closed sets, the font, exactly one of the three layer flags, the
    one of the normalised layer, and [--hide-seconds] when asked for.
    Building the command from the normalised settings gives the same
    command. *)
Theorem X23_launch_command_tokens (executable : option string)
    (script : string) (size : pyval) (opacity : pyfloat)
    (hide_seconds : bool) (layer mode theme readout_font : pyval) :
  let built := build_launch_command executable script size opacity
                 hide_seconds layer mode theme readout_font in
  (is_infinite size = true -> built = Err OverflowError)
  /\ (is_infinite size = false -> hashable theme = false ->
      built = Err TypeError)
  /\ (is_infinite size = false -> hashable theme = true ->
      exists (n h : Z) (t : string) (q : Q),
        _valid_size size = Val n
        /\ _valid_theme theme = Val t
        /\ _clamp_opacity opacity = FFinite q
        /\ built
           = Val ([ match executable with
                    | Some path => path
                    | None => "/usr/bin/python3"
                    end; script;
                    "--size"; py_str n;
                    "--opacity"; ("0." ++ format_zero_padded 2 h)%string;
                    "--mode"; _valid_mode mode;
                    "--theme"; t;
                    "--readout-font"; _normalize_readout_font readout_font;
                    layer_flag (_valid_layer layer) ]
                    ++ (if hide_seconds then ["--hide-seconds"] else []))%list
        /\ py_int (PyStr (py_str n)) = Val n
        /\ 5 <= h <= 95
        /\ (inject_Z h - (1 # 2) <= q * (100 # 1))%Q
        /\ (q * (100 # 1) <= inject_Z h + (1 # 2))%Q
        /\ (_valid_mode mode = MODE_CLOCK \/ _valid_mode mode = MODE_STOPWATCH)
        /\ known_theme t
        /\ ((_valid_layer layer = LAYER_TOP
             /\ layer_flag (_valid_layer layer) = "--on-top")
            \/ (_valid_layer layer = LAYER_NORMAL
                /\ layer_flag (_valid_layer layer) = "--normal-layer")
            \/ (_valid_layer layer = LAYER_BOTTOM
                /\ layer_flag (_valid_layer layer) = "--on-bottom"))
        /\ build_launch_command executable script (PyInt n) opacity
             hide_seconds (PyStr (_valid_layer layer))
             (PyStr (_valid_mode mode)) (PyStr t)
             (PyStr (_normalize_readout_font readout_font))
           = built).
Proof.
  intros built. subst built. unfold build_launch_command.
  split; [intros Hinf; now rewrite (valid_size_overflow size Hinf)|].
  split.
  { intros Hfin Hhash. destruct (valid_size_total size Hfin) as [n ->].
    now rewrite (valid_theme_unhashable theme Hhash). }
  intros Hfin Hhash.
  destruct (valid_size_total size Hfin) as [n Hn].
  destruct (valid_theme_total theme Hhash) as [t Ht].
  destruct (clamp_opacity_bounds opacity) as (q & Hq & Hlo & Hhi).
  destruct (format_2f_clamped q Hlo Hhi) as (h & Hh & Hfmt & Hl & Hu).
  pose proof (valid_size_range size n Hn) as Hrange.
  unfold MIN_CLOCK_SIZE, MAX_CLOCK_SIZE in Hrange.
  exists n, h, t, q.
  rewrite Hn, Ht, Hq, Hfmt.
  rewrite (valid_size_idem size n Hn), (valid_theme_idem theme t Ht).
  rewrite valid_layer_idem, valid_mode_idem, normalize_readout_font_idem.
  split; [reflexivity|]. split; [reflexivity|]. split; [reflexivity|].
  split; [now destruct hide_seconds|].
  split; [apply py_str_reads_back; lia|].
  split; [exact Hh|]. split; [exact Hl|]. split; [exact Hu|].
  split; [apply valid_mode_cases|].
  split; [exact (valid_theme_known theme t Ht)|].
  split; [apply layer_flag_cases|reflexivity].
Qed.

Lemma X23_launch_sample :
  exists command,
    build_launch_command None "/opt/dt/floating_clock.py" (PyInt 1000)
      (FFinite (125 # 1000)) true (PyStr "bottom") PyNone (PyStr "ocean")
      (PyStr " Fira Code ")
    = Val command
    /\ nth 3 command "" = "640".
Proof.
  destruct (X23_launch_command_tokens None "/opt/dt/floating_clock.py"
              (PyInt 1000) (FFinite (125 # 1000)) true (PyStr "bottom")
              PyNone (PyStr "ocean") (PyStr " Fira Code "))
    as (_ & _ & H).
  destruct H as (n & h & t & q & Hn & _ & _ & Hbuilt & _);
    [vm_compute; reflexivity|vm_compute; reflexivity|].
  eexists. split; [exact Hbuilt|].
  vm_compute in Hn. inversion Hn; subst. vm_compute. reflexivity.
Defined.

(** ** The desktop entry *)

Lemma escaped_cons (c : ascii) (rest : string) :
  escaped (String c rest)
  = ((if is_special c then String BACKSLASH (String c "") else String c "")
       ++ escaped rest)%string.
Proof.
  destruct c as [[] [] [] [] [] [] [] []]; reflexivity.
Qed.

Lemma escaped_chars (c : ascii) (value : string) :
  In c (list_ascii_of_string (escaped value)) ->
  c = BACKSLASH \/ In c (list_ascii_of_string value).
Proof.
  induction value as [|x rest IH]; [intros []|].
  rewrite escaped_cons. destruct (is_special x); cbn; intuition.
Qed.

Lemma chars_app (a b : string) :
  list_ascii_of_string (a ++ b)
  = (list_ascii_of_string a ++ list_ascii_of_string b)%list.
Proof.
  induction a as [|x a IH]; [reflexivity|]. cbn. now rewrite IH.
Qed.

Lemma desktop_escape_chars (c : ascii) (value : string) :
  In c (list_ascii_of_string (_desktop_escape value)) ->
  c = BACKSLASH \/ c = QUOTE \/ In c (list_ascii_of_string value).
Proof.
  unfold _desktop_escape. destruct (needs_quotes value).
  - cbn [list_ascii_of_string]. rewrite chars_app. cbn [In].
    rewrite in_app_iff. cbn [list_ascii_of_string In].
    intros [H|[H|[H|[]]]]; try (right; left; now symmetry).
    apply escaped_chars in H. tauto.
  - intros H. apply escaped_chars in H. tauto.
Qed.

Lemma join_chars (c : ascii) (sep : string) (parts : list string) :
  In c (list_ascii_of_string (join sep parts)) ->
  In c (list_ascii_of_string sep)
  \/ exists part, In part parts /\ In c (list_ascii_of_string part).
Proof.
  induction parts as [|x rest IH]; [intros []|].
  destruct rest as [|y rest].
  - cbn [join]. intros H. right. exists x. split; [now left|exact H].
  - change (join sep (x :: y :: rest))
      with (x ++ sep ++ join sep (y :: rest))%string.
    rewrite !chars_app, !in_app_iff. intros [H|[H|H]].
    + right. exists x. split; [now left|exact H].
    + now left.
    + destruct (IH H) as [Hs|(part & Hin & Hc)]; [now left|].
      right. exists part. split; [now right|exact Hc].
Qed.

Lemma exec_line_free (launch_command : list string) :
  free_of NEWLINE launch_command ->
  ~ In NEWLINE (list_ascii_of_string (exec_line launch_command)).
Proof.
  intros Hfree H. unfold exec_line in H. apply join_chars in H.
  destruct H as [H|(part & Hin & Hc)].
  - cbn in H. intuition discriminate.
  - apply in_map_iff in Hin. destruct Hin as (raw & <- & Hraw).
    apply desktop_escape_chars in Hc.
    destruct Hc as [Hc|[Hc|Hc]]; try discriminate.
    unfold free_of in Hfree. rewrite Forall_forall in Hfree.
    now apply (Hfree raw Hraw).
Qed.

Lemma split_on_nonnil (sep : ascii) (s : string) : split_on sep s <> [].
Proof.
  destruct s as [|c rest]; cbn [split_on]; [discriminate|].
  destruct (Ascii.eqb c sep); [discriminate|].
  destruct (split_on sep rest); discriminate.
Qed.

Lemma split_on_snoc (sep : ascii) (s : string) :
  split_on sep (s ++ String sep "") = (split_on sep s ++ [""%string])%list.
Proof.
  induction s as [|c rest IH].
  - cbn. now rewrite Ascii.eqb_refl.
  - cbn [append split_on]. destruct (Ascii.eqb c sep).
    + now rewrite IH.
    + rewrite IH. pose proof (split_on_nonnil sep rest) as Hne.
      destruct (split_on sep rest); [congruence|reflexivity].
Qed.

Lemma entry_lines_free (launch_command : list string) (autostart : bool) :
  free_of NEWLINE launch_command ->
  free_of NEWLINE (entry_lines launch_command autostart).
Proof.
  intros Hfree.
  assert (Hexec : ~ In NEWLINE (list_ascii_of_string
                                  ("Exec=" ++ exec_line launch_command))).
  { rewrite chars_app, in_app_iff. intros [H|H].
    - cbn in H. intuition discriminate.
    - now apply (exec_line_free launch_command Hfree). }
  unfold free_of, entry_lines.
  destruct autostart; repeat (apply Forall_app; split);
    repeat (constructor; [first [exact Hexec | cbn; intuition discriminate]|]);
    constructor.
Qed.

Lemma space_needs_quotes (part : string) :
  needs_quotes part = false -> ~ In " "%char (list_ascii_of_string part).
Proof.
  unfold needs_quotes. intros H. apply orb_false_iff in H.
  destruct H as [H _]. now apply has_space_space.
Qed.

(** X24. When no part of the launch command holds a newline, the desktop
    entry is made of exactly its lines, each ended by a newline: the ten
    keys of a launcher, three more for autostart, with the command on the
    [Exec] line.  When no part needs quoting (none holds whitespace, of
    any script, or a special character), cutting the [Exec] value at the
    spaces gives back the parts of the command. *)
Theorem X24_desktop_entry_lines (launch_command : list string)
    (autostart : bool) :
  (free_of NEWLINE launch_command ->
   split_on NEWLINE (build_desktop_entry launch_command autostart)
   = (entry_lines launch_command autostart ++ [""%string])%list
   /\ nth 5 (split_on NEWLINE (build_desktop_entry launch_command autostart))
          ""%string
      = ("Exec=" ++ exec_line launch_command)%string
   /\ List.length (entry_lines launch_command autostart)
      = (if autostart then 13 else 10)%nat)
  /\ (launch_command <> [] ->
      Forall (fun part => needs_quotes part = false) launch_command ->
      split_on " " (exec_line launch_command) = launch_command).
Proof.
  split.
  - intros Hfree.
    assert (Hsplit :
              split_on NEWLINE (build_desktop_entry launch_command autostart)
              = (entry_lines launch_command autostart ++ [""%string])%list).
    { unfold build_desktop_entry. rewrite split_on_snoc. f_equal.
      apply split_join; [destruct autostart; discriminate|].
      now apply entry_lines_free. }
    split; [exact Hsplit|]. rewrite Hsplit.
    split; destruct autostart; reflexivity.
  - intros Hne Hplain. unfold exec_line.
    assert (Hmap : map _desktop_escape launch_command = launch_command).
    { rewrite <- (map_id launch_command) at 2. apply map_ext_in.
      intros part Hin. apply desktop_escape_plain_value.
      rewrite Forall_forall in Hplain. now apply Hplain. }
    rewrite Hmap. apply (split_join " "%char launch_command Hne).
    eapply Forall_impl; [|exact Hplain].
    intros part. apply space_needs_quotes.
Qed.

Lemma X24_entry_sample :
  split_on " " (exec_line ["/usr/bin/python3"; "--size"; "220"])
  = ["/usr/bin/python3"; "--size"; "220"]
  /\ exec_line ["clock"; "Fira" ++ no_break_space ++ "Code"]
     = "clock "
       ++ String QUOTE (("Fira" ++ no_break_space ++ "Code")
                        ++ String QUOTE "").
Proof.
  destruct (X24_desktop_entry_lines ["/usr/bin/python3"; "--size"; "220"]
              false) as [_ H].
  split; [|vm_compute; reflexivity].
  apply H; [discriminate|].
  repeat constructor.
Defined.

Lemma X20_install_sample :
  is_kwin_rule_enabled
    (rules_written (kde_session "a, b")
       (groups_to_install (kde_session "a, b")))
  = true.
Proof.
  destruct (X20_install_and_remove_rule (kde_session "a, b")) as [H _].
  exact H.
Defined.
